(** * ReliableSocket: a stop-and-wait reliable transport over UDP

    A shallow embedding of [ReliableSocket.h] and [ReliableSocket.cpp].

    - Buffers are lists of bytes; a header is read from and written to the
      front of a buffer at the offsets the struct layout gives.
    - [uint32_t] values are integers with their reduction modulo [2^32]
      written out.  The [int] fields of the estimator are integers; C++ leaves
      signed overflow undefined, and the model agrees with the code wherever
      no such overflow occurs ([update_rtt_in_range]).
    - The [double] arithmetic of the estimator involves only [int] values
      and the constants 0.125, 0.25, 0.75 and 0.875: every intermediate
      value is a multiple of 1/8 far inside the 53-bit range, so it is
      represented exactly and is modelled by rational numbers.
    - The operating system is an oracle: what [recv] reports is a script
      held in the world, and the results of the other system calls are
      functions of the number of earlier calls.  A member function is a
      computation over the object and the world whose outcome says how
      control left it. *)

From Stdlib Require Import String ZArith List Bool Lia QArith.
From Stdlib Require Import Init.Byte Strings.Byte.
Import ListNotations.

#[local] Open Scope Z_scope.

(** ** Bytes and 32-bit fields in network order *)

Definition Z_of_byte (b : byte) : Z := Z.of_N (Byte.to_N b).

Definition byte_of_Z (z : Z) : byte :=
  match Byte.of_N (Z.to_N (z mod 256)) with
  | Some b => b
  | None => x00
  end.

(** [uint32_t] conversion: reduction modulo [2^32]. *)
Definition to_uint32 (x : Z) : Z := x mod 2 ^ 32.

(** [uint16_t] conversion, as of the [int] passed to [htons]. *)
Definition to_uint16 (x : Z) : Z := x mod 2 ^ 16.

(** The four bytes that a field assigned [htonl x] holds in memory, and so
    on the wire: most significant byte first, on any host. *)
Definition htonl (x : Z) : list byte :=
  [ byte_of_Z (x / 2 ^ 24); byte_of_Z (x / 2 ^ 16);
    byte_of_Z (x / 2 ^ 8); byte_of_Z x ].

(** [ntohl] of the field made of the four bytes [bs]. *)
Definition ntohl (bs : list byte) : Z :=
  fold_left (fun acc b => acc * 256 + Z_of_byte b) bs 0.

(** ** Struct layout

    [sizeof] and the field offsets follow the usual rule of the C++ ABIs
    this program targets: each field is placed at the next multiple of
    its alignment, and the size of the struct is rounded up to the largest
    alignment of its fields.  The struct is not declared packed. *)

Module Layout.

Record ctype := { c_size : Z; c_align : Z }.

Definition align_up (off a : Z) : Z := ((off + a - 1) / a) * a.

(** Offsets of the fields, and the offset after the last one. *)
Fixpoint place (fields : list ctype) (off : Z) : list Z * Z :=
  match fields with
  | [] => ([], off)
  | f :: rest =>
      let o := align_up off (c_align f) in
      let (os, e) := place rest (o + c_size f) in
      (o :: os, e)
  end.

Definition max_align (fields : list ctype) : Z :=
  fold_right (fun f m => Z.max (c_align f) m) 1 fields.

Definition offsets (fields : list ctype) : list Z := fst (place fields 0).

Definition sizeof (fields : list ctype) : Z :=
  align_up (snd (place fields 0)) (max_align fields).

(** [uint32_t] with alignment [a]; [a = 4] is its natural alignment,
    [a = 1] is what a packed struct would use. *)
Definition uint32_t (a : Z) : ctype := {| c_size := 4; c_align := a |}.
Definition uint8_t : ctype := {| c_size := 1; c_align := 1 |}.

(** [struct RDTHeader { uint32_t sequence_number; uint32_t ack_number;
    RDTMessageType type; }] with [RDTMessageType : uint8_t]. *)
Definition RDTHeader_fields (a : Z) : list ctype :=
  [ uint32_t a; uint32_t a; uint8_t ].

End Layout.

(** ** Message types, header, constants *)

Inductive RDTMessageType := RDT_SYN | RDT_SYNACK | RDT_ACK | RDT_DATA | RDT_CLOSE.

(** The enumerator values, in the [uint8_t] the enum is based on. *)
Definition type_code (t : RDTMessageType) : byte :=
  match t with
  | RDT_SYN => x00
  | RDT_SYNACK => x01
  | RDT_ACK => x02
  | RDT_DATA => x03
  | RDT_CLOSE => x04
  end.

Definition sizeof_RDTHeader : Z :=
  Eval cbv in Layout.sizeof (Layout.RDTHeader_fields 4).

Definition offset_sequence_number : nat := 0.
Definition offset_ack_number : nat := 4.
Definition offset_type : nat := 8.

Definition MAX_SEG_SIZE : Z := 1400.
Definition MAX_DATA_SIZE : Z := MAX_SEG_SIZE - sizeof_RDTHeader.
Definition TIME_WAIT : Z := 4000.

Definition EAGAIN : Z := 11.

Module RDTHeader.

(** A header as the program fills it in: the two numbers are the values
    passed to [htonl], the type is the tag byte. *)
Record t := mk { sequence_number : Z; ack_number : Z; type : byte }.

(** The bytes of a header written into a zeroed buffer: the fields at
    their offsets, and the padding after the type byte left zero. *)
Definition encode_raw (seq ack : list byte) (ty : byte) : list byte :=
  seq ++ ack ++ [ty] ++ repeat x00 (Z.to_nat sizeof_RDTHeader - 9).

Definition encode (h : t) : list byte :=
  encode_raw (htonl (sequence_number h)) (htonl (ack_number h)) (type h).

End RDTHeader.

(** Reading through [(RDTHeader* )buf] from a buffer that was zeroed
    before [buf] was received into it: bytes past the end of [buf] read
    as zero. *)
Definition byte_at (buf : list byte) (i : nat) : byte := nth i buf x00.

Definition raw_field (buf : list byte) (off : nat) : list byte :=
  [ byte_at buf off; byte_at buf (off + 1);
    byte_at buf (off + 2); byte_at buf (off + 3) ].

(** [hdr->sequence_number], [hdr->ack_number] as stored, and [hdr->type]. *)
Definition hdr_sequence_number (buf : list byte) : list byte :=
  raw_field buf offset_sequence_number.
Definition hdr_ack_number (buf : list byte) : list byte :=
  raw_field buf offset_ack_number.
Definition hdr_type (buf : list byte) : byte := byte_at buf offset_type.

Definition is_type (buf : list byte) (t : RDTMessageType) : bool :=
  Byte.eqb (hdr_type buf) (type_code t).

(** A header-only segment, and a header followed by data. *)
Definition header_segment (seq ack : Z) (t : RDTMessageType) : list byte :=
  RDTHeader.encode (RDTHeader.mk seq ack (type_code t)).

Definition data_segment (seq : Z) (data : list byte) : list byte :=
  header_segment seq 0 RDT_DATA ++ data.

(** ** The RTT estimator arithmetic *)

(** Conversion of a [double] to [int]: truncation toward zero. *)
Definition int_of_double (x : Q) : Z := Z.quot (Qnum x) (Zpos (Qden x)).

Definition alpha : Q := 1 # 8.   (* 0.125 *)
Definition beta : Q := 1 # 4.    (* 0.25 *)

Definition Zabs_dev (current est : Z) : Z :=
  let abs_dev := current - est in
  if abs_dev <? 0 then abs_dev * -1 else abs_dev.

(** The two compound assignments to [estimated_rtt]. *)
Definition next_estimated_rtt (est current : Z) : Z :=
  let est1 := int_of_double (inject_Z est * (1 - alpha)) in
  int_of_double (inject_Z est1 + inject_Z current * alpha).

(** The two compound assignments to [dev_rtt]; [est'] is the value of
    [estimated_rtt] at that point, already updated. *)
Definition next_dev_rtt (dev current est' : Z) : Z :=
  let dev1 := int_of_double (inject_Z dev * (1 - beta)) in
  int_of_double (inject_Z dev1 + inject_Z (Zabs_dev current est') * beta).

(** ** The object, the operating system, and computations *)

Inductive connection_status := INIT | ESTABLISHED | FIN | CLOSED.

Definition status_eqb (a b : connection_status) : bool :=
  match a, b with
  | INIT, INIT | ESTABLISHED, ESTABLISHED | FIN, FIN | CLOSED, CLOSED => true
  | _, _ => false
  end.

(** The private members of [class ReliableSocket]. *)
Record ReliableSocket := mkSocket {
  sock_fd : Z;
  sequence_number : Z;            (* uint32_t *)
  expected_sequence_number : Z;   (* uint32_t *)
  estimated_rtt : Z;              (* int *)
  current_rtt : Z;                (* int *)
  dev_rtt : Z;                    (* int *)
  state : connection_status
}.

Definition set_sequence_number (v : Z) (s : ReliableSocket) : ReliableSocket :=
  mkSocket (sock_fd s) v (expected_sequence_number s) (estimated_rtt s)
           (current_rtt s) (dev_rtt s) (state s).

Definition set_current_rtt (v : Z) (s : ReliableSocket) : ReliableSocket :=
  mkSocket (sock_fd s) (sequence_number s) (expected_sequence_number s)
           (estimated_rtt s) v (dev_rtt s) (state s).

Definition set_rtt (est dev : Z) (s : ReliableSocket) : ReliableSocket :=
  mkSocket (sock_fd s) (sequence_number s) (expected_sequence_number s)
           est (current_rtt s) dev (state s).

Definition set_state (v : connection_status) (s : ReliableSocket) : ReliableSocket :=
  mkSocket (sock_fd s) (sequence_number s) (expected_sequence_number s)
           (estimated_rtt s) (current_rtt s) (dev_rtt s) v.

(** What one call of [recv] (or [recvfrom]) reports. *)
Inductive recv_result :=
| RecvError (e : Z)              (* returns -1 and sets [errno] to [e] *)
| Datagram (d : list byte).      (* a datagram with contents [d] arrived *)

(** The receive timeout expiring: [recv] fails with [EAGAIN]. *)
Definition Timeout : recv_result := RecvError EAGAIN.

(** What the program does to the outside, in order. *)
Inductive event :=
| EvSend (seg : list byte) (err : Z)   (* [send] of [seg]; [err = 0]: sent *)
| EvLogTimeout (ms : Z)                (* the log line of [set_timeout_length] *)
| EvSetTimeout (ms : Z)                (* [SO_RCVTIMEO] set to [ms] *)
| EvLogSegment (seq ack : Z) (ty : byte)
| EvPerror (msg : string)
| EvCerr (msg : string)
| EvBind (port : Z)                    (* [bind] to the port [port] *)
| EvConnect
| EvClose.

(** Results of the system calls other than [recv]: the [errno] of the
    [i]-th call of each kind (0: the call succeeds), and the value of the
    [i]-th reading of the clock. *)
Record Oracle := {
  send_errno : nat -> Z;
  setsockopt_errno : nat -> Z;
  misc_errno : nat -> Z;        (* [bind], [connect], [close] *)
  msec : nat -> Z
}.

Record World := mkWorld {
  recv_q : list recv_result;    (* what the calls of [recv] to come report *)
  errno : Z;
  n_send : nat;
  n_sockopt : nat;
  n_misc : nat;
  n_clock : nat;
  trace : list event
}.

Definition emit_w (e : event) (w : World) : World :=
  mkWorld (recv_q w) (errno w) (n_send w) (n_sockopt w) (n_misc w) (n_clock w)
          (trace w ++ [e]).

(** A failing call sets [errno]; a successful one leaves it alone. *)
Definition errno_after (e : Z) (w : World) : Z :=
  if e =? 0 then errno w else e.

(** The world after the calls: [send] of [seg] with result [e], [recv]
    reporting [r] with [q] left to report, [setsockopt] with result [e],
    one of [bind], [connect], [close] with result [e], a clock reading. *)
Definition sent_w (seg : list byte) (e : Z) (w : World) : World :=
  mkWorld (recv_q w) (errno_after e w) (S (n_send w)) (n_sockopt w) (n_misc w)
          (n_clock w) (trace w ++ [EvSend seg e]).

Definition received_w (r : recv_result) (q : list recv_result) (w : World) : World :=
  mkWorld q (match r with RecvError e => e | Datagram _ => errno w end)
          (n_send w) (n_sockopt w) (n_misc w) (n_clock w) (trace w).

Definition sockopt_w (e : Z) (w : World) : World :=
  mkWorld (recv_q w) (errno_after e w) (n_send w) (S (n_sockopt w)) (n_misc w)
          (n_clock w) (trace w).

Definition misc_w (ev : event) (e : Z) (w : World) : World :=
  mkWorld (recv_q w) (errno_after e w) (n_send w) (n_sockopt w) (S (n_misc w))
          (n_clock w) (trace w ++ [ev]).

Definition clock_w (w : World) : World :=
  mkWorld (recv_q w) (errno w) (n_send w) (n_sockopt w) (n_misc w)
          (S (n_clock w)) (trace w).

(** How control leaves a computation other than by returning. *)
Inductive stop :=
| Exited        (* [exit(EXIT_FAILURE)] *)
| Pending       (* blocked in [recv] when the script of the world ends *)
| Fault         (* a [memcpy] outside its buffers: undefined from there on *)
| OutOfFuel.    (* the bound on loop iterations was reached *)

Inductive outcome (A : Type) :=
| Ret (a : A) (s : ReliableSocket) (w : World)
| Stop (why : stop) (s : ReliableSocket) (w : World).

Arguments Ret {A} a s w.
Arguments Stop {A} why s w.

Definition M (A : Type) : Type := ReliableSocket -> World -> outcome A.

Definition ret {A} (a : A) : M A := fun s w => Ret a s w.

Definition bind {A B} (m : M A) (k : A -> M B) : M B :=
  fun s w =>
    match m s w with
    | Ret a s' w' => k a s' w'
    | Stop why s' w' => Stop why s' w'
    end.

Declare Scope rdt_scope.
Delimit Scope rdt_scope with rdt.
Notation "x <- m ;; k" := (bind m (fun x => k))
  (at level 61, m at next level, right associativity) : rdt_scope.
Notation "m ;; k" := (bind m (fun _ => k))
  (at level 61, right associativity) : rdt_scope.
#[local] Open Scope rdt_scope.

Definition this : M ReliableSocket := fun s w => Ret s s w.
Definition modify (f : ReliableSocket -> ReliableSocket) : M unit :=
  fun s w => Ret tt (f s) w.
Definition stop_with {A} (why : stop) : M A := fun s w => Stop why s w.
Definition exit_failure {A} : M A := stop_with Exited.
Definition emit (e : event) : M unit := fun s w => Ret tt s (emit_w e w).
Definition perror (msg : string) : M unit := emit (EvPerror msg).
Definition cerr (msg : string) : M unit := emit (EvCerr msg).
Definition get_errno : M Z := fun s w => Ret (errno w) s w.

(** The value an outcome leaves in the object and in the world. *)
Definition final_socket {A} (o : outcome A) : ReliableSocket :=
  match o with Ret _ s _ | Stop _ s _ => s end.
Definition final_world {A} (o : outcome A) : World :=
  match o with Ret _ _ w | Stop _ _ w => w end.

(** Segments handed to [send], and receive timeouts applied, in a trace. *)
Definition sends (tr : list event) : list (list byte) :=
  flat_map (fun e => match e with EvSend seg _ => [seg] | _ => [] end) tr.

Definition applied_timeouts (tr : list event) : list Z :=
  flat_map (fun e => match e with EvSetTimeout ms => [ms] | _ => [] end) tr.

Definition perrors (tr : list event) : list string :=
  flat_map (fun e => match e with EvPerror m => [m] | _ => [] end) tr.

(** How often the socket was closed. *)
Definition closes (tr : list event) : nat :=
  List.length (filter (fun e => match e with EvClose => true | _ => false end) tr).

Section Program.

Variable os : Oracle.

(** *** System calls *)

Definition current_msec : M Z :=
  fun s w => Ret (msec os (n_clock w)) s (clock_w w).

(** [send(sock_fd, seg, |seg|, 0)]: the number of bytes, or -1. *)
Definition sys_send (seg : list byte) : M Z :=
  fun s w =>
    let e := send_errno os (n_send w) in
    Ret (if e =? 0 then Z.of_nat (List.length seg) else -1) s (sent_w seg e w).

(** [if (send(...) < 0) { perror(msg); }] *)
Definition send_or_perror (seg : list byte) (msg : string) : M unit :=
  r <- sys_send seg ;;
  if r <? 0 then perror msg else ret tt.

(** [recv(sock_fd, buf, MAX_SEG_SIZE, 0)] into a zeroed buffer: the
    count and the bytes received, at most [MAX_SEG_SIZE] of them. *)
Definition sys_recv : M (Z * list byte) :=
  fun s w =>
    match recv_q w with
    | [] => Stop Pending s w
    | r :: q =>
        match r with
        | RecvError e => Ret (-1, []) s (received_w r q w)
        | Datagram d =>
            let buf := firstn (Z.to_nat MAX_SEG_SIZE) d in
            Ret (Z.of_nat (List.length buf), buf) s (received_w r q w)
        end
    end.

Definition sys_setsockopt : M Z :=
  fun s w =>
    let e := setsockopt_errno os (n_sockopt w) in
    Ret (if e =? 0 then 0 else -1) s (sockopt_w e w).

(** [bind], [connect], [close]. *)
Definition sys_misc (ev : event) : M Z :=
  fun s w =>
    let e := misc_errno os (n_misc w) in
    Ret (if e =? 0 then 0 else -1) s (misc_w ev e w).

(** A loop whose every iteration calls [recv] needs no more iterations
    than the script has entries, plus the one that finds it empty. *)
Definition with_fuel {A} (body : nat -> M A) : M A :=
  fun s w => body (S (length (recv_q w))) s w.

(** *** ReliableSocket::ReliableSocket, given what [socket] returned *)

Definition ReliableSocket_new (fd : Z) (w : World) : outcome unit :=
  let s := mkSocket fd 0 0 100 0 10 INIT in
  if fd <? 0 then (perror "socket" ;; exit_failure) s w
  else Ret tt s w.

(** *** set_timeout_length *)

Definition set_timeout_length (timeout_length_ms : Z) : M unit :=
  let ms := to_uint32 timeout_length_ms in
  emit (EvLogTimeout ms) ;;
  r <- sys_setsockopt ;;
  if r <? 0 then perror "setsockopt" ;; exit_failure
  else emit (EvSetTimeout ms).

(** [estimated_rtt + 4 * dev_rtt], as the callers compute it. *)
Definition rto (s : ReliableSocket) : Z := estimated_rtt s + 4 * dev_rtt s.

(** *** set_estimated_rtt *)

Definition update_rtt (s : ReliableSocket) : ReliableSocket :=
  let est' := next_estimated_rtt (estimated_rtt s) (current_rtt s) in
  let dev' := next_dev_rtt (dev_rtt s) (current_rtt s) est' in
  set_rtt est' dev' s.

Definition set_estimated_rtt : M unit :=
  modify update_rtt ;;
  s <- this ;;
  set_timeout_length (rto s).

Definition get_estimated_rtt : M Z :=
  s <- this ;; ret (to_uint32 (estimated_rtt s)).

(** *** reliable_send *)

Fixpoint reliable_send_loop (fuel : nat) (send_seg : list byte)
    (previous_timeout : bool) (doubled_timeout : Z) : M (list byte) :=
  match fuel with
  | O => stop_with OutOfFuel
  | S fuel' =>
      time_sent <- current_msec ;;
      send_or_perror send_seg "reliable_send send" ;;
      rc <- sys_recv ;;
      let (bytes_received, recv_seg) := rc in
      if bytes_received <? 0 then
        e <- get_errno ;;
        if e =? EAGAIN then
          cerr "Timeout Occurred. Doubling the length." ;;
          s <- this ;;
          let doubled :=
            if previous_timeout then to_uint32 (doubled_timeout * 2)
            else to_uint32 (2 * (estimated_rtt s + 4 * dev_rtt s)) in
          set_timeout_length doubled ;;
          reliable_send_loop fuel' send_seg true doubled
        else
          perror "ACK not received" ;; exit_failure
      else
        now <- current_msec ;;
        modify (set_current_rtt (now - time_sent)) ;;
        ret recv_seg
  end.

Definition reliable_send (send_seg : list byte) : M (list byte) :=
  s <- this ;;
  set_timeout_length (rto s) ;;
  recv_seg <- with_fuel (fun fuel => reliable_send_loop fuel send_seg false 0) ;;
  set_estimated_rtt ;;
  ret recv_seg.

(** *** timeout_send *)

Fixpoint timeout_send_loop (fuel : nat) (send_seg : list byte) : M unit :=
  match fuel with
  | O => stop_with OutOfFuel
  | S fuel' =>
      send_or_perror send_seg "timeout_send send" ;;
      s <- this ;;
      set_timeout_length (estimated_rtt s + dev_rtt s * 4) ;;
      rc <- sys_recv ;;
      if fst rc <? 0 then
        e <- get_errno ;;
        if e =? EAGAIN then ret tt
        else perror "timeout_send recv" ;; exit_failure
      else timeout_send_loop fuel' send_seg
  end.

(** The buffer passed holds a header; [sizeof(RDTHeader)] bytes are sent. *)
Definition timeout_send (send_seg : list byte) : M unit :=
  with_fuel (fun fuel => timeout_send_loop fuel send_seg).

(** *** memcpy

    [memcpy(dst, src, count)] where [room] bytes lie at [dst] and at [src].
    The source never tests the count.  A count that fits is copied; with a
    count above [room], or a negative [int] (which becomes a huge
    [size_t]), the copy leaves its buffers: the behaviour of the program is
    undefined from there on, and the computation stops there with
    [Fault]. *)
Definition memcpy (room count : Z) : M unit :=
  if (count <? 0) || (room <? count) then stop_with Fault else ret tt.

(** *** send_data

    [data] is the [length] bytes of the caller's buffer. *)

Fixpoint send_data_loop (fuel : nat) (send_seg : list byte) : M unit :=
  match fuel with
  | O => stop_with OutOfFuel
  | S fuel' =>
      recv_seg <- reliable_send send_seg ;;
      s <- this ;;
      if is_type recv_seg RDT_ACK then
        if sequence_number s =? ntohl (hdr_ack_number recv_seg) then ret tt
        else send_data_loop fuel' send_seg
      else send_data_loop fuel' send_seg
  end.

Definition send_data (data : list byte) : M unit :=
  s <- this ;;
  if negb (status_eqb (state s) ESTABLISHED) then
    cerr "INFO: Cannot send: Connection not established."
  else
    (* [memcpy(hdr + 1, data, length)] into [send_seg], after its header *)
    memcpy (MAX_SEG_SIZE - sizeof_RDTHeader) (Z.of_nat (List.length data)) ;;
    let send_seg := data_segment (sequence_number s) data in
    with_fuel (fun fuel => send_data_loop fuel send_seg) ;;
    modify (fun s => set_sequence_number (to_uint32 (sequence_number s + 1)) s).

(** *** receive_data

    Returns the count and the bytes copied into the caller's buffer. *)

Fixpoint receive_data_loop (fuel : nat) : M (Z * list byte) :=
  match fuel with
  | O => stop_with OutOfFuel
  | S fuel' =>
      rc <- sys_recv ;;
      let (recv_count, recv_seg) := rc in
      if recv_count <? 0 then perror "receive_data recv" ;; exit_failure
      else
        s <- this ;;
        emit (EvLogSegment (ntohl (hdr_sequence_number recv_seg))
                           (sequence_number s) (hdr_type recv_seg)) ;;
        let seqnum := hdr_sequence_number recv_seg in
        if is_type recv_seg RDT_ACK then receive_data_loop fuel'
        else if is_type recv_seg RDT_CLOSE then
          timeout_send (header_segment 0 0 RDT_ACK) ;;
          modify (set_state FIN) ;;
          ret (0, [])
        else
          send_or_perror (RDTHeader.encode_raw seqnum seqnum (type_code RDT_ACK))
                         "receive_data send" ;;
          s <- this ;;
          if ntohl seqnum =? sequence_number s then
            let recv_data_size := recv_count - sizeof_RDTHeader in
            modify (fun s => set_sequence_number
                               (to_uint32 (sequence_number s + 1)) s) ;;
            (* [memcpy(buffer, data, recv_data_size)] *)
            memcpy MAX_DATA_SIZE recv_data_size ;;
            ret (recv_data_size,
                 firstn (Z.to_nat recv_data_size)
                        (skipn (Z.to_nat sizeof_RDTHeader) recv_seg))
          else receive_data_loop fuel'
  end.

Definition receive_data : M (Z * list byte) :=
  set_timeout_length 0 ;;
  s <- this ;;
  if negb (status_eqb (state s) ESTABLISHED) then
    cerr "INFO: Cannot receive: Connection not established." ;;
    ret (0, [])
  else with_fuel receive_data_loop.

(** *** connect_to_remote *)

Definition connect_to_remote (hostname : string) (port_num : Z) : M unit :=
  s <- this ;;
  if negb (status_eqb (state s) INIT) then
    cerr "Cannot call connect_to_remote on used socket"
  else
    r <- sys_misc EvConnect ;;
    (if negb (r =? 0) then perror "connect" else ret tt) ;;
    s <- this ;;
    set_timeout_length (rto s) ;;
    recv_seg <- reliable_send (header_segment 0 0 RDT_SYN) ;;
    (if negb (is_type recv_seg RDT_SYNACK)
     then perror "Message was not a SYNACK" else ret tt) ;;
    timeout_send (header_segment 0 0 RDT_ACK) ;;
    modify (set_state ESTABLISHED) ;;
    cerr "INFO: Connection ESTABLISHED".

(** *** accept_connection *)

Fixpoint accept_loop (fuel : nat) : M unit :=
  match fuel with
  | O => stop_with OutOfFuel
  | S fuel' =>
      s <- this ;;
      set_timeout_length (rto s) ;;
      recv_seg <- reliable_send (header_segment 0 0 RDT_SYNACK) ;;
      if is_type recv_seg RDT_ACK then ret tt
      else if is_type recv_seg RDT_DATA then ret tt
      else accept_loop fuel'
  end.

Definition accept_connection (port_num : Z) : M unit :=
  s <- this ;;
  if negb (status_eqb (state s) INIT) then
    cerr "cannot call accept on used socket" ;; exit_failure
  else
    r <- sys_misc (EvBind (to_uint16 port_num)) ;;   (* [sin_port = htons(port_num)] *)
    (if negb (r =? 0) then perror "bind" else ret tt) ;;
    rc <- sys_recv ;;
    let (recv_count, segment) := rc in
    if recv_count <? 0 then perror "accept recvfrom" ;; exit_failure
    else
      r <- sys_misc EvConnect ;;
      if negb (r =? 0) then perror "accept connect" ;; exit_failure
      else if negb (is_type segment RDT_SYN) then
        cerr "ERROR: Didn't get the expected RDT_SYN type." ;;
        cerr "Connection was not Established" ;;
        exit_failure
      else
        with_fuel accept_loop ;;
        cerr "Connection ESTABLISHED" ;;
        modify (set_state ESTABLISHED).

(** *** send_close_connection: its three loops *)

Fixpoint close_handshake_loop (fuel : nat) : M unit :=
  match fuel with
  | O => stop_with OutOfFuel
  | S fuel' =>
      recv_seg <- reliable_send (header_segment 0 0 RDT_CLOSE) ;;
      if is_type recv_seg RDT_ACK then ret tt
      else if is_type recv_seg RDT_CLOSE then ret tt
      else close_handshake_loop fuel'
  end.

(** The test for an error other than a timeout comes after the test
    [recv_count < 0] has already continued the loop, so it never runs. *)
Fixpoint await_close_loop (fuel : nat) : M unit :=
  match fuel with
  | O => stop_with OutOfFuel
  | S fuel' =>
      rc <- sys_recv ;;
      let (recv_count, recv_seg) := rc in
      if recv_count <? 0 then await_close_loop fuel'
      else if is_type recv_seg RDT_CLOSE then ret tt
      else await_close_loop fuel'
  end.

Fixpoint time_wait_loop (fuel : nat) : M unit :=
  match fuel with
  | O => stop_with OutOfFuel
  | S fuel' =>
      send_or_perror (header_segment 0 0 RDT_ACK) "send_close_connection send" ;;
      set_timeout_length TIME_WAIT ;;
      rc <- sys_recv ;;
      let (recv_count, recv_seg) := rc in
      if 0 <? recv_count then
        if is_type recv_seg RDT_CLOSE then time_wait_loop fuel'
        else time_wait_loop fuel'
      else
        e <- get_errno ;;
        if e =? EAGAIN then ret tt
        else perror "send_close_connection recv" ;; exit_failure
  end.

Definition send_close_connection : M unit :=
  with_fuel close_handshake_loop ;;
  with_fuel await_close_loop ;;
  with_fuel time_wait_loop.

(** *** receive_close_connection *)

Fixpoint receive_close_loop (fuel : nat) : M unit :=
  match fuel with
  | O => stop_with OutOfFuel
  | S fuel' =>
      recv_seg <- reliable_send (header_segment 0 0 RDT_CLOSE) ;;
      if is_type recv_seg RDT_ACK then ret tt
      else receive_close_loop fuel'
  end.

Definition receive_close_connection : M unit :=
  s <- this ;;
  set_timeout_length (rto s) ;;
  with_fuel receive_close_loop.

(** *** close_connection *)

Definition close_connection : M unit :=
  s <- this ;;
  (if negb (status_eqb (state s) FIN) then send_close_connection
   else receive_close_connection) ;;
  modify (set_state CLOSED) ;;
  r <- sys_misc EvClose ;;
  (if r <? 0 then perror "close_connection close" else ret tt) ;;
  cerr "Connection successfully closed".

End Program.

(** ** Worlds reached by the idioms of the program *)

(** After [set_timeout_length] has applied [ms]. *)
Definition timeout_w (ms : Z) (w : World) : World :=
  mkWorld (recv_q w) (errno w) (n_send w) (S (n_sockopt w)) (n_misc w)
          (n_clock w) (trace w ++ [EvLogTimeout ms; EvSetTimeout ms]).

(** After [send] with result [e], and [perror msg] if it failed. *)
Definition send_checked_w (seg : list byte) (msg : string) (e : Z) (w : World) : World :=
  mkWorld (recv_q w) (errno_after e w) (S (n_send w)) (n_sockopt w) (n_misc w)
          (n_clock w)
          (trace w ++ EvSend seg e :: (if e =? 0 then [] else [EvPerror msg])).

(** The timeout that [reliable_send] applies after one more receive
    timeout, from its two loop variables; [base] is
    [estimated_rtt + 4 * dev_rtt]. *)
Definition next_timeout (base : Z) (previous_timeout : bool) (doubled_timeout : Z) : Z :=
  if previous_timeout then to_uint32 (doubled_timeout * 2)
  else to_uint32 (2 * base).

(** The loop variables of [reliable_send] after [n] receive timeouts. *)
Fixpoint after_timeouts (base : Z) (n : nat) (pt : bool) (dt : Z) : bool * Z :=
  match n with
  | O => (pt, dt)
  | S n' => after_timeouts base n' true (next_timeout base pt dt)
  end.

(** What a computation did between two worlds: the entries of the script
    it consumed, the segments it handed to [send], the receive timeouts it
    applied, the messages it gave to [perror], and how often it read the
    clock; it did not close the socket. *)
Definition advances (w w' : World) (consumed : list recv_result)
    (segs : list (list byte)) (tos : list Z) (errs : list string)
    (ticks : nat) : Prop :=
  recv_q w = consumed ++ recv_q w'
  /\ sends (trace w') = sends (trace w) ++ segs
  /\ applied_timeouts (trace w') = applied_timeouts (trace w) ++ tos
  /\ perrors (trace w') = perrors (trace w) ++ errs
  /\ n_clock w' = (n_clock w + ticks)%nat
  /\ n_send w' = (n_send w + List.length segs)%nat
  /\ closes (trace w') = closes (trace w).

(** The [perror] messages of [count] calls of [send], the first being call
    number [start], each followed by [perror msg] if it fails. *)
Definition send_perrors (os : Oracle) (msg : string) (start count : nat) : list string :=
  flat_map (fun i => if send_errno os i =? 0 then [] else [msg]) (seq start count).

(** The sample that [reliable_send] records when the reply comes after
    [n] receive timeouts: from the last transmission to the reply. *)
Definition sample_after (os : Oracle) (w : World) (n : nat) : Z :=
  msec os (S (n_clock w + n)) - msec os (n_clock w + n).

(** What [recv] leaves in the buffer when the datagram [d] arrives. *)
Definition received (d : list byte) : list byte :=
  firstn (Z.to_nat MAX_SEG_SIZE) d.

(** The test of [send_data] on a reply: an ACK whose ack number is the
    sequence number [seq] of the sender. *)
Definition acks (seq : Z) (reply : list byte) : bool :=
  is_type reply RDT_ACK && (seq =? ntohl (hdr_ack_number reply)).

(** An exchange of [reliable_send]: [n] receive timeouts, then a reply. *)
Definition exchange (r : nat * list byte) : list recv_result :=
  repeat Timeout (fst r) ++ [Datagram (snd r)].

Definition exchanges (rs : list (nat * list byte)) : list recv_result :=
  flat_map exchange rs.

(** The number of transmissions in these exchanges. *)
Definition transmissions (rs : list (nat * list byte)) : nat :=
  fold_right (fun r acc => (S (fst r) + acc)%nat) 0%nat rs.

(** Only the estimator fields differ. *)
Definition same_connection (s s' : ReliableSocket) : Prop :=
  sock_fd s' = sock_fd s
  /\ sequence_number s' = sequence_number s
  /\ expected_sequence_number s' = expected_sequence_number s
  /\ state s' = state s.

(** The sequence number that a received segment carries, the ACK that
    [receive_data] sends for it, and the data after its header. *)
Definition seq_of (buf : list byte) : Z := ntohl (hdr_sequence_number buf).

Definition ack_of (buf : list byte) : list byte :=
  RDTHeader.encode_raw (hdr_sequence_number buf) (hdr_sequence_number buf)
                       (type_code RDT_ACK).

Definition payload_of (buf : list byte) : list byte :=
  skipn (Z.to_nat sizeof_RDTHeader) buf.

(** Whether what [recv] reports is a CLOSE segment. *)
Definition is_close (r : recv_result) : bool :=
  match r with
  | RecvError _ => false
  | Datagram d => is_type (received d) RDT_CLOSE
  end.

(** An outcome reached from the world [w] within the bound on iterations:
    it is not [OutOfFuel], and if the computation returned, at least [k]
    entries of the script were consumed. *)
Definition within_fuel {A} (k : nat) (w : World) (o : outcome A) : Prop :=
  match o with
  | Ret _ _ w' => (List.length (recv_q w') + k <= List.length (recv_q w))%nat
  | Stop OutOfFuel _ _ => False
  | Stop _ _ _ => True
  end.

(** ** Assumptions on the operating system, and small scenarios *)

(** [setsockopt] never fails. *)
Definition setsockopt_ok (os : Oracle) : Prop :=
  forall i, setsockopt_errno os i = 0.

(** The timeouts that successive doublings of [t] give as [uint32_t]. *)
Fixpoint doubled_from (t : Z) (n : nat) : list Z :=
  match n with
  | O => []
  | S n' => t :: doubled_from (to_uint32 (2 * t)) n'
  end.

(** An operating system whose calls all succeed and whose clock advances
    by 50 ms at every reading. *)
Definition calm : Oracle :=
  {| send_errno := fun _ => 0;
     setsockopt_errno := fun _ => 0;
     misc_errno := fun _ => 0;
     msec := fun i => 50 * Z.of_nat i |}.

(** The same, except that every [send] fails with [errno] 101. *)
Definition send_failing : Oracle :=
  {| send_errno := fun _ => 101;
     setsockopt_errno := fun _ => 0;
     misc_errno := fun _ => 0;
     msec := fun i => 50 * Z.of_nat i |}.

Definition world_of (q : list recv_result) : World := mkWorld q 0 0 0 0 0 [].

(** The object as the constructor leaves it, and once established. *)
Definition fresh_socket : ReliableSocket := mkSocket 3 0 0 100 0 10 INIT.
Definition open_socket : ReliableSocket := set_state ESTABLISHED fresh_socket.

(** Segments and scripts of the scenarios. *)
Definition SYN_segment : list byte := header_segment 0 0 RDT_SYN.
Definition SYNACK_segment : list byte := header_segment 0 0 RDT_SYNACK.
Definition ACK_segment (ack : Z) : list byte := header_segment 0 ack RDT_ACK.
Definition CLOSE_segment : list byte := header_segment 0 0 RDT_CLOSE.

(** A timeout, then the reply to the retransmission. *)
Definition late_reply : list recv_result := [Timeout; Datagram SYNACK_segment].

(** A sender at sequence number 0 whose first transmission times out and
    is then answered by a stale ACK, before the ACK of its segment comes. *)
Definition stale_then_acked : list recv_result :=
  exchanges [(1%nat, ACK_segment 7)] ++ repeat Timeout 0 ++ [Datagram (ACK_segment 0)].

(** A receiver expecting sequence number 0 that gets the segment 3 first. *)
Definition out_of_order : list (list byte) := [data_segment 3 [x61]].
Definition in_order : list byte := data_segment 0 [x68; x69].

(** A teardown: the CLOSE is acknowledged, a receive timeout passes, the
    CLOSE of the peer comes and is repeated once, then silence. *)
Definition teardown_answered : list recv_result :=
  repeat Timeout 0 ++ Datagram (ACK_segment 0) :: [Timeout]
    ++ Datagram CLOSE_segment :: map Datagram [CLOSE_segment].

Definition teardown : list recv_result := teardown_answered ++ [Timeout].

(** An active open answered by a DATA segment instead of a SYNACK. *)
Definition odd_handshake : list recv_result :=
  repeat Timeout 0 ++ Datagram (data_segment 0 []) :: map Datagram [] ++ [Timeout].

(** ** What a computation may do, whatever the operating system answers *)

(** Everything the computation adds to the trace [t] satisfies [E]; if it
    returns, what it returns and the object then satisfy [Q]; if it stops,
    the object then satisfies [X]. *)
Definition obeys {A} (E : event -> Prop) (X : ReliableSocket -> Prop)
    (Q : A -> ReliableSocket -> Prop) (t : list event) (o : outcome A) : Prop :=
  (exists d, trace (final_world o) = t ++ d /\ Forall E d)
  /\ match o with Ret a s' _ => Q a s' | Stop _ s' _ => X s' end.

(** The calls of [bind], [connect] and [close] in a trace. *)
Definition calls (tr : list event) : list event :=
  filter (fun e => match e with EvBind _ | EvConnect | EvClose => true | _ => false end) tr.

(** Events restricted to: segments satisfying [P] handed to [send], and
    the calls of [bind], [connect], [close] that [sys] allows. *)
Definition only (P : list byte -> Prop) (sys : event -> Prop) (e : event) : Prop :=
  match e with
  | EvSend seg _ => P seg
  | EvBind _ | EvConnect | EvClose => sys e
  | _ => True
  end.

Definition no_call (e : event) : Prop := False.

(** What [recv] hands back: a failure, or a count that is the length of
    the bytes received, at most [MAX_SEG_SIZE]. *)
Definition recv_ok (rc : Z * list byte) : Prop :=
  (fst rc = -1 /\ snd rc = [])
  \/ (fst rc = Z.of_nat (List.length (snd rc))
      /\ Z.of_nat (List.length (snd rc)) <= MAX_SEG_SIZE).

(** A header-only segment of type ACK. *)
Definition ack_header (seg : list byte) : Prop :=
  Z.of_nat (List.length seg) = sizeof_RDTHeader /\ is_type seg RDT_ACK = true.

(** The object after [receive_data] has taken the segment it expected. *)
Definition next_sequence (s : ReliableSocket) : ReliableSocket :=
  set_sequence_number (to_uint32 (sequence_number s + 1)) s.

(** What [recv] reports without cutting a header short: a failure, or a
    datagram of at least [sizeof(RDTHeader)] bytes. *)
Definition whole_segment (r : recv_result) : Prop :=
  match r with
  | RecvError _ => True
  | Datagram d => sizeof_RDTHeader <= Z.of_nat (List.length d)
  end.

(** An outcome without a copy outside its buffers.  If the computation
    returned, what it returns and the object satisfy [Q], and what is
    still to be received are whole segments; if it stopped, it did not
    stop with [Fault], and the object satisfies [X]. *)
Definition tidy {A} (X : ReliableSocket -> Prop)
    (Q : A -> ReliableSocket -> Prop) (o : outcome A) : Prop :=
  match o with
  | Ret a s' w' => Q a s' /\ Forall whole_segment (recv_q w')
  | Stop why s' _ => why <> Fault /\ X s'
  end.

(** The segments of the side that opens the connection, and of the side
    that closes it. *)
Definition handshake_segment (seg : list byte) : Prop :=
  seg = header_segment 0 0 RDT_SYN \/ seg = header_segment 0 0 RDT_ACK.

Definition teardown_segment (seg : list byte) : Prop :=
  seg = header_segment 0 0 RDT_CLOSE \/ seg = header_segment 0 0 RDT_ACK.

(** The test of [accept_connection] on a reply to its SYNACK. *)
Definition accepts (reply : list byte) : bool :=
  is_type reply RDT_ACK || is_type reply RDT_DATA.

(** The object after exchanges of [reliable_send] that measured the round
    trips [cs], one after the other. *)
Definition after_samples (cs : list Z) (s : ReliableSocket) : ReliableSocket :=
  fold_left (fun s c => update_rtt (set_current_rtt c s)) cs s.

(** An operating system as [calm], except that every [setsockopt] fails
    with [errno] 22. *)
Definition sockopt_failing : Oracle :=
  {| send_errno := fun _ => 0;
     setsockopt_errno := fun _ => 22;
     misc_errno := fun _ => 0;
     msec := fun i => 50 * Z.of_nat i |}.

(** The segments that a script delivers. *)
Definition datagrams (q : list recv_result) : list (list byte) :=
  flat_map (fun r => match r with Datagram d => [d] | RecvError _ => [] end) q.

(** * Properties *)

(** ** Bytes and the header codec *)

Lemma Z_of_byte_of_Z (z : Z) : Z_of_byte (byte_of_Z z) = z mod 256.
Proof.
  unfold Z_of_byte, byte_of_Z.
  assert (Hr : 0 <= z mod 256 < 256) by (apply Z.mod_pos_bound; lia).
  destruct (Byte.of_N (Z.to_N (z mod 256))) as [b|] eqn:E.
  - apply Byte.to_of_N in E. rewrite E. apply Z2N.id. lia.
  - apply Byte.of_N_None_iff in E. lia.
Qed.

Lemma Z_of_byte_range (b : byte) : 0 <= Z_of_byte b < 256.
Proof.
  unfold Z_of_byte. pose proof (Byte.to_N_bounded b). lia.
Qed.

Lemma to_uint32_range (x : Z) : 0 <= to_uint32 x < 2 ^ 32.
Proof. unfold to_uint32. apply Z.mod_pos_bound. reflexivity. Qed.

Lemma to_uint32_small (x : Z) : 0 <= x < 2 ^ 32 -> to_uint32 x = x.
Proof. intros H. unfold to_uint32. apply Z.mod_small. exact H. Qed.

Lemma to_uint32_idem (x : Z) : to_uint32 (to_uint32 x) = to_uint32 x.
Proof. apply to_uint32_small, to_uint32_range. Qed.

Lemma to_uint32_double (x : Z) : to_uint32 (2 * to_uint32 x) = to_uint32 (2 * x).
Proof. unfold to_uint32. apply Z.mul_mod_idemp_r. discriminate. Qed.

(** What was stored with [htonl] is read back by [ntohl], as a [uint32_t]. *)
Lemma ntohl_htonl (x : Z) : ntohl (htonl x) = to_uint32 x.
Proof.
  unfold ntohl, htonl, to_uint32. cbn [fold_left].
  rewrite !Z_of_byte_of_Z.
  change (2 ^ 24) with 16777216. change (2 ^ 16) with 65536.
  change (2 ^ 8) with 256. change (2 ^ 32) with 4294967296.
  Z.div_mod_to_equations. lia.
Qed.

Lemma ntohl_range (b0 b1 b2 b3 : byte) : 0 <= ntohl [b0; b1; b2; b3] < 2 ^ 32.
Proof.
  unfold ntohl. cbn [fold_left].
  pose proof (Z_of_byte_range b0). pose proof (Z_of_byte_range b1).
  pose proof (Z_of_byte_range b2). pose proof (Z_of_byte_range b3).
  change (2 ^ 32) with 4294967296. lia.
Qed.

Lemma encode_raw_length (b0 b1 b2 b3 c0 c1 c2 c3 ty : byte) :
  Z.of_nat (List.length (RDTHeader.encode_raw [b0; b1; b2; b3] [c0; c1; c2; c3] ty))
  = sizeof_RDTHeader.
Proof. reflexivity. Qed.

Lemma encode_length (h : RDTHeader.t) :
  Z.of_nat (List.length (RDTHeader.encode h)) = sizeof_RDTHeader.
Proof. reflexivity. Qed.

Lemma data_segment_length (seq : Z) (data : list byte) :
  Z.of_nat (List.length (data_segment seq data))
  = sizeof_RDTHeader + Z.of_nat (List.length data).
Proof.
  unfold data_segment, header_segment. rewrite length_app, Nat2Z.inj_add.
  rewrite encode_length. reflexivity.
Qed.

(** The fields of a header are read back from a segment that starts with
    it, whatever follows. *)
Lemma hdr_type_encode (h : RDTHeader.t) (rest : list byte) :
  hdr_type (RDTHeader.encode h ++ rest) = RDTHeader.type h.
Proof. reflexivity. Qed.

Lemma hdr_sequence_number_encode (h : RDTHeader.t) (rest : list byte) :
  ntohl (hdr_sequence_number (RDTHeader.encode h ++ rest))
  = to_uint32 (RDTHeader.sequence_number h).
Proof. rewrite <- ntohl_htonl. reflexivity. Qed.

Lemma hdr_ack_number_encode (h : RDTHeader.t) (rest : list byte) :
  ntohl (hdr_ack_number (RDTHeader.encode h ++ rest))
  = to_uint32 (RDTHeader.ack_number h).
Proof. rewrite <- ntohl_htonl. reflexivity. Qed.

Lemma type_code_inj (a b : RDTMessageType) : type_code a = type_code b -> a = b.
Proof. destruct a, b; simpl; intros H; try reflexivity; discriminate H. Qed.

Lemma is_type_header_segment (seq ack : Z) (t u : RDTMessageType) (rest : list byte) :
  is_type (header_segment seq ack t ++ rest) u = true <-> t = u.
Proof.
  unfold is_type, header_segment. rewrite hdr_type_encode. cbn [RDTHeader.type].
  split.
  - intros H. apply type_code_inj. apply Byte.byte_dec_bl. exact H.
  - intros ->. apply Byte.byte_dec_lb. reflexivity.
Qed.

(** ** Struct layout *)

Lemma offsets_RDTHeader :
  Layout.offsets (Layout.RDTHeader_fields 4)
  = [ Z.of_nat offset_sequence_number; Z.of_nat offset_ack_number;
      Z.of_nat offset_type ].
Proof. reflexivity. Qed.

(** ** The estimator arithmetic *)

Lemma Zabs_dev_abs (current est : Z) : Zabs_dev current est = Z.abs (current - est).
Proof.
  unfold Zabs_dev. cbv zeta.
  destruct (Z.ltb_spec (current - est) 0); lia.
Qed.

Lemma next_estimated_rtt_eq (est current : Z) :
  next_estimated_rtt est current = Z.quot (8 * Z.quot (7 * est) 8 + current) 8.
Proof.
  unfold next_estimated_rtt. change (1 - alpha)%Q with (7 # 8)%Q.
  change (int_of_double (inject_Z est * (7 # 8)))
    with (Z.quot (est * 7) 8).
  change (int_of_double (inject_Z (Z.quot (est * 7) 8) + inject_Z current * alpha))
    with (Z.quot (Z.quot (est * 7) 8 * 8 + current * 1 * 1) 8).
  rewrite (Z.mul_comm est 7). f_equal. lia.
Qed.

Lemma next_dev_rtt_eq (dev current est' : Z) :
  next_dev_rtt dev current est'
  = Z.quot (4 * Z.quot (3 * dev) 4 + Z.abs (current - est')) 4.
Proof.
  unfold next_dev_rtt. rewrite Zabs_dev_abs. change (1 - beta)%Q with (3 # 4)%Q.
  change (int_of_double (inject_Z dev * (3 # 4)))
    with (Z.quot (dev * 3) 4).
  change (int_of_double (inject_Z (Z.quot (dev * 3) 4)
                         + inject_Z (Z.abs (current - est')) * beta))
    with (Z.quot (Z.quot (dev * 3) 4 * 4 + Z.abs (current - est') * 1 * 1) 4).
  rewrite (Z.mul_comm dev 3). f_equal. lia.
Qed.

(** Non-negative values bounded by [B] stay so: with [B] up to [2^28] no
    [int] operation of [set_estimated_rtt] or of the callers' sum
    [estimated_rtt + 4 * dev_rtt] overflows. *)
Lemma update_rtt_in_range (B : Z) (s : ReliableSocket) :
  0 <= estimated_rtt s <= B -> 0 <= dev_rtt s <= B -> 0 <= current_rtt s <= B ->
  0 <= estimated_rtt (update_rtt s) <= B /\ 0 <= dev_rtt (update_rtt s) <= B.
Proof.
  intros He Hd Hc. unfold update_rtt. cbn.
  rewrite next_dev_rtt_eq, !next_estimated_rtt_eq.
  set (e1 := Z.quot (7 * estimated_rtt s) 8).
  assert (He1 : 0 <= e1 /\ 8 * e1 <= 7 * estimated_rtt s).
  { subst e1. rewrite Z.quot_div_nonneg by lia.
    pose proof (Z.mul_div_le (7 * estimated_rtt s) 8).
    pose proof (Z.div_pos (7 * estimated_rtt s) 8). lia. }
  set (e2 := Z.quot (8 * e1 + current_rtt s) 8).
  assert (He2 : 0 <= e2 <= B).
  { subst e2. rewrite Z.quot_div_nonneg by lia.
    pose proof (Z.mul_div_le (8 * e1 + current_rtt s) 8).
    pose proof (Z.div_pos (8 * e1 + current_rtt s) 8). lia. }
  split; [exact He2|].
  set (d1 := Z.quot (3 * dev_rtt s) 4).
  assert (Hd1 : 0 <= d1 /\ 4 * d1 <= 3 * dev_rtt s).
  { subst d1. rewrite Z.quot_div_nonneg by lia.
    pose proof (Z.mul_div_le (3 * dev_rtt s) 4).
    pose proof (Z.div_pos (3 * dev_rtt s) 4). lia. }
  rewrite Z.quot_div_nonneg by lia.
  pose proof (Z.mul_div_le (4 * d1 + Z.abs (current_rtt s - e2)) 4).
  pose proof (Z.div_pos (4 * d1 + Z.abs (current_rtt s - e2)) 4). lia.
Qed.

(** For non-negative values the two truncations lose less than 2 ms
    against the exact weighted mean. *)
Lemma next_estimated_rtt_near (est current : Z) :
  0 <= est -> 0 <= current ->
  8 * next_estimated_rtt est current <= 7 * est + current
  < 8 * next_estimated_rtt est current + 16.
Proof.
  intros He Hc. rewrite next_estimated_rtt_eq.
  assert (H1 : 0 <= Z.quot (7 * est) 8)
    by (rewrite Z.quot_div_nonneg by lia; apply Z.div_pos; lia).
  rewrite (Z.quot_div_nonneg (8 * Z.quot (7 * est) 8 + current) 8) by lia.
  rewrite (Z.quot_div_nonneg (7 * est) 8) in * by lia.
  Z.div_mod_to_equations. lia.
Qed.

(** ** Worlds: what each idiom changes *)

Lemma advances_refl (w : World) : advances w w [] [] [] [] 0.
Proof. unfold advances. rewrite !app_nil_r, !Nat.add_0_r. repeat split. Qed.

Lemma advances_trans w1 w2 w3 c1 c2 g1 g2 t1 t2 e1 e2 k1 k2 :
  advances w1 w2 c1 g1 t1 e1 k1 -> advances w2 w3 c2 g2 t2 e2 k2 ->
  advances w1 w3 (c1 ++ c2) (g1 ++ g2) (t1 ++ t2) (e1 ++ e2) (k1 + k2).
Proof.
  intros (A1 & A2 & A3 & A4 & A5 & A6 & A7) (B1 & B2 & B3 & B4 & B5 & B6 & B7).
  unfold advances. rewrite A1, B1, B2, A2, B3, A3, B4, A4, B5, A5, B6, A6, B7, A7.
  rewrite !app_assoc, length_app. repeat split; lia.
Qed.

Lemma next_timeout_uint32 (base : Z) (pt : bool) (dt : Z) :
  to_uint32 (next_timeout base pt dt) = next_timeout base pt dt.
Proof. unfold next_timeout. destruct pt; apply to_uint32_idem. Qed.

Lemma send_perrors_S (os : Oracle) (msg : string) (start count : nat) :
  send_perrors os msg start 1 ++ send_perrors os msg (start + 1) count
  = send_perrors os msg start (S count).
Proof.
  unfold send_perrors. cbn [seq flat_map]. rewrite app_nil_r.
  rewrite Nat.add_1_r. reflexivity.
Qed.

Lemma send_perrors_snoc (os : Oracle) (msg : string) (start count : nat) :
  send_perrors os msg start count ++ send_perrors os msg (start + count) 1
  = send_perrors os msg start (S count).
Proof.
  unfold send_perrors. rewrite (seq_S count start), flat_map_app. reflexivity.
Qed.


Lemma sends_app (a b : list event) : sends (a ++ b) = sends a ++ sends b.
Proof. apply flat_map_app. Qed.

Lemma applied_timeouts_app (a b : list event) :
  applied_timeouts (a ++ b) = applied_timeouts a ++ applied_timeouts b.
Proof. apply flat_map_app. Qed.

Lemma perrors_app (a b : list event) : perrors (a ++ b) = perrors a ++ perrors b.
Proof. apply flat_map_app. Qed.

Lemma sends_send (seg : list byte) (e : Z) (c : bool) (msg : string) :
  sends (EvSend seg e :: (if c then [] else [EvPerror msg])) = [seg].
Proof. destruct c; reflexivity. Qed.

Lemma applied_timeouts_send (seg : list byte) (e : Z) (c : bool) (msg : string) :
  applied_timeouts (EvSend seg e :: (if c then [] else [EvPerror msg])) = [].
Proof. destruct c; reflexivity. Qed.

Lemma closes_app (a b : list event) : closes (a ++ b) = (closes a + closes b)%nat.
Proof. unfold closes. rewrite filter_app, length_app. reflexivity. Qed.

Lemma closes_send (seg : list byte) (e : Z) (c : bool) (msg : string) :
  closes (EvSend seg e :: (if c then [] else [EvPerror msg])) = 0%nat.
Proof. destruct c; reflexivity. Qed.

Lemma perrors_send (seg : list byte) (e : Z) (msg : string) :
  perrors (EvSend seg e :: (if e =? 0 then [] else [EvPerror msg]))
  = if e =? 0 then [] else [msg].
Proof. destruct (e =? 0); reflexivity. Qed.

(** Projections of the worlds the idioms reach, and of traces. *)
Ltac wsimpl :=
  cbn [recv_q errno n_send n_sockopt n_misc n_clock trace
       timeout_w send_checked_w received_w clock_w emit_w sockopt_w misc_w
       sent_w] in *.

Ltac tsimpl :=
  wsimpl;
  repeat rewrite ?sends_app, ?applied_timeouts_app, ?perrors_app, ?closes_app,
                 ?sends_send, ?applied_timeouts_send, ?perrors_send, ?closes_send;
  cbn [sends applied_timeouts perrors flat_map app];
  change (closes []) with 0%nat;
  repeat match goal with
         | |- context [closes [?e]] =>
             change (closes [e]) with 0%nat
         | |- context [closes [?e1; ?e2]] =>
             change (closes [e1; e2]) with 0%nat
         end;
  repeat rewrite ?app_nil_r, ?Nat.add_0_r.

(** ** System calls and idioms as equations *)

Section Steps.

Variable os : Oracle.

Hypothesis Hok : setsockopt_ok os.

Lemma bind_Ret {A B} (m : M A) (k : A -> M B) s w a s' w' :
  m s w = Ret a s' w' -> bind m k s w = k a s' w'.
Proof. intros H. unfold bind. rewrite H. reflexivity. Qed.

Lemma bind_Stop {A B} (m : M A) (k : A -> M B) s w why s' w' :
  m s w = Stop why s' w' -> bind m k s w = Stop why s' w'.
Proof. intros H. unfold bind. rewrite H. reflexivity. Qed.

Lemma set_timeout_length_ok (ms : Z) s w :
  setsockopt_errno os (n_sockopt w) = 0 ->
  set_timeout_length os ms s w = Ret tt s (timeout_w (to_uint32 ms) w).
Proof.
  intros H. unfold set_timeout_length, bind, emit, sys_setsockopt, timeout_w.
  cbn [n_sockopt emit_w]. rewrite H. cbn.
  unfold emit_w, sockopt_w, errno_after. cbn. rewrite <- app_assoc. reflexivity.
Qed.

Lemma set_timeout_length_fail (ms : Z) s w :
  setsockopt_errno os (n_sockopt w) <> 0 ->
  set_timeout_length os ms s w
  = Stop Exited s
      (emit_w (EvPerror "setsockopt")
         (sockopt_w (setsockopt_errno os (n_sockopt w))
            (emit_w (EvLogTimeout (to_uint32 ms)) w))).
Proof.
  intros H. unfold set_timeout_length, bind, emit, sys_setsockopt.
  cbn [n_sockopt emit_w]. apply Z.eqb_neq in H. rewrite H. reflexivity.
Qed.

Lemma send_or_perror_eq (seg : list byte) (msg : string) s w :
  send_or_perror os seg msg s w
  = Ret tt s (send_checked_w seg msg (send_errno os (n_send w)) w).
Proof.
  unfold send_or_perror, bind, sys_send, send_checked_w.
  destruct (send_errno os (n_send w) =? 0) eqn:E.
  - destruct (Z.ltb_spec (Z.of_nat (List.length seg)) 0); [lia|].
    reflexivity.
  - unfold perror, emit, emit_w, sent_w. cbn. rewrite <- app_assoc. reflexivity.
Qed.

(** Running a computation: the idioms by their equations, the rest by
    unfolding. *)
Ltac mrun :=
  repeat first
    [ rewrite send_or_perror_eq
    | rewrite set_timeout_length_ok by apply Hok
    | progress unfold bind, this, modify, ret, emit, cerr, perror, get_errno,
                      current_msec, stop_with, exit_failure, sys_recv
    | progress wsimpl
    | progress cbv beta iota ].

(** *** reliable_send: one iteration of its loop *)

Lemma reliable_send_loop_timeout fuel seg pt dt s w q :
  recv_q w = Timeout :: q ->
  exists w',
    reliable_send_loop os (S fuel) seg pt dt s w
    = reliable_send_loop os fuel seg true (next_timeout (rto s) pt dt) s w'
    /\ advances w w' [Timeout] [seg] [next_timeout (rto s) pt dt]
         (send_perrors os "reliable_send send" (n_send w) 1) 1.
Proof.
  intros Hq. unfold Timeout in *.
  eexists. split.
  - cbn [reliable_send_loop]. mrun. rewrite Hq. mrun.
    cbn [Z.ltb Z.compare]. mrun. change (EAGAIN =? EAGAIN) with true. mrun.
    fold (rto s). fold (next_timeout (rto s) pt dt).
    rewrite next_timeout_uint32. reflexivity.
  - unfold advances, send_perrors. tsimpl. rewrite Hq.
    cbn [seq flat_map List.length]. rewrite app_nil_r.
    repeat split; lia.
Qed.

Lemma reliable_send_loop_reply fuel seg pt dt s w d q :
  recv_q w = Datagram d :: q ->
  exists w',
    reliable_send_loop os (S fuel) seg pt dt s w
    = Ret (received d)
          (set_current_rtt (msec os (S (n_clock w)) - msec os (n_clock w)) s) w'
    /\ advances w w' [Datagram d] [seg] []
         (send_perrors os "reliable_send send" (n_send w) 1) 2.
Proof.
  intros Hq.
  eexists. split.
  - cbn [reliable_send_loop]. mrun. rewrite Hq. mrun.
    destruct (Z.ltb_spec
                (Z.of_nat (List.length (firstn (Z.to_nat MAX_SEG_SIZE) d))) 0);
      [lia|].
    mrun. reflexivity.
  - unfold advances, send_perrors. tsimpl. rewrite Hq.
    cbn [seq flat_map List.length]. rewrite app_nil_r.
    repeat split; lia.
Qed.

Lemma reliable_send_loop_error fuel seg pt dt s w e q :
  recv_q w = RecvError e :: q -> e <> EAGAIN ->
  exists w',
    reliable_send_loop os (S fuel) seg pt dt s w = Stop Exited s w'
    /\ advances w w' [RecvError e] [seg] []
         (send_perrors os "reliable_send send" (n_send w) 1
            ++ ["ACK not received"%string]) 1.
Proof.
  intros Hq He. apply Z.eqb_neq in He.
  eexists. split.
  - cbn [reliable_send_loop]. mrun. rewrite Hq. mrun.
    cbn [Z.ltb Z.compare]. mrun. rewrite He. mrun. reflexivity.
  - unfold advances, send_perrors. tsimpl. rewrite Hq.
    cbn [seq flat_map List.length]. rewrite !app_nil_r, <- app_assoc.
    repeat split; lia.
Qed.

Lemma reliable_send_loop_pending fuel seg pt dt s w :
  recv_q w = [] ->
  exists w',
    reliable_send_loop os (S fuel) seg pt dt s w = Stop Pending s w'
    /\ advances w w' [] [seg] []
         (send_perrors os "reliable_send send" (n_send w) 1) 1.
Proof.
  intros Hq.
  eexists. split.
  - cbn [reliable_send_loop]. mrun. rewrite Hq. reflexivity.
  - unfold advances, send_perrors. tsimpl. rewrite Hq.
    cbn [seq flat_map List.length]. rewrite app_nil_r.
    repeat split; lia.
Qed.

Lemma advances_cast w w' c g t e k c' g' t' e' k' :
  advances w w' c g t e k ->
  c = c' -> g = g' -> t = t' -> e = e' -> k = k' ->
  advances w w' c' g' t' e' k'.
Proof. intros H -> -> -> -> ->. exact H. Qed.

(** *** reliable_send: [n] receive timeouts in a row *)

Lemma reliable_send_loop_timeouts n :
  forall fuel seg pt dt s w rest,
  recv_q w = repeat Timeout n ++ rest ->
  exists w',
    reliable_send_loop os (n + fuel) seg pt dt s w
    = reliable_send_loop os fuel seg
        (fst (after_timeouts (rto s) n pt dt))
        (snd (after_timeouts (rto s) n pt dt)) s w'
    /\ advances w w' (repeat Timeout n) (repeat seg n)
         (doubled_from (next_timeout (rto s) pt dt) n)
         (send_perrors os "reliable_send send" (n_send w) n) n.
Proof.
  induction n as [|n IH]; intros fuel seg pt dt s w rest Hq.
  - exists w. split; [reflexivity | apply advances_refl].
  - cbn [repeat app] in Hq.
    destruct (reliable_send_loop_timeout (n + fuel) seg pt dt s w _ Hq)
      as (w1 & E1 & A1).
    assert (Hq1 : recv_q w1 = repeat Timeout n ++ rest).
    { destruct A1 as (R & _). rewrite Hq in R. cbn in R. congruence. }
    destruct (IH fuel seg true (next_timeout (rto s) pt dt) s w1 rest Hq1)
      as (w' & E2 & A2).
    exists w'. split.
    + cbn [Nat.add]. rewrite E1, E2. reflexivity.
    + eapply advances_cast; [exact (advances_trans _ _ _ _ _ _ _ _ _ _ _ _ _ A1 A2) | ..];
        try reflexivity.
      * cbn [doubled_from app].
        change (next_timeout (rto s) true (next_timeout (rto s) pt dt))
          with (to_uint32 (next_timeout (rto s) pt dt * 2)).
        rewrite (Z.mul_comm (next_timeout (rto s) pt dt) 2). reflexivity.
      * destruct A1 as (_ & _ & _ & _ & _ & N & _). rewrite N.
        apply send_perrors_S.
Qed.
Lemma advances_timeout_w ms w : advances w (timeout_w ms w) [] [] [ms] [] 0.
Proof.
  unfold advances. tsimpl. rewrite ?Nat.add_0_r. repeat split.
Qed.

Lemma set_estimated_rtt_eq s w :
  set_estimated_rtt os s w
  = Ret tt (update_rtt s) (timeout_w (to_uint32 (rto (update_rtt s))) w).
Proof. unfold set_estimated_rtt. mrun. reflexivity. Qed.

(** *** reliable_send as a whole *)

Lemma reliable_send_reply n seg s w d rest :
  recv_q w = repeat Timeout n ++ Datagram d :: rest ->
  exists w',
    reliable_send os seg s w
    = Ret (received d)
          (update_rtt (set_current_rtt (sample_after os w n) s)) w'
    /\ advances w w' (repeat Timeout n ++ [Datagram d]) (repeat seg (S n))
         (doubled_from (to_uint32 (rto s)) (S n)
            ++ [to_uint32 (rto (update_rtt (set_current_rtt (sample_after os w n) s)))])
         (send_perrors os "reliable_send send" (n_send w) (S n)) (n + 2)
    /\ recv_q w' = rest.
Proof.
  intros Hq.
  pose (w0 := timeout_w (to_uint32 (rto s)) w).
  destruct (reliable_send_loop_timeouts n (S (S (List.length rest))) seg false 0 s w0
              (Datagram d :: rest) Hq) as (w1 & E1 & A1).
  assert (Hq1 : recv_q w1 = Datagram d :: rest).
  { destruct A1 as (R & _). change (recv_q w0) with (recv_q w) in R.
    rewrite Hq in R. apply app_inv_head in R. symmetry. exact R. }
  destruct (reliable_send_loop_reply (S (List.length rest)) seg
              (fst (after_timeouts (rto s) n false 0))
              (snd (after_timeouts (rto s) n false 0)) s w1 d rest Hq1)
    as (w2 & E2 & A2).
  eexists. split; [|split].
  - unfold reliable_send. mrun. unfold with_fuel. wsimpl.
    rewrite Hq, length_app, repeat_length. cbn [List.length].
    replace (S (n + S (List.length rest))) with (n + S (S (List.length rest)))%nat by lia.
    fold w0. rewrite E1, E2. rewrite set_estimated_rtt_eq. mrun.
    destruct A1 as (_ & _ & _ & _ & C & _). rewrite C.
    reflexivity.
  - eapply advances_cast;
      [exact (advances_trans _ _ _ _ _ _ _ _ _ _ _ _ _
               (advances_trans _ _ _ _ _ _ _ _ _ _ _ _ _
                 (advances_trans _ _ _ _ _ _ _ _ _ _ _ _ _
                    (advances_timeout_w (to_uint32 (rto s)) w) A1) A2)
               (advances_timeout_w _ w2)) | ..].
    + rewrite app_nil_r. reflexivity.
    + cbn [app]. rewrite app_nil_r. symmetry. apply repeat_cons.
    + cbn [app doubled_from]. rewrite app_nil_r.
      unfold next_timeout. rewrite to_uint32_double. reflexivity.
    + cbn [app]. rewrite !app_nil_r.
      destruct A1 as (_ & _ & _ & _ & _ & N & _). rewrite N, repeat_length.
      apply send_perrors_snoc.
    + lia.
  - wsimpl. destruct A2 as (R & _). rewrite Hq1 in R. cbn in R. congruence.
Qed.
Lemma reliable_send_pending n seg s w :
  recv_q w = repeat Timeout n ->
  exists w',
    reliable_send os seg s w = Stop Pending s w'
    /\ advances w w' (repeat Timeout n) (repeat seg (S n))
         (doubled_from (to_uint32 (rto s)) (S n))
         (send_perrors os "reliable_send send" (n_send w) (S n)) (S n)
    /\ recv_q w' = [].
Proof.
  intros Hq.
  pose (w0 := timeout_w (to_uint32 (rto s)) w).
  assert (Hq0 : recv_q w0 = repeat Timeout n ++ []) by (rewrite app_nil_r; exact Hq).
  destruct (reliable_send_loop_timeouts n 1 seg false 0 s w0 [] Hq0)
    as (w1 & E1 & A1).
  assert (Hq1 : recv_q w1 = []).
  { destruct A1 as (R & _). rewrite Hq0 in R. apply app_inv_head in R.
    symmetry. exact R. }
  destruct (reliable_send_loop_pending 0 seg
              (fst (after_timeouts (rto s) n false 0))
              (snd (after_timeouts (rto s) n false 0)) s w1 Hq1)
    as (w2 & E2 & A2).
  exists w2. split; [|split].
  - unfold reliable_send. mrun. unfold with_fuel. wsimpl.
    rewrite Hq, repeat_length.
    replace (S n) with (n + 1)%nat by lia.
    fold w0. rewrite E1, E2. reflexivity.
  - eapply advances_cast;
      [exact (advances_trans _ _ _ _ _ _ _ _ _ _ _ _ _
                 (advances_trans _ _ _ _ _ _ _ _ _ _ _ _ _
                    (advances_timeout_w (to_uint32 (rto s)) w) A1) A2) | ..].
    + rewrite app_nil_r. reflexivity.
    + cbn [app]. symmetry. apply repeat_cons.
    + cbn [app doubled_from]. rewrite app_nil_r.
      unfold next_timeout. rewrite to_uint32_double. reflexivity.
    + cbn [app].
      destruct A1 as (_ & _ & _ & _ & _ & N & _). rewrite N, repeat_length.
      apply send_perrors_snoc.
    + lia.
  - destruct A2 as (R & _). rewrite Hq1 in R. cbn in R. congruence.
Qed.

Lemma reliable_send_error n seg s w e rest :
  recv_q w = repeat Timeout n ++ RecvError e :: rest -> e <> EAGAIN ->
  exists w',
    reliable_send os seg s w = Stop Exited s w'
    /\ advances w w' (repeat Timeout n ++ [RecvError e]) (repeat seg (S n))
         (doubled_from (to_uint32 (rto s)) (S n))
         (send_perrors os "reliable_send send" (n_send w) (S n)
            ++ ["ACK not received"%string]) (S n)
    /\ recv_q w' = rest.
Proof.
  intros Hq He.
  pose (w0 := timeout_w (to_uint32 (rto s)) w).
  destruct (reliable_send_loop_timeouts n (S (S (List.length rest))) seg false 0 s w0
              (RecvError e :: rest) Hq) as (w1 & E1 & A1).
  assert (Hq1 : recv_q w1 = RecvError e :: rest).
  { destruct A1 as (R & _). change (recv_q w0) with (recv_q w) in R.
    rewrite Hq in R. apply app_inv_head in R. symmetry. exact R. }
  destruct (reliable_send_loop_error (S (List.length rest)) seg
              (fst (after_timeouts (rto s) n false 0))
              (snd (after_timeouts (rto s) n false 0)) s w1 e rest Hq1 He)
    as (w2 & E2 & A2).
  exists w2. split; [|split].
  - unfold reliable_send. mrun. unfold with_fuel. wsimpl.
    rewrite Hq, length_app, repeat_length. cbn [List.length].
    replace (S (n + S (List.length rest))) with (n + S (S (List.length rest)))%nat by lia.
    fold w0. rewrite E1, E2. reflexivity.
  - eapply advances_cast;
      [exact (advances_trans _ _ _ _ _ _ _ _ _ _ _ _ _
                 (advances_trans _ _ _ _ _ _ _ _ _ _ _ _ _
                    (advances_timeout_w (to_uint32 (rto s)) w) A1) A2) | ..].
    + reflexivity.
    + cbn [app]. symmetry. apply repeat_cons.
    + cbn [app doubled_from]. rewrite app_nil_r.
      unfold next_timeout. rewrite to_uint32_double. reflexivity.
    + cbn [app].
      destruct A1 as (_ & _ & _ & _ & _ & N & _). rewrite N, repeat_length.
      rewrite app_assoc, send_perrors_snoc. reflexivity.
    + lia.
  - destruct A2 as (R & _). rewrite Hq1 in R. cbn in R. congruence.
Qed.
(** *** timeout_send *)

Lemma rto_alt s : estimated_rtt s + dev_rtt s * 4 = rto s.
Proof. unfold rto. lia. Qed.

Lemma timeout_send_loop_datagram fuel seg s w d q :
  recv_q w = Datagram d :: q ->
  exists w',
    timeout_send_loop os (S fuel) seg s w = timeout_send_loop os fuel seg s w'
    /\ advances w w' [Datagram d] [seg] [to_uint32 (rto s)]
         (send_perrors os "timeout_send send" (n_send w) 1) 0.
Proof.
  intros Hq.
  eexists. split.
  - cbn [timeout_send_loop]. mrun. rewrite Hq. mrun. cbn [fst].
    destruct (Z.ltb_spec
                (Z.of_nat (List.length (firstn (Z.to_nat MAX_SEG_SIZE) d))) 0);
      [lia|].
    rewrite rto_alt. reflexivity.
  - unfold advances, send_perrors. tsimpl. rewrite Hq.
    cbn [seq flat_map List.length]. rewrite app_nil_r.
    repeat split; lia.
Qed.

Lemma timeout_send_loop_timeout fuel seg s w q :
  recv_q w = Timeout :: q ->
  exists w',
    timeout_send_loop os (S fuel) seg s w = Ret tt s w'
    /\ advances w w' [Timeout] [seg] [to_uint32 (rto s)]
         (send_perrors os "timeout_send send" (n_send w) 1) 0.
Proof.
  intros Hq. unfold Timeout in *.
  eexists. split.
  - cbn [timeout_send_loop]. mrun. rewrite Hq. mrun. cbn [fst Z.ltb Z.compare].
    mrun. change (EAGAIN =? EAGAIN) with true. mrun.
    rewrite rto_alt. reflexivity.
  - unfold advances, send_perrors. tsimpl. rewrite Hq.
    cbn [seq flat_map List.length]. rewrite app_nil_r.
    repeat split; lia.
Qed.

Lemma timeout_send_loop_error fuel seg s w e q :
  recv_q w = RecvError e :: q -> e <> EAGAIN ->
  exists w',
    timeout_send_loop os (S fuel) seg s w = Stop Exited s w'
    /\ advances w w' [RecvError e] [seg] [to_uint32 (rto s)]
         (send_perrors os "timeout_send send" (n_send w) 1
            ++ ["timeout_send recv"%string]) 0.
Proof.
  intros Hq He. apply Z.eqb_neq in He.
  eexists. split.
  - cbn [timeout_send_loop]. mrun. rewrite Hq. mrun. cbn [fst Z.ltb Z.compare].
    mrun. rewrite He. mrun. rewrite rto_alt. reflexivity.
  - unfold advances, send_perrors. tsimpl. rewrite Hq.
    cbn [seq flat_map List.length]. rewrite !app_nil_r, <- app_assoc.
    repeat split; lia.
Qed.

Lemma timeout_send_loop_pending fuel seg s w :
  recv_q w = [] ->
  exists w',
    timeout_send_loop os (S fuel) seg s w = Stop Pending s w'
    /\ advances w w' [] [seg] [to_uint32 (rto s)]
         (send_perrors os "timeout_send send" (n_send w) 1) 0.
Proof.
  intros Hq.
  eexists. split.
  - cbn [timeout_send_loop]. mrun. rewrite Hq. rewrite rto_alt. reflexivity.
  - unfold advances, send_perrors. tsimpl. rewrite Hq.
    cbn [seq flat_map List.length]. rewrite app_nil_r.
    repeat split; lia.
Qed.

Lemma timeout_send_loop_datagrams ds :
  forall fuel seg s w rest,
  recv_q w = map Datagram ds ++ rest ->
  exists w',
    timeout_send_loop os (List.length ds + fuel) seg s w
    = timeout_send_loop os fuel seg s w'
    /\ advances w w' (map Datagram ds) (repeat seg (List.length ds))
         (repeat (to_uint32 (rto s)) (List.length ds))
         (send_perrors os "timeout_send send" (n_send w) (List.length ds)) 0.
Proof.
  induction ds as [|d ds IH]; intros fuel seg s w rest Hq.
  - exists w. split; [reflexivity | apply advances_refl].
  - cbn [map app] in Hq.
    destruct (timeout_send_loop_datagram (List.length ds + fuel) seg s w d _ Hq)
      as (w1 & E1 & A1).
    assert (Hq1 : recv_q w1 = map Datagram ds ++ rest).
    { destruct A1 as (R & _). rewrite Hq in R. cbn in R. congruence. }
    destruct (IH fuel seg s w1 rest Hq1) as (w' & E2 & A2).
    exists w'. split.
    + cbn [List.length Nat.add]. rewrite E1, E2. reflexivity.
    + eapply advances_cast;
        [exact (advances_trans _ _ _ _ _ _ _ _ _ _ _ _ _ A1 A2) | ..];
        try reflexivity.
      destruct A1 as (_ & _ & _ & _ & _ & N & _). rewrite N.
      apply send_perrors_S.
Qed.

Lemma timeout_send_done ds seg s w rest :
  recv_q w = map Datagram ds ++ Timeout :: rest ->
  exists w',
    timeout_send os seg s w = Ret tt s w'
    /\ advances w w' (map Datagram ds ++ [Timeout])
         (repeat seg (S (List.length ds)))
         (repeat (to_uint32 (rto s)) (S (List.length ds)))
         (send_perrors os "timeout_send send" (n_send w) (S (List.length ds))) 0
    /\ recv_q w' = rest.
Proof.
  intros Hq.
  destruct (timeout_send_loop_datagrams ds (S (S (List.length rest))) seg s w
              (Timeout :: rest) Hq) as (w1 & E1 & A1).
  assert (Hq1 : recv_q w1 = Timeout :: rest).
  { destruct A1 as (R & _). rewrite Hq in R. apply app_inv_head in R.
    symmetry. exact R. }
  destruct (timeout_send_loop_timeout (S (List.length rest)) seg s w1 rest Hq1)
    as (w2 & E2 & A2).
  exists w2. split; [|split].
  - unfold timeout_send, with_fuel.
    rewrite Hq, length_app, length_map. cbn [List.length].
    replace (S (List.length ds + S (List.length rest)))
      with (List.length ds + S (S (List.length rest)))%nat by lia.
    rewrite E1, E2. reflexivity.
  - eapply advances_cast;
      [exact (advances_trans _ _ _ _ _ _ _ _ _ _ _ _ _ A1 A2) | ..];
      try reflexivity.
    + symmetry. apply repeat_cons.
    + symmetry. apply repeat_cons.
    + destruct A1 as (_ & _ & _ & _ & _ & N & _). rewrite N, repeat_length.
      apply send_perrors_snoc.
  - destruct A2 as (R & _). rewrite Hq1 in R. cbn in R. congruence.
Qed.

Lemma timeout_send_error ds seg s w e rest :
  recv_q w = map Datagram ds ++ RecvError e :: rest -> e <> EAGAIN ->
  exists w',
    timeout_send os seg s w = Stop Exited s w'
    /\ advances w w' (map Datagram ds ++ [RecvError e])
         (repeat seg (S (List.length ds)))
         (repeat (to_uint32 (rto s)) (S (List.length ds)))
         (send_perrors os "timeout_send send" (n_send w) (S (List.length ds))
            ++ ["timeout_send recv"%string]) 0
    /\ recv_q w' = rest.
Proof.
  intros Hq He.
  destruct (timeout_send_loop_datagrams ds (S (S (List.length rest))) seg s w
              (RecvError e :: rest) Hq) as (w1 & E1 & A1).
  assert (Hq1 : recv_q w1 = RecvError e :: rest).
  { destruct A1 as (R & _). rewrite Hq in R. apply app_inv_head in R.
    symmetry. exact R. }
  destruct (timeout_send_loop_error (S (List.length rest)) seg s w1 e rest Hq1 He)
    as (w2 & E2 & A2).
  exists w2. split; [|split].
  - unfold timeout_send, with_fuel.
    rewrite Hq, length_app, length_map. cbn [List.length].
    replace (S (List.length ds + S (List.length rest)))
      with (List.length ds + S (S (List.length rest)))%nat by lia.
    rewrite E1, E2. reflexivity.
  - eapply advances_cast;
      [exact (advances_trans _ _ _ _ _ _ _ _ _ _ _ _ _ A1 A2) | ..];
      try reflexivity.
    + symmetry. apply repeat_cons.
    + symmetry. apply repeat_cons.
    + destruct A1 as (_ & _ & _ & _ & _ & N & _). rewrite N, repeat_length.
      rewrite app_assoc, send_perrors_snoc. reflexivity.
  - destruct A2 as (R & _). rewrite Hq1 in R. cbn in R. congruence.
Qed.
(** *** send_data *)

Lemma same_connection_refl s : same_connection s s.
Proof. repeat split. Qed.

Lemma same_connection_trans s1 s2 s3 :
  same_connection s1 s2 -> same_connection s2 s3 -> same_connection s1 s3.
Proof.
  intros (A1 & A2 & A3 & A4) (B1 & B2 & B3 & B4).
  unfold same_connection. rewrite B1, B2, B3, B4. repeat split; assumption.
Qed.

Lemma same_connection_sample s c :
  same_connection s (update_rtt (set_current_rtt c s)).
Proof. repeat split. Qed.

Lemma send_data_loop_exchange fuel seg s w n d rest :
  recv_q w = repeat Timeout n ++ Datagram d :: rest ->
  exists s' w',
    send_data_loop os (S fuel) seg s w
    = (if acks (sequence_number s) (received d) then Ret tt s' w'
       else send_data_loop os fuel seg s' w')
    /\ same_connection s s'
    /\ recv_q w' = rest
    /\ sends (trace w') = sends (trace w) ++ repeat seg (S n).
Proof.
  intros Hq.
  destruct (reliable_send_reply n seg s w d rest Hq) as (w' & E & A & R).
  exists (update_rtt (set_current_rtt (sample_after os w n) s)), w'.
  split; [|split; [|split]].
  - cbn [send_data_loop]. unfold bind at 1. rewrite E. mrun.
    unfold acks. cbn [sequence_number update_rtt set_rtt set_current_rtt].
    destruct (is_type (received d) RDT_ACK); cbn [andb]; [|reflexivity].
    destruct (sequence_number s =? ntohl (hdr_ack_number (received d)));
      reflexivity.
  - apply same_connection_sample.
  - exact R.
  - destruct A as (_ & S & _). exact S.
Qed.

Lemma send_data_loop_pending fuel seg s w n :
  recv_q w = repeat Timeout n ->
  exists w',
    send_data_loop os (S fuel) seg s w = Stop Pending s w'
    /\ recv_q w' = []
    /\ sends (trace w') = sends (trace w) ++ repeat seg (S n).
Proof.
  intros Hq.
  destruct (reliable_send_pending n seg s w Hq) as (w' & E & A & R).
  exists w'. split; [|split].
  - cbn [send_data_loop]. unfold bind at 1. rewrite E. reflexivity.
  - exact R.
  - destruct A as (_ & S & _). exact S.
Qed.

Lemma exchanges_cons r rs rest :
  exchanges (r :: rs) ++ rest
  = repeat Timeout (fst r) ++ Datagram (snd r) :: exchanges rs ++ rest.
Proof.
  unfold exchanges, exchange. cbn [flat_map].
  rewrite <- !app_assoc. reflexivity.
Qed.

Lemma repeat_app_plus {A} (x : A) (n m : nat) :
  repeat x n ++ repeat x m = repeat x (n + m).
Proof. symmetry. apply repeat_app. Qed.

(** Exchanges whose replies all fail the test of [send_data]. *)
Lemma send_data_loop_exchanges rs :
  forall fuel seg s w rest,
  Forall (fun r => acks (sequence_number s) (received (snd r)) = false) rs ->
  recv_q w = exchanges rs ++ rest ->
  exists s' w',
    send_data_loop os (List.length rs + fuel) seg s w
    = send_data_loop os fuel seg s' w'
    /\ same_connection s s'
    /\ recv_q w' = rest
    /\ sends (trace w') = sends (trace w) ++ repeat seg (transmissions rs).
Proof.
  induction rs as [|r rs IH]; intros fuel seg s w rest Hall Hq.
  - exists s, w. cbn [transmissions fold_right repeat]. rewrite app_nil_r.
    repeat split. exact Hq.
  - rewrite exchanges_cons in Hq.
    inversion Hall as [|r' rs' Hr Hrs]; subst.
    destruct (send_data_loop_exchange (List.length rs + fuel) seg s w _ _ _ Hq)
      as (s1 & w1 & E1 & C1 & R1 & S1).
    rewrite Hr in E1.
    assert (Hall1 : Forall (fun r => acks (sequence_number s1) (received (snd r)) = false) rs).
    { destruct C1 as (_ & Q & _). rewrite Q. exact Hrs. }
    destruct (IH fuel seg s1 w1 rest Hall1 R1) as (s' & w' & E2 & C2 & R2 & S2).
    exists s', w'. split; [|split; [|split]].
    + cbn [List.length Nat.add]. rewrite E1, E2. reflexivity.
    + eapply same_connection_trans; eassumption.
    + exact R2.
    + rewrite S2, S1, <- app_assoc, repeat_app_plus. reflexivity.
Qed.
Lemma exchanges_length rs : (List.length rs <= List.length (exchanges rs))%nat.
Proof.
  induction rs as [|r rs IH]; [apply Nat.le_refl|].
  unfold exchanges, exchange in *. cbn [flat_map List.length].
  rewrite !length_app. cbn [List.length]. lia.
Qed.

Lemma memcpy_fits (room count : Z) s w :
  0 <= count <= room -> memcpy room count s w = Ret tt s w.
Proof.
  intros H. unfold memcpy.
  destruct (Z.ltb_spec count 0); [lia|].
  destruct (Z.ltb_spec room count); [lia|]. reflexivity.
Qed.

Lemma memcpy_negative (room count : Z) s w :
  count < 0 -> memcpy room count s w = Stop Fault s w.
Proof.
  intros H. unfold memcpy.
  destruct (Z.ltb_spec count 0); [reflexivity | lia].
Qed.

Lemma send_data_start data s w :
  state s = ESTABLISHED ->
  Z.of_nat (List.length data) <= MAX_DATA_SIZE ->
  send_data os data s w
  = bind (with_fuel (fun fuel =>
            send_data_loop os fuel (data_segment (sequence_number s) data)))
         (fun _ => modify (fun s => set_sequence_number
                                      (to_uint32 (sequence_number s + 1)) s))
         s w.
Proof.
  intros Hs Hlen. unfold send_data. unfold bind at 1. unfold this.
  rewrite Hs. cbn [status_eqb negb].
  unfold bind at 1. rewrite memcpy_fits; [reflexivity|].
  unfold MAX_DATA_SIZE in Hlen. lia.
Qed.

Lemma send_data_acked data s w rs n d rest :
  state s = ESTABLISHED ->
  Z.of_nat (List.length data) <= MAX_DATA_SIZE ->
  Forall (fun r => acks (sequence_number s) (received (snd r)) = false) rs ->
  acks (sequence_number s) (received d) = true ->
  recv_q w = exchanges rs ++ repeat Timeout n ++ Datagram d :: rest ->
  exists s' w',
    send_data os data s w = Ret tt s' w'
    /\ sequence_number s' = to_uint32 (sequence_number s + 1)
    /\ state s' = ESTABLISHED
    /\ recv_q w' = rest
    /\ sends (trace w')
       = sends (trace w)
           ++ repeat (data_segment (sequence_number s) data)
                     (transmissions rs + S n).
Proof.
  intros Hs Hlen Hall Hack Hq.
  set (seg := data_segment (sequence_number s) data).
  pose proof (exchanges_length rs) as Hl.
  destruct (send_data_loop_exchanges rs
              (S (List.length (recv_q w) - List.length rs)) seg s w _ Hall Hq)
    as (s1 & w1 & E1 & C1 & R1 & S1).
  destruct (send_data_loop_exchange
              (List.length (recv_q w) - List.length rs) seg s1 w1 n d rest R1)
    as (s2 & w2 & E2 & C2 & R2 & S2).
  destruct C1 as (F1 & Q1 & X1 & T1). destruct C2 as (F2 & Q2 & X2 & T2).
  rewrite Q1, Hack in E2.
  exists (set_sequence_number (to_uint32 (sequence_number s2 + 1)) s2), w2.
  split; [|split; [|split; [|split]]].
  - rewrite send_data_start by assumption. fold seg.
    unfold bind at 1. unfold with_fuel.
    replace (S (List.length (recv_q w)))
      with (List.length rs + S (List.length (recv_q w) - List.length rs))%nat.
    + rewrite E1, E2. reflexivity.
    + rewrite Hq, length_app. lia.
  - cbn [sequence_number set_sequence_number]. rewrite Q2, Q1. reflexivity.
  - cbn [state set_sequence_number]. rewrite T2, T1. exact Hs.
  - exact R2.
  - rewrite S2, S1, <- app_assoc, repeat_app_plus. reflexivity.
Qed.

Lemma send_data_unacked data s w rs n :
  state s = ESTABLISHED ->
  Z.of_nat (List.length data) <= MAX_DATA_SIZE ->
  Forall (fun r => acks (sequence_number s) (received (snd r)) = false) rs ->
  recv_q w = exchanges rs ++ repeat Timeout n ->
  exists s' w',
    send_data os data s w = Stop Pending s' w'
    /\ sequence_number s' = sequence_number s
    /\ state s' = ESTABLISHED
    /\ sends (trace w')
       = sends (trace w)
           ++ repeat (data_segment (sequence_number s) data)
                     (transmissions rs + S n).
Proof.
  intros Hs Hlen Hall Hq.
  set (seg := data_segment (sequence_number s) data).
  pose proof (exchanges_length rs) as Hl.
  destruct (send_data_loop_exchanges rs
              (S (List.length (recv_q w) - List.length rs)) seg s w _ Hall Hq)
    as (s1 & w1 & E1 & C1 & R1 & S1).
  destruct (send_data_loop_pending
              (List.length (recv_q w) - List.length rs) seg s1 w1 n R1)
    as (w2 & E2 & R2 & S2).
  destruct C1 as (F1 & Q1 & X1 & T1).
  exists s1, w2.
  split; [|split; [|split]].
  - rewrite send_data_start by assumption. fold seg.
    unfold bind at 1. unfold with_fuel.
    replace (S (List.length (recv_q w)))
      with (List.length rs + S (List.length (recv_q w) - List.length rs))%nat.
    + rewrite E1, E2. reflexivity.
    + rewrite Hq, length_app. lia.
  - exact Q1.
  - rewrite T1. exact Hs.
  - rewrite S2, S1, <- app_assoc, repeat_app_plus. reflexivity.
Qed.
(** *** receive_data *)

Lemma received_length_le d : Z.of_nat (List.length (received d)) <= MAX_SEG_SIZE.
Proof.
  unfold received. rewrite length_firstn. unfold MAX_SEG_SIZE. lia.
Qed.

Lemma received_length_nonneg d : (Z.of_nat (List.length (received d)) <? 0) = false.
Proof. apply Z.ltb_ge. lia. Qed.

Lemma is_type_exclusive buf t u :
  is_type buf t = true -> t <> u -> is_type buf u = false.
Proof.
  unfold is_type. intros H Hne.
  apply Byte.byte_dec_bl in H. rewrite H.
  destruct (Byte.eqb (type_code t) (type_code u)) eqn:E; [|reflexivity].
  apply Byte.byte_dec_bl, type_code_inj in E. contradiction.
Qed.

Lemma payload_firstn buf :
  firstn (Z.to_nat (Z.of_nat (List.length buf) - sizeof_RDTHeader))
         (skipn (Z.to_nat sizeof_RDTHeader) buf)
  = payload_of buf.
Proof.
  unfold payload_of. apply firstn_all2. rewrite length_skipn. lia.
Qed.

(** A segment that is neither an ACK nor a CLOSE. *)
Lemma receive_data_loop_segment fuel s w d q :
  recv_q w = Datagram d :: q ->
  is_type (received d) RDT_ACK = false ->
  is_type (received d) RDT_CLOSE = false ->
  exists w',
    receive_data_loop os (S fuel) s w
    = (if seq_of (received d) =? sequence_number s then
         let s' := set_sequence_number (to_uint32 (sequence_number s + 1)) s in
         if Z.of_nat (List.length (received d)) - sizeof_RDTHeader <? 0
         then Stop Fault s' w'
         else Ret (Z.of_nat (List.length (received d)) - sizeof_RDTHeader,
                   payload_of (received d)) s' w'
       else receive_data_loop os fuel s w')
    /\ advances w w' [Datagram d] [ack_of (received d)] []
         (send_perrors os "receive_data send" (n_send w) 1) 0.
Proof.
  intros Hq Hack Hclose.
  eexists. split.
  - cbn [receive_data_loop]. mrun. rewrite Hq. mrun.
    fold (received d). rewrite received_length_nonneg. mrun.
    rewrite Hack, Hclose. mrun.
    fold (seq_of (received d)). fold (ack_of (received d)).
    destruct (seq_of (received d) =? sequence_number s); [|reflexivity].
    cbv zeta.
    destruct (Z.ltb_spec (Z.of_nat (List.length (received d)) - sizeof_RDTHeader) 0)
      as [H|H].
    + rewrite memcpy_negative by exact H. reflexivity.
    + rewrite memcpy_fits, payload_firstn; [reflexivity|].
      split; [exact H|]. pose proof (received_length_le d).
      unfold MAX_DATA_SIZE. lia.
  - unfold advances, send_perrors. tsimpl. rewrite Hq.
    cbn [seq flat_map List.length]. rewrite app_nil_r.
    repeat split; lia.
Qed.

Lemma receive_data_loop_pending fuel s w :
  recv_q w = [] ->
  receive_data_loop os (S fuel) s w = Stop Pending s w.
Proof. intros Hq. cbn [receive_data_loop]. mrun. rewrite Hq. reflexivity. Qed.

(** DATA segments that do not carry the expected sequence number. *)
Lemma receive_data_loop_unexpected ds :
  forall fuel s w rest,
  Forall (fun d => is_type (received d) RDT_DATA = true
                   /\ seq_of (received d) <> sequence_number s) ds ->
  recv_q w = map Datagram ds ++ rest ->
  exists w',
    receive_data_loop os (List.length ds + fuel) s w
    = receive_data_loop os fuel s w'
    /\ advances w w' (map Datagram ds)
         (map (fun d => ack_of (received d)) ds) []
         (send_perrors os "receive_data send" (n_send w) (List.length ds)) 0.
Proof.
  induction ds as [|d ds IH]; intros fuel s w rest Hall Hq.
  - exists w. split; [reflexivity | apply advances_refl].
  - cbn [map app] in Hq.
    inversion Hall as [|d' ds' [Hty Hseq] Hds]; subst.
    destruct (receive_data_loop_segment (List.length ds + fuel) s w d _ Hq)
      as (w1 & E1 & A1).
    { apply (is_type_exclusive _ _ _ Hty). discriminate. }
    { apply (is_type_exclusive _ _ _ Hty). discriminate. }
    apply Z.eqb_neq in Hseq. rewrite Hseq in E1.
    assert (Hq1 : recv_q w1 = map Datagram ds ++ rest).
    { destruct A1 as (R & _). rewrite Hq in R. cbn in R. congruence. }
    destruct (IH fuel s w1 rest Hds Hq1) as (w' & E2 & A2).
    exists w'. split.
    + cbn [List.length Nat.add]. rewrite E1, E2. reflexivity.
    + eapply advances_cast;
        [exact (advances_trans _ _ _ _ _ _ _ _ _ _ _ _ _ A1 A2) | ..];
        try reflexivity.
      destruct A1 as (_ & _ & _ & _ & _ & N & _). rewrite N.
      apply send_perrors_S.
Qed.

Lemma receive_data_start s w :
  state s = ESTABLISHED ->
  receive_data os s w = with_fuel (receive_data_loop os) s (timeout_w 0 w).
Proof.
  intros Hs. unfold receive_data. mrun. rewrite Hs. reflexivity.
Qed.
Lemma receive_data_delivers ds d s w rest :
  state s = ESTABLISHED ->
  Forall (fun d => is_type (received d) RDT_DATA = true
                   /\ seq_of (received d) <> sequence_number s) ds ->
  is_type (received d) RDT_DATA = true ->
  seq_of (received d) = sequence_number s ->
  sizeof_RDTHeader <= Z.of_nat (List.length (received d)) ->
  recv_q w = map Datagram ds ++ Datagram d :: rest ->
  exists w',
    receive_data os s w
    = Ret (Z.of_nat (List.length (received d)) - sizeof_RDTHeader,
           payload_of (received d))
          (set_sequence_number (to_uint32 (sequence_number s + 1)) s) w'
    /\ advances w w' (map Datagram ds ++ [Datagram d])
         (map (fun d => ack_of (received d)) (ds ++ [d])) [0]
         (send_perrors os "receive_data send" (n_send w) (S (List.length ds))) 0
    /\ recv_q w' = rest.
Proof.
  intros Hs Hall Hty Hseq Hlen Hq.
  pose (w0 := timeout_w 0 w).
  destruct (receive_data_loop_unexpected ds (S (S (List.length rest))) s w0
              (Datagram d :: rest) Hall Hq) as (w1 & E1 & A1).
  assert (Hq1 : recv_q w1 = Datagram d :: rest).
  { destruct A1 as (R & _). change (recv_q w0) with (recv_q w) in R.
    rewrite Hq in R. apply app_inv_head in R. symmetry. exact R. }
  destruct (receive_data_loop_segment (S (List.length rest)) s w1 d rest Hq1)
    as (w2 & E2 & A2).
  { apply (is_type_exclusive _ _ _ Hty). discriminate. }
  { apply (is_type_exclusive _ _ _ Hty). discriminate. }
  rewrite Hseq, Z.eqb_refl in E2. cbv zeta in E2.
  destruct (Z.ltb_spec (Z.of_nat (List.length (received d)) - sizeof_RDTHeader) 0)
    as [H|H]; [lia|].
  exists w2. split; [|split].
  - rewrite receive_data_start by exact Hs. unfold with_fuel. fold w0.
    change (recv_q w0) with (recv_q w).
    rewrite Hq, length_app, length_map. cbn [List.length].
    replace (S (List.length ds + S (List.length rest)))
      with (List.length ds + S (S (List.length rest)))%nat by lia.
    rewrite E1, E2. reflexivity.
  - eapply advances_cast;
      [exact (advances_trans _ _ _ _ _ _ _ _ _ _ _ _ _
                 (advances_trans _ _ _ _ _ _ _ _ _ _ _ _ _
                    (advances_timeout_w 0 w) A1) A2) | ..];
      try reflexivity.
    + cbn [app]. rewrite map_app. reflexivity.
    + cbn [app].
      destruct A1 as (_ & _ & _ & _ & _ & N & _). rewrite N, length_map.
      apply send_perrors_snoc.
  - destruct A2 as (R & _). rewrite Hq1 in R. cbn in R. congruence.
Qed.

(** The segment that carries the expected number, whatever its length. *)
Lemma receive_data_expected ds d s w rest :
  state s = ESTABLISHED ->
  Forall (fun d => is_type (received d) RDT_DATA = true
                   /\ seq_of (received d) <> sequence_number s) ds ->
  is_type (received d) RDT_DATA = true ->
  seq_of (received d) = sequence_number s ->
  recv_q w = map Datagram ds ++ Datagram d :: rest ->
  exists w',
    receive_data os s w
    = (let s' := set_sequence_number (to_uint32 (sequence_number s + 1)) s in
       if Z.of_nat (List.length (received d)) - sizeof_RDTHeader <? 0
       then Stop Fault s' w'
       else Ret (Z.of_nat (List.length (received d)) - sizeof_RDTHeader,
                 payload_of (received d)) s' w')
    /\ advances w w' (map Datagram ds ++ [Datagram d])
         (map (fun d => ack_of (received d)) (ds ++ [d])) [0]
         (send_perrors os "receive_data send" (n_send w) (S (List.length ds))) 0
    /\ recv_q w' = rest.
Proof.
  intros Hs Hall Hty Hseq Hq.
  pose (w0 := timeout_w 0 w).
  destruct (receive_data_loop_unexpected ds (S (S (List.length rest))) s w0
              (Datagram d :: rest) Hall Hq) as (w1 & E1 & A1).
  assert (Hq1 : recv_q w1 = Datagram d :: rest).
  { destruct A1 as (R & _). change (recv_q w0) with (recv_q w) in R.
    rewrite Hq in R. apply app_inv_head in R. symmetry. exact R. }
  destruct (receive_data_loop_segment (S (List.length rest)) s w1 d rest Hq1)
    as (w2 & E2 & A2).
  { apply (is_type_exclusive _ _ _ Hty). discriminate. }
  { apply (is_type_exclusive _ _ _ Hty). discriminate. }
  rewrite Hseq, Z.eqb_refl in E2.
  exists w2. split; [|split].
  - rewrite receive_data_start by exact Hs. unfold with_fuel. fold w0.
    change (recv_q w0) with (recv_q w).
    rewrite Hq, length_app, length_map. cbn [List.length].
    replace (S (List.length ds + S (List.length rest)))
      with (List.length ds + S (S (List.length rest)))%nat by lia.
    rewrite E1, E2. reflexivity.
  - eapply advances_cast;
      [exact (advances_trans _ _ _ _ _ _ _ _ _ _ _ _ _
                 (advances_trans _ _ _ _ _ _ _ _ _ _ _ _ _
                    (advances_timeout_w 0 w) A1) A2) | ..];
      try reflexivity.
    + cbn [app]. rewrite map_app. reflexivity.
    + cbn [app].
      destruct A1 as (_ & _ & _ & _ & _ & N & _). rewrite N, length_map.
      apply send_perrors_snoc.
  - destruct A2 as (R & _). rewrite Hq1 in R. cbn in R. congruence.
Qed.

Lemma receive_data_discards ds s w :
  state s = ESTABLISHED ->
  Forall (fun d => is_type (received d) RDT_DATA = true
                   /\ seq_of (received d) <> sequence_number s) ds ->
  recv_q w = map Datagram ds ->
  exists w',
    receive_data os s w = Stop Pending s w'
    /\ advances w w' (map Datagram ds)
         (map (fun d => ack_of (received d)) ds) [0]
         (send_perrors os "receive_data send" (n_send w) (List.length ds)) 0
    /\ recv_q w' = [].
Proof.
  intros Hs Hall Hq.
  pose (w0 := timeout_w 0 w).
  assert (Hq0 : recv_q w0 = map Datagram ds ++ []) by (rewrite app_nil_r; exact Hq).
  destruct (receive_data_loop_unexpected ds 1 s w0 [] Hall Hq0) as (w1 & E1 & A1).
  assert (Hq1 : recv_q w1 = []).
  { destruct A1 as (R & _). rewrite Hq0 in R. apply app_inv_head in R.
    symmetry. exact R. }
  exists w1. split; [|split].
  - rewrite receive_data_start by exact Hs. unfold with_fuel. fold w0.
    change (recv_q w0) with (recv_q w). rewrite Hq, length_map.
    replace (S (List.length ds)) with (List.length ds + 1)%nat by lia.
    rewrite E1. apply receive_data_loop_pending. exact Hq1.
  - eapply advances_cast;
      [exact (advances_trans _ _ _ _ _ _ _ _ _ _ _ _ _
                    (advances_timeout_w 0 w) A1) | ..];
      reflexivity.
  - exact Hq1.
Qed.

(** The ACK that [receive_data] sends carries the sequence number of the
    segment it answers, in both of its number fields. *)
Lemma ack_of_carries buf :
  is_type (ack_of buf) RDT_ACK = true
  /\ ntohl (hdr_sequence_number (ack_of buf)) = seq_of buf
  /\ ntohl (hdr_ack_number (ack_of buf)) = seq_of buf
  /\ Z.of_nat (List.length (ack_of buf)) = sizeof_RDTHeader.
Proof. repeat split. Qed.
(** *** send_close_connection: the exchange of CLOSE *)

Lemma close_handshake_done n d s w rest :
  recv_q w = repeat Timeout n ++ Datagram d :: rest ->
  is_type (received d) RDT_ACK || is_type (received d) RDT_CLOSE = true ->
  exists s' w' tos errs k,
    with_fuel (close_handshake_loop os) s w = Ret tt s' w'
    /\ same_connection s s'
    /\ advances w w' (repeat Timeout n ++ [Datagram d])
         (repeat (header_segment 0 0 RDT_CLOSE) (S n)) tos errs k
    /\ recv_q w' = rest.
Proof.
  intros Hq Hty.
  destruct (reliable_send_reply n (header_segment 0 0 RDT_CLOSE) s w d rest Hq)
    as (w' & E & A & R).
  do 5 eexists. split; [|split; [|split]].
  - unfold with_fuel. cbn [close_handshake_loop]. unfold bind at 1.
    rewrite E.
    destruct (is_type (received d) RDT_ACK); [reflexivity|].
    cbn [orb] in Hty. rewrite Hty. reflexivity.
  - apply same_connection_sample.
  - exact A.
  - exact R.
Qed.

Lemma close_handshake_pending n s w :
  recv_q w = repeat Timeout n ->
  exists w' tos errs k,
    with_fuel (close_handshake_loop os) s w = Stop Pending s w'
    /\ advances w w' (repeat Timeout n)
         (repeat (header_segment 0 0 RDT_CLOSE) (S n)) tos errs k.
Proof.
  intros Hq.
  destruct (reliable_send_pending n (header_segment 0 0 RDT_CLOSE) s w Hq)
    as (w' & E & A & R).
  do 4 eexists. split.
  - unfold with_fuel. cbn [close_handshake_loop]. unfold bind at 1.
    rewrite E. reflexivity.
  - exact A.
Qed.

(** *** send_close_connection: waiting for the CLOSE of the peer *)

Lemma advances_received_w r q w :
  recv_q w = r :: q -> advances w (received_w r q w) [r] [] [] [] 0.
Proof.
  intros Hq. unfold advances. tsimpl. rewrite Hq. repeat split; lia.
Qed.

Lemma await_close_loop_step fuel s w r q :
  recv_q w = r :: q ->
  await_close_loop (S fuel) s w
  = if is_close r then Ret tt s (received_w r q w)
    else await_close_loop fuel s (received_w r q w).
Proof.
  intros Hq. cbn [await_close_loop]. mrun. rewrite Hq.
  destruct r as [e|d]; mrun.
  - reflexivity.
  - fold (received d). rewrite received_length_nonneg. cbn [is_close].
    destruct (is_type (received d) RDT_CLOSE); reflexivity.
Qed.

Lemma await_close_loop_noise noise :
  forall fuel s w rest,
  Forall (fun r => is_close r = false) noise ->
  recv_q w = noise ++ rest ->
  exists w',
    await_close_loop (List.length noise + fuel) s w
    = await_close_loop fuel s w'
    /\ advances w w' noise [] [] [] 0.
Proof.
  induction noise as [|r noise IH]; intros fuel s w rest Hall Hq.
  - exists w. split; [reflexivity | apply advances_refl].
  - cbn [app] in Hq. inversion Hall as [|r' n' Hr Hn]; subst.
    pose proof (advances_received_w _ _ _ Hq) as A1.
    destruct (IH fuel s (received_w r (noise ++ rest) w) rest Hn eq_refl)
      as (w' & E2 & A2).
    exists w'. split.
    + cbn [List.length Nat.add].
      rewrite (await_close_loop_step _ _ _ _ _ Hq), Hr. exact E2.
    + exact (advances_trans _ _ _ _ _ _ _ _ _ _ _ _ _ A1 A2).
Qed.

Lemma await_close_done noise c s w rest :
  Forall (fun r => is_close r = false) noise ->
  is_type (received c) RDT_CLOSE = true ->
  recv_q w = noise ++ Datagram c :: rest ->
  exists w',
    with_fuel (await_close_loop) s w = Ret tt s w'
    /\ advances w w' (noise ++ [Datagram c]) [] [] [] 0
    /\ recv_q w' = rest.
Proof.
  intros Hall Hc Hq.
  destruct (await_close_loop_noise noise (S (S (List.length rest))) s w
              (Datagram c :: rest) Hall Hq) as (w1 & E1 & A1).
  assert (Hq1 : recv_q w1 = Datagram c :: rest).
  { destruct A1 as (R & _). rewrite Hq in R. apply app_inv_head in R.
    symmetry. exact R. }
  exists (received_w (Datagram c) rest w1). split; [|split].
  - unfold with_fuel. rewrite Hq, length_app. cbn [List.length].
    replace (S (List.length noise + S (List.length rest)))
      with (List.length noise + S (S (List.length rest)))%nat by lia.
    rewrite E1, (await_close_loop_step _ _ _ _ _ Hq1).
    cbn [is_close]. rewrite Hc. reflexivity.
  - eapply advances_cast;
      [exact (advances_trans _ _ _ _ _ _ _ _ _ _ _ _ _ A1
                (advances_received_w _ _ _ Hq1)) | ..];
      reflexivity.
  - reflexivity.
Qed.

(** *** send_close_connection: the final ACK and the wait *)

Lemma received_nonempty d : d <> [] -> (0 <? Z.of_nat (List.length (received d))) = true.
Proof.
  intros H. apply Z.ltb_lt. destruct d as [|b d]; [contradiction|].
  unfold received. rewrite length_firstn. cbn [List.length].
  assert (0 < Z.to_nat MAX_SEG_SIZE)%nat by (unfold MAX_SEG_SIZE; lia). lia.
Qed.

Lemma time_wait_loop_segment fuel s w d q :
  recv_q w = Datagram d :: q -> d <> [] ->
  exists w',
    time_wait_loop os (S fuel) s w = time_wait_loop os fuel s w'
    /\ advances w w' [Datagram d] [header_segment 0 0 RDT_ACK] [TIME_WAIT]
         (send_perrors os "send_close_connection send" (n_send w) 1) 0.
Proof.
  intros Hq Hd.
  eexists. split.
  - cbn [time_wait_loop]. mrun. rewrite Hq. mrun.
    fold (received d). rewrite (received_nonempty d Hd).
    change (to_uint32 TIME_WAIT) with TIME_WAIT.
    destruct (is_type (received d) RDT_CLOSE); reflexivity.
  - unfold advances, send_perrors. tsimpl. rewrite Hq.
    cbn [seq flat_map List.length]. rewrite app_nil_r.
    repeat split; lia.
Qed.

Lemma time_wait_loop_timeout fuel s w q :
  recv_q w = Timeout :: q ->
  exists w',
    time_wait_loop os (S fuel) s w = Ret tt s w'
    /\ advances w w' [Timeout] [header_segment 0 0 RDT_ACK] [TIME_WAIT]
         (send_perrors os "send_close_connection send" (n_send w) 1) 0.
Proof.
  intros Hq. unfold Timeout in *.
  eexists. split.
  - cbn [time_wait_loop]. mrun. rewrite Hq. mrun.
    cbn [Z.ltb Z.compare]. mrun. change (EAGAIN =? EAGAIN) with true. mrun.
    change (to_uint32 TIME_WAIT) with TIME_WAIT. reflexivity.
  - unfold advances, send_perrors. tsimpl. rewrite Hq.
    cbn [seq flat_map List.length]. rewrite app_nil_r.
    repeat split; lia.
Qed.

Lemma time_wait_loop_error fuel s w e q :
  recv_q w = RecvError e :: q -> e <> EAGAIN ->
  exists w',
    time_wait_loop os (S fuel) s w = Stop Exited s w'
    /\ advances w w' [RecvError e] [header_segment 0 0 RDT_ACK] [TIME_WAIT]
         (send_perrors os "send_close_connection send" (n_send w) 1
            ++ ["send_close_connection recv"%string]) 0.
Proof.
  intros Hq He. apply Z.eqb_neq in He.
  eexists. split.
  - cbn [time_wait_loop]. mrun. rewrite Hq. mrun.
    cbn [Z.ltb Z.compare]. mrun. rewrite He. mrun.
    change (to_uint32 TIME_WAIT) with TIME_WAIT. reflexivity.
  - unfold advances, send_perrors. tsimpl. rewrite Hq.
    cbn [seq flat_map List.length]. rewrite !app_nil_r, <- app_assoc.
    repeat split; lia.
Qed.

Lemma time_wait_loop_pending fuel s w :
  recv_q w = [] ->
  exists w',
    time_wait_loop os (S fuel) s w = Stop Pending s w'
    /\ advances w w' [] [header_segment 0 0 RDT_ACK] [TIME_WAIT]
         (send_perrors os "send_close_connection send" (n_send w) 1) 0.
Proof.
  intros Hq.
  eexists. split.
  - cbn [time_wait_loop]. mrun. rewrite Hq.
    change (to_uint32 TIME_WAIT) with TIME_WAIT. reflexivity.
  - unfold advances, send_perrors. tsimpl. rewrite Hq.
    cbn [seq flat_map List.length]. rewrite app_nil_r.
    repeat split; lia.
Qed.

(** An empty datagram makes [recv] return 0, which the test [recv > 0]
    does not take for a segment: the loop then reads [errno] as it was
    left by earlier calls. *)
Lemma time_wait_loop_empty fuel s w q :
  recv_q w = Datagram [] :: q ->
  exists w',
    time_wait_loop os (S fuel) s w
    = (if errno_after (send_errno os (n_send w)) w =? EAGAIN
       then Ret tt s w'
       else Stop Exited s (emit_w (EvPerror "send_close_connection recv") w'))
    /\ advances w w' [Datagram []] [header_segment 0 0 RDT_ACK] [TIME_WAIT]
         (send_perrors os "send_close_connection send" (n_send w) 1) 0.
Proof.
  intros Hq.
  eexists. split.
  - cbn [time_wait_loop]. mrun. rewrite Hq. mrun.
    cbn [firstn List.length Z.of_nat Z.ltb Z.compare].
    rewrite firstn_nil. cbn [List.length Z.of_nat Z.ltb Z.compare]. mrun.
    change (to_uint32 TIME_WAIT) with TIME_WAIT.
    destruct (errno_after (send_errno os (n_send w)) w =? EAGAIN); reflexivity.
  - unfold advances, send_perrors. tsimpl. rewrite Hq.
    cbn [seq flat_map List.length]. rewrite app_nil_r.
    repeat split; lia.
Qed.

Lemma time_wait_loop_segments ds :
  forall fuel s w rest,
  Forall (fun d => d <> []) ds ->
  recv_q w = map Datagram ds ++ rest ->
  exists w',
    time_wait_loop os (List.length ds + fuel) s w = time_wait_loop os fuel s w'
    /\ advances w w' (map Datagram ds)
         (repeat (header_segment 0 0 RDT_ACK) (List.length ds))
         (repeat TIME_WAIT (List.length ds))
         (send_perrors os "send_close_connection send" (n_send w) (List.length ds)) 0.
Proof.
  induction ds as [|d ds IH]; intros fuel s w rest Hall Hq.
  - exists w. split; [reflexivity | apply advances_refl].
  - cbn [map app] in Hq. inversion Hall as [|d' ds' Hd Hds]; subst.
    destruct (time_wait_loop_segment (List.length ds + fuel) s w d _ Hq Hd)
      as (w1 & E1 & A1).
    assert (Hq1 : recv_q w1 = map Datagram ds ++ rest).
    { destruct A1 as (R & _). rewrite Hq in R. cbn in R. congruence. }
    destruct (IH fuel s w1 rest Hds Hq1) as (w' & E2 & A2).
    exists w'. split.
    + cbn [List.length Nat.add]. rewrite E1, E2. reflexivity.
    + eapply advances_cast;
        [exact (advances_trans _ _ _ _ _ _ _ _ _ _ _ _ _ A1 A2) | ..];
        try reflexivity.
      destruct A1 as (_ & _ & _ & _ & _ & N & _). rewrite N.
      apply send_perrors_S.
Qed.
Lemma time_wait_done cs s w rest :
  Forall (fun d => d <> []) cs ->
  recv_q w = map Datagram cs ++ Timeout :: rest ->
  exists w',
    with_fuel (time_wait_loop os) s w = Ret tt s w'
    /\ advances w w' (map Datagram cs ++ [Timeout])
         (repeat (header_segment 0 0 RDT_ACK) (S (List.length cs)))
         (repeat TIME_WAIT (S (List.length cs)))
         (send_perrors os "send_close_connection send" (n_send w)
                       (S (List.length cs))) 0
    /\ recv_q w' = rest.
Proof.
  intros Hall Hq.
  destruct (time_wait_loop_segments cs (S (S (List.length rest))) s w
              (Timeout :: rest) Hall Hq) as (w1 & E1 & A1).
  assert (Hq1 : recv_q w1 = Timeout :: rest).
  { destruct A1 as (R & _). rewrite Hq in R. apply app_inv_head in R.
    symmetry. exact R. }
  destruct (time_wait_loop_timeout (S (List.length rest)) s w1 rest Hq1)
    as (w2 & E2 & A2).
  exists w2. split; [|split].
  - unfold with_fuel. rewrite Hq, length_app, length_map. cbn [List.length].
    replace (S (List.length cs + S (List.length rest)))
      with (List.length cs + S (S (List.length rest)))%nat by lia.
    rewrite E1, E2. reflexivity.
  - eapply advances_cast;
      [exact (advances_trans _ _ _ _ _ _ _ _ _ _ _ _ _ A1 A2) | ..];
      try reflexivity.
    + symmetry. apply repeat_cons.
    + symmetry. apply repeat_cons.
    + destruct A1 as (_ & _ & _ & _ & _ & N & _). rewrite N, repeat_length.
      apply send_perrors_snoc.
  - destruct A2 as (R & _). rewrite Hq1 in R. cbn in R. congruence.
Qed.

Lemma time_wait_pending cs s w :
  Forall (fun d => d <> []) cs ->
  recv_q w = map Datagram cs ->
  exists w',
    with_fuel (time_wait_loop os) s w = Stop Pending s w'
    /\ advances w w' (map Datagram cs)
         (repeat (header_segment 0 0 RDT_ACK) (S (List.length cs)))
         (repeat TIME_WAIT (S (List.length cs)))
         (send_perrors os "send_close_connection send" (n_send w)
                       (S (List.length cs))) 0.
Proof.
  intros Hall Hq.
  assert (Hq0 : recv_q w = map Datagram cs ++ []) by (rewrite app_nil_r; exact Hq).
  destruct (time_wait_loop_segments cs 1 s w [] Hall Hq0) as (w1 & E1 & A1).
  assert (Hq1 : recv_q w1 = []).
  { destruct A1 as (R & _). rewrite Hq0 in R. apply app_inv_head in R.
    symmetry. exact R. }
  destruct (time_wait_loop_pending 0 s w1 Hq1) as (w2 & E2 & A2).
  exists w2. split.
  - unfold with_fuel. rewrite Hq, length_map.
    replace (S (List.length cs)) with (List.length cs + 1)%nat by lia.
    rewrite E1, E2. reflexivity.
  - eapply advances_cast;
      [exact (advances_trans _ _ _ _ _ _ _ _ _ _ _ _ _ A1 A2) | ..];
      try reflexivity.
    + apply app_nil_r.
    + symmetry. apply repeat_cons.
    + symmetry. apply repeat_cons.
    + destruct A1 as (_ & _ & _ & _ & _ & N & _). rewrite N, repeat_length.
      apply send_perrors_snoc.
Qed.

Lemma time_wait_error cs s w e rest :
  Forall (fun d => d <> []) cs ->
  recv_q w = map Datagram cs ++ RecvError e :: rest -> e <> EAGAIN ->
  exists w' errs,
    with_fuel (time_wait_loop os) s w = Stop Exited s w'
    /\ advances w w' (map Datagram cs ++ [RecvError e])
         (repeat (header_segment 0 0 RDT_ACK) (S (List.length cs)))
         (repeat TIME_WAIT (S (List.length cs))) errs 0.
Proof.
  intros Hall Hq He.
  destruct (time_wait_loop_segments cs (S (S (List.length rest))) s w
              (RecvError e :: rest) Hall Hq) as (w1 & E1 & A1).
  assert (Hq1 : recv_q w1 = RecvError e :: rest).
  { destruct A1 as (R & _). rewrite Hq in R. apply app_inv_head in R.
    symmetry. exact R. }
  destruct (time_wait_loop_error (S (List.length rest)) s w1 e rest Hq1 He)
    as (w2 & E2 & A2).
  exists w2. eexists. split.
  - unfold with_fuel. rewrite Hq, length_app, length_map. cbn [List.length].
    replace (S (List.length cs + S (List.length rest)))
      with (List.length cs + S (S (List.length rest)))%nat by lia.
    rewrite E1, E2. reflexivity.
  - eapply advances_cast;
      [exact (advances_trans _ _ _ _ _ _ _ _ _ _ _ _ _ A1 A2) | ..];
      try reflexivity.
    + symmetry. apply repeat_cons.
    + symmetry. apply repeat_cons.
Qed.

(** *** close_connection *)

(** What [close_connection] does once the teardown exchange is over. *)
Lemma close_connection_tail s w :
  exists w',
    (modify (set_state CLOSED) ;;
     r <- sys_misc os EvClose ;;
     (if r <? 0 then perror "close_connection close" else ret tt) ;;
     cerr "Connection successfully closed")%rdt s w
    = Ret tt (set_state CLOSED s) w'
    /\ recv_q w' = recv_q w
    /\ sends (trace w') = sends (trace w)
    /\ applied_timeouts (trace w') = applied_timeouts (trace w)
    /\ closes (trace w') = S (closes (trace w)).
Proof.
  unfold sys_misc. mrun.
  destruct (misc_errno os (n_misc w) =? 0).
  - eexists. split; [reflexivity|]. tsimpl.
    change (closes [EvClose]) with 1%nat.
    repeat split; lia.
  - eexists. split; [reflexivity|]. tsimpl.
    change (closes [EvClose]) with 1%nat.
    repeat split; lia.
Qed.
Lemma send_close_connection_done n a noise c cs s w rest :
  recv_q w = repeat Timeout n ++ Datagram a :: noise
               ++ Datagram c :: map Datagram cs ++ Timeout :: rest ->
  is_type (received a) RDT_ACK || is_type (received a) RDT_CLOSE = true ->
  Forall (fun r => is_close r = false) noise ->
  is_type (received c) RDT_CLOSE = true ->
  Forall (fun d => d <> []) cs ->
  exists s' w' pre,
    send_close_connection os s w = Ret tt s' w'
    /\ same_connection s s'
    /\ recv_q w' = rest
    /\ sends (trace w')
       = sends (trace w) ++ repeat (header_segment 0 0 RDT_CLOSE) (S n)
           ++ repeat (header_segment 0 0 RDT_ACK) (S (List.length cs))
    /\ applied_timeouts (trace w')
       = applied_timeouts (trace w) ++ pre
           ++ repeat TIME_WAIT (S (List.length cs))
    /\ closes (trace w') = closes (trace w).
Proof.
  intros Hq Ha Hnoise Hc Hcs.
  destruct (close_handshake_done n a s w _ Hq Ha)
    as (s1 & w1 & tos1 & errs1 & k1 & E1 & C1 & A1 & R1).
  destruct (await_close_done noise c s1 w1 _ Hnoise Hc R1) as (w2 & E2 & A2 & R2).
  destruct (time_wait_done cs s1 w2 rest Hcs R2) as (w3 & E3 & A3 & R3).
  exists s1, w3, tos1. split; [|split; [|split; [|split; [|split]]]].
  - unfold send_close_connection. unfold bind at 1. rewrite E1.
    unfold bind at 1. rewrite E2. exact E3.
  - exact C1.
  - exact R3.
  - destruct A1 as (_ & S1 & _). destruct A2 as (_ & S2 & _).
    destruct A3 as (_ & S3 & _).
    rewrite S3, S2, S1, app_nil_r, <- app_assoc. reflexivity.
  - destruct A1 as (_ & _ & T1 & _). destruct A2 as (_ & _ & T2 & _).
    destruct A3 as (_ & _ & T3 & _).
    rewrite T3, T2, T1, app_nil_r, <- app_assoc. reflexivity.
  - destruct A1 as (_ & _ & _ & _ & _ & _ & X1).
    destruct A2 as (_ & _ & _ & _ & _ & _ & X2).
    destruct A3 as (_ & _ & _ & _ & _ & _ & X3).
    rewrite X3, X2, X1. reflexivity.
Qed.

Lemma send_close_connection_waiting n a noise c cs s w :
  recv_q w = repeat Timeout n ++ Datagram a :: noise
               ++ Datagram c :: map Datagram cs ->
  is_type (received a) RDT_ACK || is_type (received a) RDT_CLOSE = true ->
  Forall (fun r => is_close r = false) noise ->
  is_type (received c) RDT_CLOSE = true ->
  Forall (fun d => d <> []) cs ->
  exists s' w' pre,
    send_close_connection os s w = Stop Pending s' w'
    /\ same_connection s s'
    /\ sends (trace w')
       = sends (trace w) ++ repeat (header_segment 0 0 RDT_CLOSE) (S n)
           ++ repeat (header_segment 0 0 RDT_ACK) (S (List.length cs))
    /\ applied_timeouts (trace w')
       = applied_timeouts (trace w) ++ pre
           ++ repeat TIME_WAIT (S (List.length cs))
    /\ closes (trace w') = closes (trace w).
Proof.
  intros Hq Ha Hnoise Hc Hcs.
  destruct (close_handshake_done n a s w _ Hq Ha)
    as (s1 & w1 & tos1 & errs1 & k1 & E1 & C1 & A1 & R1).
  destruct (await_close_done noise c s1 w1 _ Hnoise Hc R1) as (w2 & E2 & A2 & R2).
  destruct (time_wait_pending cs s1 w2 Hcs R2) as (w3 & E3 & A3).
  exists s1, w3, tos1. split; [|split; [|split; [|split]]].
  - unfold send_close_connection. unfold bind at 1. rewrite E1.
    unfold bind at 1. rewrite E2. exact E3.
  - exact C1.
  - destruct A1 as (_ & S1 & _). destruct A2 as (_ & S2 & _).
    destruct A3 as (_ & S3 & _).
    rewrite S3, S2, S1, app_nil_r, <- app_assoc. reflexivity.
  - destruct A1 as (_ & _ & T1 & _). destruct A2 as (_ & _ & T2 & _).
    destruct A3 as (_ & _ & T3 & _).
    rewrite T3, T2, T1, app_nil_r, <- app_assoc. reflexivity.
  - destruct A1 as (_ & _ & _ & _ & _ & _ & X1).
    destruct A2 as (_ & _ & _ & _ & _ & _ & X2).
    destruct A3 as (_ & _ & _ & _ & _ & _ & X3).
    rewrite X3, X2, X1. reflexivity.
Qed.

Lemma close_connection_not_FIN s w :
  state s <> FIN ->
  close_connection os s w
  = (send_close_connection os ;;
     modify (set_state CLOSED) ;;
     r <- sys_misc os EvClose ;;
     (if r <? 0 then perror "close_connection close" else ret tt) ;;
     cerr "Connection successfully closed")%rdt s w.
Proof.
  intros Hs. unfold close_connection. unfold bind at 1. unfold this.
  destruct (state s); try reflexivity. contradiction.
Qed.

Lemma close_connection_closes n a noise c cs s w rest :
  state s <> FIN ->
  recv_q w = repeat Timeout n ++ Datagram a :: noise
               ++ Datagram c :: map Datagram cs ++ Timeout :: rest ->
  is_type (received a) RDT_ACK || is_type (received a) RDT_CLOSE = true ->
  Forall (fun r => is_close r = false) noise ->
  is_type (received c) RDT_CLOSE = true ->
  Forall (fun d => d <> []) cs ->
  exists s' w' pre,
    close_connection os s w = Ret tt s' w'
    /\ state s' = CLOSED
    /\ recv_q w' = rest
    /\ sends (trace w')
       = sends (trace w) ++ repeat (header_segment 0 0 RDT_CLOSE) (S n)
           ++ repeat (header_segment 0 0 RDT_ACK) (S (List.length cs))
    /\ applied_timeouts (trace w')
       = applied_timeouts (trace w) ++ pre
           ++ repeat TIME_WAIT (S (List.length cs))
    /\ closes (trace w') = S (closes (trace w)).
Proof.
  intros Hs Hq Ha Hnoise Hc Hcs.
  destruct (send_close_connection_done n a noise c cs s w rest Hq Ha Hnoise Hc Hcs)
    as (s1 & w1 & pre & E1 & C1 & R1 & S1 & T1 & X1).
  destruct (close_connection_tail s1 w1) as (w2 & E2 & R2 & S2 & T2 & X2).
  exists (set_state CLOSED s1), w2, pre.
  split; [|split; [|split; [|split; [|split]]]].
  - rewrite close_connection_not_FIN by exact Hs.
    unfold bind at 1. rewrite E1. exact E2.
  - reflexivity.
  - rewrite R2. exact R1.
  - rewrite S2. exact S1.
  - rewrite T2. exact T1.
  - rewrite X2, X1. reflexivity.
Qed.

Lemma close_connection_waits n a noise c cs s w :
  state s <> FIN ->
  recv_q w = repeat Timeout n ++ Datagram a :: noise
               ++ Datagram c :: map Datagram cs ->
  is_type (received a) RDT_ACK || is_type (received a) RDT_CLOSE = true ->
  Forall (fun r => is_close r = false) noise ->
  is_type (received c) RDT_CLOSE = true ->
  Forall (fun d => d <> []) cs ->
  exists s' w' pre,
    close_connection os s w = Stop Pending s' w'
    /\ state s' = state s
    /\ sends (trace w')
       = sends (trace w) ++ repeat (header_segment 0 0 RDT_CLOSE) (S n)
           ++ repeat (header_segment 0 0 RDT_ACK) (S (List.length cs))
    /\ applied_timeouts (trace w')
       = applied_timeouts (trace w) ++ pre
           ++ repeat TIME_WAIT (S (List.length cs))
    /\ closes (trace w') = closes (trace w).
Proof.
  intros Hs Hq Ha Hnoise Hc Hcs.
  destruct (send_close_connection_waiting n a noise c cs s w Hq Ha Hnoise Hc Hcs)
    as (s1 & w1 & pre & E1 & C1 & S1 & T1 & X1).
  exists s1, w1, pre.
  split; [|split; [|split; [|split]]].
  - rewrite close_connection_not_FIN by exact Hs.
    unfold bind at 1. rewrite E1. reflexivity.
  - destruct C1 as (_ & _ & _ & T). exact T.
  - exact S1.
  - exact T1.
  - exact X1.
Qed.

(** From a state other than [FIN], without a reply, [close_connection]
    goes on sending CLOSE. *)
Lemma close_connection_unanswered n s w :
  state s <> FIN ->
  recv_q w = repeat Timeout n ->
  exists w',
    close_connection os s w = Stop Pending s w'
    /\ sends (trace w')
       = sends (trace w) ++ repeat (header_segment 0 0 RDT_CLOSE) (S n).
Proof.
  intros Hs Hq.
  destruct (close_handshake_pending n s w Hq) as (w1 & tos & errs & k & E1 & A1).
  exists w1. split.
  - rewrite close_connection_not_FIN by exact Hs.
    unfold bind at 1. unfold send_close_connection. unfold bind at 1.
    rewrite E1. reflexivity.
  - destruct A1 as (_ & S1 & _). exact S1.
Qed.
(** *** connect_to_remote *)

Lemma advances_emit_cerr msg w : advances w (emit_w (EvCerr msg) w) [] [] [] [] 0.
Proof. unfold advances. tsimpl. repeat split; lia. Qed.

Lemma perror_unless (c : bool) msg s w :
  exists w',
    (if negb c then perror msg else ret tt) s w = Ret tt s w'
    /\ advances w w' [] [] [] (if c then [] else [msg]) 0.
Proof.
  destruct c; cbn [negb].
  - exists w. split; [reflexivity | apply advances_refl].
  - eexists. split; [reflexivity|].
    unfold advances. tsimpl. repeat split; lia.
Qed.

Lemma connect_call s w :
  exists w',
    advances w w' [] [] []
      (if misc_errno os (n_misc w) =? 0 then [] else ["connect"%string]) 0
    /\ forall B (K : M B),
         (r <- sys_misc os EvConnect ;;
          (if negb (r =? 0) then perror "connect" else ret tt) ;; K)%rdt s w
         = K s w'.
Proof.
  unfold bind, sys_misc.
  destruct (misc_errno os (n_misc w) =? 0); cbn [Z.eqb negb].
  - eexists. split; [|reflexivity]. unfold advances. tsimpl. repeat split; lia.
  - eexists. split; [|reflexivity]. unfold advances. tsimpl. repeat split; lia.
Qed.

Lemma connect_to_remote_established hostname port_num n d ds s w rest :
  state s = INIT ->
  recv_q w = repeat Timeout n ++ Datagram d :: map Datagram ds ++ Timeout :: rest ->
  exists s' w' tos k,
    connect_to_remote os hostname port_num s w = Ret tt s' w'
    /\ state s' = ESTABLISHED
    /\ sequence_number s' = sequence_number s
    /\ recv_q w' = rest
    /\ advances w w'
         (repeat Timeout n ++ Datagram d :: map Datagram ds ++ [Timeout])
         (repeat (header_segment 0 0 RDT_SYN) (S n)
            ++ repeat (header_segment 0 0 RDT_ACK) (S (List.length ds)))
         tos
         ((if misc_errno os (n_misc w) =? 0 then [] else ["connect"%string])
            ++ send_perrors os "reliable_send send" (n_send w) (S n)
            ++ (if is_type (received d) RDT_SYNACK then []
                else ["Message was not a SYNACK"%string])
            ++ send_perrors os "timeout_send send" (n_send w + S n)
                            (S (List.length ds)))
         k.
Proof.
  intros Hs Hq.
  destruct (connect_call s w) as (w0 & A0 & E0).
  assert (Hq0 : recv_q w0 = recv_q w).
  { destruct A0 as (R & _). rewrite R. reflexivity. }
  pose (w1 := timeout_w (to_uint32 (rto s)) w0).
  assert (Hq1 : recv_q w1 = repeat Timeout n
                  ++ Datagram d :: map Datagram ds ++ Timeout :: rest).
  { change (recv_q w1) with (recv_q w0). rewrite Hq0. exact Hq. }
  destruct (reliable_send_reply n (header_segment 0 0 RDT_SYN) s w1 d _ Hq1)
    as (w2 & E2 & A2 & R2).
  set (s2 := update_rtt (set_current_rtt (sample_after os w1 n) s)) in *.
  destruct (perror_unless (is_type (received d) RDT_SYNACK)
              "Message was not a SYNACK" s2 w2) as (w3 & E3 & A3).
  assert (Hq3 : recv_q w3 = map Datagram ds ++ Timeout :: rest).
  { destruct A3 as (R & _). rewrite <- R2, R. reflexivity. }
  destruct (timeout_send_done ds (header_segment 0 0 RDT_ACK) s2 w3 rest Hq3)
    as (w4 & E4 & A4 & R4).
  exists (set_state ESTABLISHED s2),
         (emit_w (EvCerr "INFO: Connection ESTABLISHED") w4).
  do 2 eexists. split; [|split; [|split; [|split]]].
  - unfold connect_to_remote. unfold bind at 1. unfold this.
    rewrite Hs. cbn [status_eqb negb].
    rewrite E0.
    unfold bind at 1. unfold this.
    unfold bind at 1. rewrite set_timeout_length_ok by apply Hok. fold w1.
    unfold bind at 1. rewrite E2.
    unfold bind at 1. rewrite E3.
    unfold bind at 1. rewrite E4.
    reflexivity.
  - reflexivity.
  - reflexivity.
  - exact R4.
  - pose proof (advances_trans _ _ _ _ _ _ _ _ _ _ _ _ _
                 (advances_trans _ _ _ _ _ _ _ _ _ _ _ _ _
                   (advances_trans _ _ _ _ _ _ _ _ _ _ _ _ _
                     (advances_trans _ _ _ _ _ _ _ _ _ _ _ _ _
                       (advances_trans _ _ _ _ _ _ _ _ _ _ _ _ _
                          A0 (advances_timeout_w (to_uint32 (rto s)) w0))
                       A2) A3) A4)
                 (advances_emit_cerr "INFO: Connection ESTABLISHED" w4)) as A.
    eapply advances_cast; [exact A | ..]; try reflexivity.
    + cbn [app]. rewrite !app_nil_r, <- !app_assoc. reflexivity.
    + cbn [app]. rewrite !app_nil_r. reflexivity.
    + cbn [app]. rewrite !app_nil_r, <- !app_assoc.
      destruct A0 as (_ & _ & _ & _ & _ & N0 & _).
      destruct A2 as (_ & _ & _ & _ & _ & N2 & _).
      destruct A3 as (_ & _ & _ & _ & _ & N3 & _).
      change (n_send w1) with (n_send w0) in *.
      rewrite N3, N2, N0, repeat_length. cbn [List.length].
      rewrite !Nat.add_0_r. reflexivity.
Qed.
(** *** Calls in a state that does not allow them *)

Lemma status_eqb_neq (a b : connection_status) :
  a <> b -> status_eqb a b = false.
Proof. intros H. destruct a, b; try reflexivity; contradiction. Qed.

Lemma send_data_rejected data s w :
  state s <> ESTABLISHED ->
  send_data os data s w
  = Ret tt s (emit_w (EvCerr "INFO: Cannot send: Connection not established.") w).
Proof.
  intros Hs. unfold send_data. unfold bind at 1. unfold this.
  rewrite (status_eqb_neq _ _ Hs). reflexivity.
Qed.

Lemma receive_data_rejected s w :
  state s <> ESTABLISHED ->
  receive_data os s w
  = Ret (0, []) s
        (emit_w (EvCerr "INFO: Cannot receive: Connection not established.")
                (timeout_w 0 w)).
Proof.
  intros Hs. unfold receive_data. mrun.
  rewrite (status_eqb_neq _ _ Hs). reflexivity.
Qed.

Lemma connect_to_remote_rejected hostname port_num s w :
  state s <> INIT ->
  connect_to_remote os hostname port_num s w
  = Ret tt s (emit_w (EvCerr "Cannot call connect_to_remote on used socket") w).
Proof.
  intros Hs. unfold connect_to_remote. unfold bind at 1. unfold this.
  rewrite (status_eqb_neq _ _ Hs). reflexivity.
Qed.

Lemma accept_connection_rejected port_num s w :
  state s <> INIT ->
  accept_connection os port_num s w
  = Stop Exited s (emit_w (EvCerr "cannot call accept on used socket") w).
Proof.
  intros Hs. unfold accept_connection. unfold bind at 1. unfold this.
  rewrite (status_eqb_neq _ _ Hs). reflexivity.
Qed.

(** *** The wait of [TIME_WAIT] and [errno]

    [recv] sets [errno] when it fails and leaves it alone when it
    succeeds, so the value that the wait consults after a datagram of no
    bytes is the one left by the last failure before it. *)

Lemma await_close_loop_after_timeout noise :
  forall fuel c s w rest,
  Forall (fun r => is_close r = false) noise ->
  is_type (received c) RDT_CLOSE = true ->
  recv_q w = noise ++ Timeout :: Datagram c :: rest ->
  exists w',
    await_close_loop (List.length noise + S (S fuel)) s w = Ret tt s w'
    /\ recv_q w' = rest
    /\ trace w' = trace w
    /\ errno w' = EAGAIN.
Proof.
  induction noise as [|r noise IH]; intros fuel c s w rest Hall Hc Hq.
  - cbn [app] in Hq. cbn [List.length Nat.add].
    rewrite (await_close_loop_step (S fuel) s w _ _ Hq). cbn [is_close Timeout].
    rewrite (await_close_loop_step fuel s
               (received_w Timeout (Datagram c :: rest) w) (Datagram c) rest eq_refl).
    cbn [is_close]. rewrite Hc.
    eexists. split; [reflexivity|]. repeat split.
  - cbn [app] in Hq. inversion Hall as [|r' noise' Hr Hnoise]; subst.
    cbn [List.length Nat.add].
    rewrite (await_close_loop_step _ s w _ _ Hq), Hr.
    destruct (IH fuel c s (received_w r (noise ++ Timeout :: Datagram c :: rest) w)
                rest Hnoise Hc eq_refl) as (w' & E & R & T & X).
    exists w'. split; [exact E|]. split; [exact R|]. split; [exact T | exact X].
Qed.

Lemma time_wait_loop_segment_errno fuel s w d q :
  recv_q w = Datagram d :: q -> d <> [] ->
  send_errno os (n_send w) = 0 ->
  exists w',
    time_wait_loop os (S fuel) s w = time_wait_loop os fuel s w'
    /\ recv_q w' = q
    /\ errno w' = errno w
    /\ sends (trace w') = sends (trace w) ++ [header_segment 0 0 RDT_ACK]
    /\ applied_timeouts (trace w') = applied_timeouts (trace w) ++ [TIME_WAIT]
    /\ closes (trace w') = closes (trace w).
Proof.
  intros Hq Hd Hsend.
  eexists. split.
  - cbn [time_wait_loop]. mrun. rewrite Hq. mrun.
    fold (received d). rewrite (received_nonempty d Hd).
    change (to_uint32 TIME_WAIT) with TIME_WAIT.
    destruct (is_type (received d) RDT_CLOSE); reflexivity.
  - tsimpl. unfold errno_after. rewrite Hsend. cbn [Z.eqb].
    repeat split; lia.
Qed.

Lemma time_wait_loop_segments_errno cs :
  forall fuel s w rest,
  (forall i, send_errno os i = 0) ->
  Forall (fun d => d <> []) cs ->
  recv_q w = map Datagram cs ++ rest ->
  exists w',
    time_wait_loop os (List.length cs + fuel) s w = time_wait_loop os fuel s w'
    /\ recv_q w' = rest
    /\ errno w' = errno w
    /\ sends (trace w')
       = sends (trace w) ++ repeat (header_segment 0 0 RDT_ACK) (List.length cs)
    /\ applied_timeouts (trace w')
       = applied_timeouts (trace w) ++ repeat TIME_WAIT (List.length cs)
    /\ closes (trace w') = closes (trace w).
Proof.
  induction cs as [|d cs IH]; intros fuel s w rest Hsend Hall Hq.
  - exists w. cbn [List.length repeat Nat.add]. rewrite !app_nil_r.
    repeat split. exact Hq.
  - cbn [map app] in Hq. inversion Hall as [|d' cs' Hd Hcs]; subst.
    destruct (time_wait_loop_segment_errno (List.length cs + fuel) s w d _ Hq Hd
                (Hsend _)) as (w1 & E1 & R1 & X1 & S1 & T1 & C1).
    destruct (IH fuel s w1 rest Hsend Hcs R1) as (w' & E2 & R2 & X2 & S2 & T2 & C2).
    exists w'. split; [|split; [|split; [|split; [|split]]]].
    + cbn [List.length Nat.add]. rewrite E1, E2. reflexivity.
    + exact R2.
    + rewrite X2. exact X1.
    + rewrite S2, S1, <- app_assoc. reflexivity.
    + rewrite T2, T1, <- app_assoc. reflexivity.
    + rewrite C2. exact C1.
Qed.

(** A datagram of no bytes while [errno] holds [EAGAIN]. *)
Lemma time_wait_cut_short cs s w rest :
  (forall i, send_errno os i = 0) ->
  Forall (fun d => d <> []) cs ->
  errno w = EAGAIN ->
  recv_q w = map Datagram cs ++ Datagram [] :: rest ->
  exists w',
    with_fuel (time_wait_loop os) s w = Ret tt s w'
    /\ recv_q w' = rest
    /\ sends (trace w')
       = sends (trace w) ++ repeat (header_segment 0 0 RDT_ACK) (S (List.length cs))
    /\ applied_timeouts (trace w')
       = applied_timeouts (trace w) ++ repeat TIME_WAIT (S (List.length cs))
    /\ closes (trace w') = closes (trace w).
Proof.
  intros Hsend Hall Herr Hq.
  destruct (time_wait_loop_segments_errno cs (S (S (List.length rest))) s w
              (Datagram [] :: rest) Hsend Hall Hq)
    as (w1 & E1 & R1 & X1 & S1 & T1 & C1).
  destruct (time_wait_loop_empty (S (List.length rest)) s w1 rest R1)
    as (w2 & E2 & A2).
  unfold errno_after in E2. rewrite Hsend in E2. cbn [Z.eqb] in E2.
  rewrite X1, Herr, Z.eqb_refl in E2.
  destruct A2 as (R2 & S2 & T2 & _ & _ & _ & C2).
  exists w2. split; [|split; [|split; [|split]]].
  - unfold with_fuel. rewrite Hq, length_app, length_map. cbn [List.length].
    replace (S (List.length cs + S (List.length rest)))
      with (List.length cs + S (S (List.length rest)))%nat by lia.
    rewrite E1. exact E2.
  - rewrite R1 in R2. cbn in R2. congruence.
  - rewrite S2, S1, <- app_assoc. f_equal. symmetry. apply repeat_cons.
  - rewrite T2, T1, <- app_assoc. f_equal. symmetry. apply repeat_cons.
  - rewrite C2. exact C1.
Qed.

(** The teardown that this side starts, the CLOSE of the peer coming
    after a receive timeout, and a datagram of no bytes during the wait. *)
Lemma close_connection_cut_short n a noise c cs s w rest :
  (forall i, send_errno os i = 0) ->
  state s <> FIN ->
  recv_q w = repeat Timeout n ++ Datagram a :: noise
               ++ Timeout :: Datagram c :: map Datagram cs ++ Datagram [] :: rest ->
  is_type (received a) RDT_ACK || is_type (received a) RDT_CLOSE = true ->
  Forall (fun r => is_close r = false) noise ->
  is_type (received c) RDT_CLOSE = true ->
  Forall (fun d => d <> []) cs ->
  exists s' w' pre,
    close_connection os s w = Ret tt s' w'
    /\ state s' = CLOSED
    /\ recv_q w' = rest
    /\ sends (trace w')
       = sends (trace w) ++ repeat (header_segment 0 0 RDT_CLOSE) (S n)
           ++ repeat (header_segment 0 0 RDT_ACK) (S (List.length cs))
    /\ applied_timeouts (trace w')
       = applied_timeouts (trace w) ++ pre
           ++ repeat TIME_WAIT (S (List.length cs))
    /\ closes (trace w') = S (closes (trace w)).
Proof.
  intros Hsend Hs Hq Ha Hnoise Hc Hcs.
  destruct (close_handshake_done n a s w _ Hq Ha)
    as (s1 & w1 & tos1 & errs1 & k1 & E1 & C1 & A1 & R1).
  destruct (await_close_loop_after_timeout noise
              (S (List.length (map Datagram cs ++ Datagram [] :: rest))) c s1 w1 _
              Hnoise Hc R1) as (w2 & E2 & R2 & T2 & X2).
  destruct (time_wait_cut_short cs s1 w2 rest Hsend Hcs X2 R2)
    as (w3 & E3 & R3 & S3 & T3 & C3).
  destruct (close_connection_tail s1 w3) as (w4 & E4 & R4 & S4 & T4 & C4).
  exists (set_state CLOSED s1), w4, tos1.
  split; [|split; [|split; [|split; [|split]]]].
  - rewrite close_connection_not_FIN by exact Hs.
    unfold bind at 1. unfold send_close_connection. unfold bind at 1. rewrite E1.
    unfold bind at 1. unfold with_fuel at 1.
    replace (S (List.length (recv_q w1)))
      with (List.length noise
            + S (S (S (List.length (map Datagram cs ++ Datagram [] :: rest)))))%nat
      by (rewrite R1; repeat (rewrite length_app; cbn [List.length]); lia).
    rewrite E2, E3. exact E4.
  - reflexivity.
  - rewrite R4. exact R3.
  - destruct A1 as (_ & S1 & _).
    rewrite S4, S3, T2, S1, <- app_assoc. reflexivity.
  - destruct A1 as (_ & _ & T1 & _).
    rewrite T4, T3, T2, T1, <- app_assoc. reflexivity.
  - destruct A1 as (_ & _ & _ & _ & _ & _ & X1).
    rewrite C4, C3, T2, X1. reflexivity.
Qed.

End Steps.

(** * The bound on iterations is never reached

    Every iteration of every loop consumes an entry of the script, so the
    bound that [with_fuel] computes is enough, whatever the operating
    system answers: no member function ends with [OutOfFuel]. *)

Section Fuel.

Variable os : Oracle.

Lemma within_weaken {A} (w : World) (o : outcome A) :
  within_fuel 1 w o -> within_fuel 0 w o.
Proof. destruct o as [a s' w'|[] s' w']; cbn; try tauto; lia. Qed.

Lemma within_bind_0 {A B} (m : M A) (f : A -> M B) n s w :
  within_fuel 0 w (m s w) ->
  (forall a s' w',
     (List.length (recv_q w') <= List.length (recv_q w))%nat ->
     within_fuel n w' (f a s' w')) ->
  within_fuel n w (bind m f s w).
Proof.
  unfold bind. intros Hm Hf.
  destruct (m s w) as [a s' w'|[] s' w']; cbn in Hm |- *; try tauto.
  assert (Hle : (List.length (recv_q w') <= List.length (recv_q w))%nat) by lia.
  specialize (Hf a s' w' Hle).
  destruct (f a s' w') as [b s'' w''|[] s'' w'']; cbn in Hf |- *; try tauto; lia.
Qed.

Lemma within_bind_1 {A B} (m : M A) (f : A -> M B) s w :
  within_fuel 1 w (m s w) ->
  (forall a s' w',
     (List.length (recv_q w') + 1 <= List.length (recv_q w))%nat ->
     within_fuel 0 w' (f a s' w')) ->
  within_fuel 1 w (bind m f s w).
Proof.
  unfold bind. intros Hm Hf.
  destruct (m s w) as [a s' w'|[] s' w']; cbn in Hm |- *; try tauto.
  specialize (Hf a s' w' Hm).
  destruct (f a s' w') as [b s'' w''|[] s'' w'']; cbn in Hf |- *; try tauto; lia.
Qed.

Lemma within_quiet {A} (a : A) s w w' k :
  recv_q w' = recv_q w -> (k = 0)%nat -> within_fuel k w (Ret a s w').
Proof. intros H ->. cbn. rewrite H. lia. Qed.

Lemma within_sys_recv s w : within_fuel 1 w (sys_recv s w).
Proof.
  unfold sys_recv. destruct (recv_q w) as [|[e|d] q] eqn:E; cbn; try tauto;
    rewrite E; cbn; lia.
Qed.

(** One step of a straight-line computation. *)
Ltac quiet_step :=
  first
    [ apply within_bind_0;
      [ first [ apply within_quiet; reflexivity
              | rewrite send_or_perror_eq; apply within_quiet; reflexivity ]
      | intros ? ? ? ? ]
    | apply within_quiet; reflexivity ].

Ltac split_if :=
  match goal with
  | |- context [if ?c then _ else _] => destruct c
  end.

Lemma within_memcpy room count s w :
  within_fuel 0 w (memcpy room count s w).
Proof.
  unfold memcpy. split_if; [exact I | apply within_quiet; reflexivity].
Qed.

Lemma within_set_timeout_length ms s w :
  within_fuel 0 w (set_timeout_length os ms s w).
Proof.
  unfold set_timeout_length. quiet_step. quiet_step.
  split_if.
  - quiet_step. exact I.
  - quiet_step.
Qed.

Lemma within_set_estimated_rtt s w :
  within_fuel 0 w (set_estimated_rtt os s w).
Proof.
  unfold set_estimated_rtt. quiet_step. quiet_step.
  apply within_set_timeout_length.
Qed.

Lemma within_reliable_send_loop fuel :
  forall seg pt dt s w,
  (List.length (recv_q w) < fuel)%nat ->
  within_fuel 1 w (reliable_send_loop os fuel seg pt dt s w).
Proof.
  induction fuel as [|fuel IH]; intros seg pt dt s w Hf; [lia|].
  cbn [reliable_send_loop].
  quiet_step. quiet_step.
  apply within_bind_1; [apply within_sys_recv|].
  intros [bytes_received recv_seg] sa wa Hwa.
  destruct (bytes_received <? 0).
  - quiet_step. split_if.
    + quiet_step. quiet_step.
      apply within_bind_0; [apply within_set_timeout_length|].
      intros _ sb wb Hwb. apply within_weaken, IH. lia.
    + quiet_step. exact I.
  - quiet_step. quiet_step. quiet_step.
Qed.

Lemma within_with_fuel {A} (body : nat -> M A) k s w :
  (forall fuel, (List.length (recv_q w) < fuel)%nat -> within_fuel k w (body fuel s w)) ->
  within_fuel k w (with_fuel body s w).
Proof. intros H. apply H. lia. Qed.

Lemma within_reliable_send seg s w :
  within_fuel 1 w (reliable_send os seg s w).
Proof.
  unfold reliable_send. quiet_step.
  apply within_bind_0; [apply within_set_timeout_length|].
  intros _ sa wa Hwa.
  apply within_bind_1.
  - apply within_with_fuel. intros fuel Hf. apply within_reliable_send_loop. exact Hf.
  - intros recv_seg sb wb Hwb.
    apply within_bind_0; [apply within_set_estimated_rtt|].
    intros _ sc wc Hwc. quiet_step.
Qed.

Lemma within_timeout_send_loop fuel :
  forall seg s w,
  (List.length (recv_q w) < fuel)%nat ->
  within_fuel 1 w (timeout_send_loop os fuel seg s w).
Proof.
  induction fuel as [|fuel IH]; intros seg s w Hf; [lia|].
  cbn [timeout_send_loop].
  quiet_step. quiet_step.
  apply within_bind_0; [apply within_set_timeout_length|].
  intros _ sa wa Hwa.
  apply within_bind_1; [apply within_sys_recv|].
  intros rc sb wb Hwb.
  split_if.
  - quiet_step. split_if.
    + quiet_step.
    + quiet_step. exact I.
  - apply within_weaken, IH. lia.
Qed.

Lemma within_timeout_send seg s w :
  within_fuel 1 w (timeout_send os seg s w).
Proof.
  apply within_with_fuel. intros fuel Hf. apply within_timeout_send_loop. exact Hf.
Qed.

Lemma within_send_data_loop fuel :
  forall seg s w,
  (List.length (recv_q w) < fuel)%nat ->
  within_fuel 1 w (send_data_loop os fuel seg s w).
Proof.
  induction fuel as [|fuel IH]; intros seg s w Hf; [lia|].
  cbn [send_data_loop].
  apply within_bind_1; [apply within_reliable_send|].
  intros recv_seg sa wa Hwa. quiet_step.
  split_if; [split_if|].
  - quiet_step.
  - apply within_weaken, IH. lia.
  - apply within_weaken, IH. lia.
Qed.

Lemma within_send_data data s w :
  within_fuel 0 w (send_data os data s w).
Proof.
  unfold send_data. quiet_step. split_if; [quiet_step|].
  apply within_bind_0; [apply within_memcpy|]. intros _ sm wm Hwm.
  apply within_bind_0.
  - apply within_weaken, within_with_fuel. intros fuel Hf.
    apply within_send_data_loop. exact Hf.
  - intros _ sa wa Hwa. quiet_step.
Qed.

Lemma within_receive_data_loop fuel :
  forall s w,
  (List.length (recv_q w) < fuel)%nat ->
  within_fuel 1 w (receive_data_loop os fuel s w).
Proof.
  induction fuel as [|fuel IH]; intros s w Hf; [lia|].
  cbn [receive_data_loop].
  apply within_bind_1; [apply within_sys_recv|].
  intros [recv_count recv_seg] sa wa Hwa.
  split_if.
  - quiet_step. exact I.
  - quiet_step. quiet_step.
    destruct (is_type recv_seg RDT_ACK); [apply within_weaken, IH; lia|].
    destruct (is_type recv_seg RDT_CLOSE).
    + apply within_bind_0; [apply within_weaken, within_timeout_send|].
      intros _ sb wb Hwb. quiet_step. quiet_step.
    + quiet_step. quiet_step. split_if.
      * quiet_step. apply within_bind_0; [apply within_memcpy|].
        intros _ sm wm Hwm. quiet_step.
      * apply within_weaken, IH. lia.
Qed.

Lemma within_receive_data s w :
  within_fuel 0 w (receive_data os s w).
Proof.
  unfold receive_data.
  apply within_bind_0; [apply within_set_timeout_length|].
  intros _ sa wa Hwa. quiet_step. split_if.
  - quiet_step. quiet_step.
  - apply within_weaken, within_with_fuel. intros fuel Hf.
    apply within_receive_data_loop. exact Hf.
Qed.

Lemma within_connect_to_remote hostname port_num s w :
  within_fuel 0 w (connect_to_remote os hostname port_num s w).
Proof.
  unfold connect_to_remote. quiet_step. split_if; [quiet_step|].
  quiet_step.
  apply within_bind_0; [split_if; quiet_step|]. intros _ sa wa Hwa.
  quiet_step.
  apply within_bind_0; [apply within_set_timeout_length|]. intros _ sb wb Hwb.
  apply within_bind_0; [apply within_weaken, within_reliable_send|].
  intros recv_seg sc wc Hwc.
  apply within_bind_0; [split_if; quiet_step|]. intros _ sd wd Hwd.
  apply within_bind_0; [apply within_weaken, within_timeout_send|].
  intros _ se we Hwe. quiet_step. quiet_step.
Qed.

Lemma within_accept_loop fuel :
  forall s w,
  (List.length (recv_q w) < fuel)%nat ->
  within_fuel 1 w (accept_loop os fuel s w).
Proof.
  induction fuel as [|fuel IH]; intros s w Hf; [lia|].
  cbn [accept_loop]. quiet_step.
  apply within_bind_0; [apply within_set_timeout_length|]. intros _ sa wa Hwa.
  apply within_bind_1; [apply within_reliable_send|].
  intros recv_seg sb wb Hwb.
  split_if; [quiet_step|]. split_if; [quiet_step|].
  apply within_weaken, IH. lia.
Qed.

Lemma within_accept_connection port_num s w :
  within_fuel 0 w (accept_connection os port_num s w).
Proof.
  unfold accept_connection. quiet_step. split_if; [quiet_step; exact I|].
  quiet_step.
  apply within_bind_0; [split_if; quiet_step|]. intros _ sa wa Hwa.
  apply within_bind_0; [apply within_weaken, within_sys_recv|].
  intros [recv_count segment] sb wb Hwb.
  split_if; [quiet_step; exact I|].
  quiet_step. split_if; [quiet_step; exact I|].
  split_if; [quiet_step; quiet_step; exact I|].
  apply within_bind_0.
  - apply within_weaken, within_with_fuel. intros fuel Hf.
    apply within_accept_loop. exact Hf.
  - intros _ sc wc Hwc. quiet_step. quiet_step.
Qed.

Lemma within_close_handshake_loop fuel :
  forall s w,
  (List.length (recv_q w) < fuel)%nat ->
  within_fuel 1 w (close_handshake_loop os fuel s w).
Proof.
  induction fuel as [|fuel IH]; intros s w Hf; [lia|].
  cbn [close_handshake_loop].
  apply within_bind_1; [apply within_reliable_send|].
  intros recv_seg sa wa Hwa.
  split_if; [quiet_step|]. split_if; [quiet_step|].
  apply within_weaken, IH. lia.
Qed.

Lemma within_await_close_loop fuel :
  forall s w,
  (List.length (recv_q w) < fuel)%nat ->
  within_fuel 1 w (await_close_loop fuel s w).
Proof.
  induction fuel as [|fuel IH]; intros s w Hf; [lia|].
  cbn [await_close_loop].
  apply within_bind_1; [apply within_sys_recv|].
  intros [recv_count recv_seg] sa wa Hwa.
  split_if; [apply within_weaken, IH; lia|].
  split_if; [quiet_step|].
  apply within_weaken, IH. lia.
Qed.

Lemma within_time_wait_loop fuel :
  forall s w,
  (List.length (recv_q w) < fuel)%nat ->
  within_fuel 1 w (time_wait_loop os fuel s w).
Proof.
  induction fuel as [|fuel IH]; intros s w Hf; [lia|].
  cbn [time_wait_loop]. quiet_step.
  apply within_bind_0; [apply within_set_timeout_length|]. intros _ sa wa Hwa.
  apply within_bind_1; [apply within_sys_recv|].
  intros [recv_count recv_seg] sb wb Hwb.
  split_if.
  - split_if; apply within_weaken, IH; lia.
  - quiet_step. split_if; [quiet_step|]. quiet_step. exact I.
Qed.

Lemma within_send_close_connection s w :
  within_fuel 1 w (send_close_connection os s w).
Proof.
  unfold send_close_connection.
  apply within_bind_1.
  - apply within_with_fuel. intros fuel Hf. apply within_close_handshake_loop. exact Hf.
  - intros _ sa wa Hwa.
    apply within_bind_0.
    + apply within_weaken, within_with_fuel. intros fuel Hf.
      apply within_await_close_loop. exact Hf.
    + intros _ sb wb Hwb.
      apply within_weaken, within_with_fuel. intros fuel Hf.
      apply within_time_wait_loop. exact Hf.
Qed.

Lemma within_receive_close_loop fuel :
  forall s w,
  (List.length (recv_q w) < fuel)%nat ->
  within_fuel 1 w (receive_close_loop os fuel s w).
Proof.
  induction fuel as [|fuel IH]; intros s w Hf; [lia|].
  cbn [receive_close_loop].
  apply within_bind_1; [apply within_reliable_send|].
  intros recv_seg sa wa Hwa.
  split_if; [quiet_step|].
  apply within_weaken, IH. lia.
Qed.

Lemma within_receive_close_connection s w :
  within_fuel 1 w (receive_close_connection os s w).
Proof.
  unfold receive_close_connection. quiet_step.
  apply within_bind_0; [apply within_set_timeout_length|]. intros _ sa wa Hwa.
  apply within_with_fuel. intros fuel Hf. apply within_receive_close_loop. exact Hf.
Qed.

Lemma within_close_connection s w :
  within_fuel 1 w (close_connection os s w).
Proof.
  unfold close_connection. quiet_step.
  apply within_bind_1.
  - split_if; [apply within_send_close_connection
              | apply within_receive_close_connection].
  - intros _ sa wa Hwa. quiet_step. quiet_step.
    apply within_bind_0; [split_if; quiet_step|]. intros _ sb wb Hwb.
    quiet_step.
Qed.

(** No member function ends by running out of iterations. *)
Theorem never_out_of_fuel (s : ReliableSocket) (w : World) :
  (forall data s' w', send_data os data s w <> Stop OutOfFuel s' w')
  /\ (forall s' w', receive_data os s w <> Stop OutOfFuel s' w')
  /\ (forall hostname port_num s' w',
        connect_to_remote os hostname port_num s w <> Stop OutOfFuel s' w')
  /\ (forall port_num s' w', accept_connection os port_num s w <> Stop OutOfFuel s' w')
  /\ (forall s' w', close_connection os s w <> Stop OutOfFuel s' w')
  /\ (forall seg s' w', reliable_send os seg s w <> Stop OutOfFuel s' w')
  /\ (forall seg s' w', timeout_send os seg s w <> Stop OutOfFuel s' w').
Proof.
  repeat split; intros; intros E.
  - pose proof (within_send_data data s w) as H. rewrite E in H. exact H.
  - pose proof (within_receive_data s w) as H. rewrite E in H. exact H.
  - pose proof (within_connect_to_remote hostname port_num s w) as H.
    rewrite E in H. exact H.
  - pose proof (within_accept_connection port_num s w) as H. rewrite E in H. exact H.
  - pose proof (within_close_connection s w) as H. rewrite E in H. exact H.
  - pose proof (within_reliable_send seg s w) as H. rewrite E in H. exact H.
  - pose proof (within_timeout_send seg s w) as H. rewrite E in H. exact H.
Qed.
End Fuel.

(** * The specification, property by property *)

(** ** C6: the size of the header *)

(** C6, as the code has it.  The header occupies [sizeof(RDTHeader)] bytes
    on the wire, which is 12 and not 9: the struct is not packed, so under
    the natural 4-byte alignment of [uint32_t] the 4-byte sequence number,
    the 4-byte ack number and the 1-byte type tag, at offsets 0, 4 and 8,
    are followed by 3 bytes of padding.  The largest DATA payload is
    [MAX_SEG_SIZE - sizeof(RDTHeader)], that is 1388 bytes for a
    [MAX_SEG_SIZE] of 1400.  A 2-byte alignment would give 10; only a
    packed layout would give 9. *)
Theorem C6_header_is_sizeof_RDTHeader :
  sizeof_RDTHeader = Layout.sizeof (Layout.RDTHeader_fields 4)
  /\ sizeof_RDTHeader = 12
  /\ Layout.offsets (Layout.RDTHeader_fields 4) = [0; 4; 8]
  /\ (forall h, Z.of_nat (List.length (RDTHeader.encode h)) = sizeof_RDTHeader)
  /\ (forall seq data,
        Z.of_nat (List.length (data_segment seq data))
        = sizeof_RDTHeader + Z.of_nat (List.length data))
  /\ MAX_DATA_SIZE = MAX_SEG_SIZE - sizeof_RDTHeader
  /\ MAX_DATA_SIZE = 1388
  /\ Layout.sizeof (Layout.RDTHeader_fields 2) = 10
  /\ Layout.sizeof (Layout.RDTHeader_fields 1) = 9.
Proof.
  repeat split.
  - intros seq data. apply data_segment_length.
Qed.

(** C6 as stated fails: the SYN segment of the handshake, a header and
    nothing else, is 12 bytes long, and [MAX_DATA_SIZE] is not 1391. *)
Lemma C6_counterexample :
  ~ (Z.of_nat (List.length SYN_segment) = 9 /\ MAX_DATA_SIZE = 1391).
Proof. intros [H _]. discriminate H. Qed.

(** ** C3: the estimator *)

(** C3, as the code has it.  The estimator fields are [int]s and every
    compound assignment truncates toward zero:
    [estimated_rtt' = trunc (trunc (0.875 * estimated_rtt) + 0.125 * current_rtt)]
    and
    [dev_rtt' = trunc (trunc (0.75 * dev_rtt) + 0.25 * |current_rtt - estimated_rtt'|)],
    the deviation being taken from the estimate already updated.
    [set_estimated_rtt] then applies [estimated_rtt' + 4 * dev_rtt'] as the
    receive timeout (as a [uint32_t]).  The constructor sets
    [estimated_rtt = 100], [dev_rtt = 10], [current_rtt = 0]. *)
Theorem C3_estimator_truncates (os : Oracle) (s : ReliableSocket) (w : World) (fd : Z) :
  setsockopt_ok os -> 0 <= fd ->
  let est' := Z.quot (8 * Z.quot (7 * estimated_rtt s) 8 + current_rtt s) 8 in
  let dev' :=
    Z.quot (4 * Z.quot (3 * dev_rtt s) 4 + Z.abs (current_rtt s - est')) 4 in
  (exists w',
     set_estimated_rtt os s w = Ret tt (set_rtt est' dev' s) w'
     /\ applied_timeouts (trace w')
        = applied_timeouts (trace w) ++ [to_uint32 (est' + 4 * dev')]
     /\ (0 <= est' + 4 * dev' < 2 ^ 32 ->
         to_uint32 (est' + 4 * dev') = est' + 4 * dev'))
  /\ ReliableSocket_new fd w = Ret tt (mkSocket fd 0 0 100 0 10 INIT) w.
Proof.
  intros Hok Hfd est' dev'. split.
  - exists (timeout_w (to_uint32 (rto (update_rtt s))) w).
    assert (Hs : update_rtt s = set_rtt est' dev' s).
    { unfold update_rtt. rewrite next_dev_rtt_eq, next_estimated_rtt_eq.
      reflexivity. }
    split; [|split].
    + rewrite (set_estimated_rtt_eq os Hok), Hs. reflexivity.
    + rewrite Hs. tsimpl. reflexivity.
    + apply to_uint32_small.
  - unfold ReliableSocket_new.
    destruct (Z.ltb_spec fd 0); [lia | reflexivity].
Qed.

Lemma C3_witness :
  setsockopt_ok calm /\ 0 <= 3
  /\ (exists w',
        set_estimated_rtt calm (set_current_rtt 50 fresh_socket) (world_of [])
        = Ret tt (set_rtt 93 17 (set_current_rtt 50 fresh_socket)) w'
        /\ applied_timeouts (trace w') = [161]).
Proof.
  split; [intros i; reflexivity|]. split; [lia|].
  destruct (C3_estimator_truncates calm (set_current_rtt 50 fresh_socket)
              (world_of []) 3) as [(w' & E & T & _) _].
  - intros i. reflexivity.
  - lia.
  - exists w'. split; [exact E | exact T].
Defined.

(** C3 as stated fails on the freshly constructed socket with a sample of
    0 ms: the exact formulas give 87.5 and 32.5, the code 87 and 28. *)
Lemma C3_counterexample :
  let s := fresh_socket in
  ~ (inject_Z (estimated_rtt (update_rtt s))
       == (1 - alpha) * inject_Z (estimated_rtt s)
          + alpha * inject_Z (current_rtt s)
     /\ inject_Z (dev_rtt (update_rtt s))
       == (1 - beta) * inject_Z (dev_rtt s)
          + beta * inject_Z (Z.abs (current_rtt s - estimated_rtt s)))%Q.
Proof. intros s [H _]. vm_compute in H. discriminate H. Qed.

(** ** C5: receive timeouts in reliable_send *)





(** ** C4: which exchanges feed the estimator *)

(** C4, as the code has it.  Every call of [reliable_send] that returns has
    fed one sample into the estimator, whether or not receive timeouts and
    retransmissions came before the reply: the time between the last
    transmission and the arrival of the reply.  While no reply has arrived
    the estimator is untouched. *)
Theorem C4_every_reply_feeds_a_sample (os : Oracle) (n : nat) (seg : list byte)
    (s : ReliableSocket) (w : World) (d : list byte) (rest : list recv_result) :
  setsockopt_ok os ->
  recv_q w = repeat Timeout n ++ Datagram d :: rest ->
  (exists w',
     reliable_send os seg s w
     = Ret (received d) (update_rtt (set_current_rtt (sample_after os w n) s)) w'
     /\ sends (trace w') = sends (trace w) ++ repeat seg (S n)
     /\ recv_q w' = rest)
  /\ (forall m w2, recv_q w2 = repeat Timeout m ->
        exists w', reliable_send os seg s w2 = Stop Pending s w').
Proof.
  intros Hok Hq. split.
  - destruct (reliable_send_reply os Hok n seg s w d rest Hq) as (w' & E & A & R).
    destruct A as (_ & S & _).
    exists w'. split; [exact E|]. split; [exact S | exact R].
  - intros m w2 Hq2.
    destruct (reliable_send_pending os Hok m seg s w2 Hq2) as (w' & E & _).
    exists w'. exact E.
Qed.

Lemma C4_witness :
  setsockopt_ok calm
  /\ recv_q (world_of late_reply) = repeat Timeout 1 ++ Datagram SYNACK_segment :: []
  /\ exists w',
       reliable_send calm SYN_segment fresh_socket (world_of late_reply)
       = Ret SYNACK_segment (set_rtt 93 17 (set_current_rtt 50 fresh_socket)) w'.
Proof.
  split; [intros i; reflexivity|]. split; [reflexivity|].
  destruct (C4_every_reply_feeds_a_sample calm 1 SYN_segment fresh_socket
              (world_of late_reply) SYNACK_segment [])
    as [(w' & E & _) _].
  - intros i. reflexivity.
  - reflexivity.
  - exists w'. exact E.
Defined.

(** C4 as stated fails: a segment that timed out once and was answered
    after its retransmission changes the estimator, from 100 and 10 to
    93 and 17. *)
Lemma C4_counterexample :
  let o := reliable_send calm SYN_segment fresh_socket (world_of late_reply) in
  ~ (estimated_rtt (final_socket o) = estimated_rtt fresh_socket
     /\ dev_rtt (final_socket o) = dev_rtt fresh_socket).
Proof. intros o [H _]. vm_compute in H. discriminate H. Qed.

(** ** C7: channel errors *)

Lemma send_perrors_failed (os : Oracle) (msg : string) (i : nat) :
  send_errno os i <> 0 -> send_perrors os msg i 1 = [msg].
Proof.
  intros H. unfold send_perrors. cbn [seq flat_map].
  apply Z.eqb_neq in H. rewrite H. reflexivity.
Qed.

(** C7, as the code has it.  In [reliable_send] and in [timeout_send] a
    failure of [recv] other than a timeout is fatal: it is reported with
    [perror] and the process exits, with no further transmission.  A
    failure of [send] is reported with [perror] and is not fatal: the
    operation goes on to wait for the reply exactly as after a successful
    [send], and returns when the reply (for [timeout_send], the timeout)
    comes. *)
Theorem C7_recv_errors_fatal_send_errors_reported (os : Oracle) (n : nat)
    (ds : list (list byte)) (seg : list byte) (s : ReliableSocket)
    (w : World) (e : Z) (rest : list recv_result) :
  setsockopt_ok os ->
  e <> EAGAIN ->
  recv_q w = repeat Timeout n ++ RecvError e :: rest ->
  (exists w',
     reliable_send os seg s w = Stop Exited s w'
     /\ sends (trace w') = sends (trace w) ++ repeat seg (S n)
     /\ perrors (trace w')
        = perrors (trace w)
            ++ send_perrors os "reliable_send send" (n_send w) (S n)
            ++ ["ACK not received"%string]
     /\ recv_q w' = rest)
  /\ (forall w2, recv_q w2 = map Datagram ds ++ RecvError e :: rest ->
        exists w',
          timeout_send os seg s w2 = Stop Exited s w'
          /\ sends (trace w') = sends (trace w2) ++ repeat seg (S (List.length ds))
          /\ perrors (trace w')
             = perrors (trace w2)
                 ++ send_perrors os "timeout_send send" (n_send w2)
                                 (S (List.length ds))
                 ++ ["timeout_send recv"%string]
          /\ recv_q w' = rest)
  /\ (forall w3 d, recv_q w3 = Datagram d :: rest ->
        send_errno os (n_send w3) <> 0 ->
        exists s' w',
          reliable_send os seg s w3 = Ret (received d) s' w'
          /\ sends (trace w') = sends (trace w3) ++ [seg]
          /\ perrors (trace w') = perrors (trace w3) ++ ["reliable_send send"%string]
          /\ recv_q w' = rest)
  /\ (forall w4, recv_q w4 = Timeout :: rest ->
        send_errno os (n_send w4) <> 0 ->
        exists w',
          timeout_send os seg s w4 = Ret tt s w'
          /\ sends (trace w') = sends (trace w4) ++ [seg]
          /\ perrors (trace w') = perrors (trace w4) ++ ["timeout_send send"%string]
          /\ recv_q w' = rest).
Proof.
  intros Hok He Hq. split; [|split; [|split]].
  - destruct (reliable_send_error os Hok n seg s w e rest Hq He) as (w' & E & A & R).
    destruct A as (_ & S & _ & P & _).
    exists w'. repeat split; assumption.
  - intros w2 Hq2.
    destruct (timeout_send_error os Hok ds seg s w2 e rest Hq2 He) as (w' & E & A & R).
    destruct A as (_ & S & _ & P & _).
    exists w'. repeat split; assumption.
  - intros w3 d Hq3 Hfail.
    destruct (reliable_send_reply os Hok 0 seg s w3 d rest Hq3) as (w' & E & A & R).
    destruct A as (_ & S & _ & P & _).
    rewrite (send_perrors_failed os _ _ Hfail) in P.
    eexists. exists w'. repeat split; eassumption.
  - intros w4 Hq4 Hfail.
    destruct (timeout_send_done os Hok [] seg s w4 rest Hq4) as (w' & E & A & R).
    destruct A as (_ & S & _ & P & _). cbn [List.length] in P.
    rewrite (send_perrors_failed os _ _ Hfail) in P.
    exists w'. repeat split; assumption.
Qed.

Lemma C7_witness :
  setsockopt_ok send_failing /\ 5 <> EAGAIN
  /\ recv_q (world_of [RecvError 5]) = repeat Timeout 0 ++ RecvError 5 :: []
  /\ (exists w',
        reliable_send send_failing SYN_segment fresh_socket (world_of [RecvError 5])
        = Stop Exited fresh_socket w'
        /\ perrors (trace w') = ["reliable_send send"; "ACK not received"]%string)
  /\ (exists s' w',
        reliable_send send_failing SYN_segment fresh_socket
                      (world_of [Datagram SYNACK_segment])
        = Ret SYNACK_segment s' w'
        /\ perrors (trace w') = ["reliable_send send"%string]).
Proof.
  split; [intros i; reflexivity|]. split; [discriminate|]. split; [reflexivity|].
  destruct (C7_recv_errors_fatal_send_errors_reported send_failing 0 []
              SYN_segment fresh_socket (world_of [RecvError 5]) 5 [])
    as ((w' & E & _ & P & _) & _ & H3 & _).
  - intros i. reflexivity.
  - discriminate.
  - reflexivity.
  - split.
    + exists w'. split; [exact E | exact P].
    + destruct (H3 (world_of [Datagram SYNACK_segment]) SYNACK_segment eq_refl)
        as (s' & w3 & E3 & _ & P3 & _).
      * discriminate.
      * exists s', w3. split; [exact E3 | exact P3].
Defined.

(** C7 as stated fails: with every [send] failing, [reliable_send] is not
    terminated; it reports the failure, waits, and returns the reply. *)
Lemma C7_counterexample :
  let o := reliable_send send_failing SYN_segment fresh_socket
                         (world_of [Datagram SYNACK_segment]) in
  send_errno send_failing 0 <> 0
  /\ (exists s' w', o = Ret SYNACK_segment s' w')
  /\ ~ (exists s' w', o = Stop Exited s' w').
Proof.
  intros o. split; [discriminate|]. split.
  - vm_compute. do 2 eexists. reflexivity.
  - intros (s' & w' & H). vm_compute in H. discriminate H.
Qed.

(** ** C2: send_data *)

Lemma data_segment_fields (seq : Z) (data : list byte) :
  is_type (data_segment seq data) RDT_DATA = true
  /\ seq_of (data_segment seq data) = to_uint32 seq
  /\ payload_of (data_segment seq data) = data.
Proof.
  split; [|split].
  - apply is_type_header_segment. reflexivity.
  - unfold seq_of, data_segment, header_segment.
    apply hdr_sequence_number_encode.
  - reflexivity.
Qed.

(** C2.  In state [ESTABLISHED], [send_data] sends the payload after a DATA
    header carrying the current sequence number.  Whatever comes back that
    is not an ACK of that sequence number (a timeout, another type, an ACK
    of another number) makes it send the same segment again, without
    advancing: as long as no such ACK has come the call is still in
    progress and the counter is unchanged.  When that ACK comes, the
    counter is incremented by one (as a [uint32_t]) and the call returns. *)
Theorem C2_send_data_stop_and_wait (os : Oracle) (data : list byte)
    (s : ReliableSocket) (w : World) (rs : list (nat * list byte)) (n : nat)
    (d : list byte) (rest : list recv_result) :
  setsockopt_ok os ->
  state s = ESTABLISHED ->
  Z.of_nat (List.length data) <= MAX_DATA_SIZE ->
  Forall (fun r => acks (sequence_number s) (received (snd r)) = false) rs ->
  acks (sequence_number s) (received d) = true ->
  recv_q w = exchanges rs ++ repeat Timeout n ++ Datagram d :: rest ->
  let seg := data_segment (sequence_number s) data in
  (exists s' w',
     send_data os data s w = Ret tt s' w'
     /\ sequence_number s' = to_uint32 (sequence_number s + 1)
     /\ (0 <= sequence_number s < 2 ^ 32 - 1 ->
         sequence_number s' = sequence_number s + 1)
     /\ state s' = ESTABLISHED
     /\ recv_q w' = rest
     /\ sends (trace w') = sends (trace w) ++ repeat seg (transmissions rs + S n))
  /\ (forall m w2, recv_q w2 = exchanges rs ++ repeat Timeout m ->
        exists s' w',
          send_data os data s w2 = Stop Pending s' w'
          /\ sequence_number s' = sequence_number s
          /\ sends (trace w')
             = sends (trace w2) ++ repeat seg (transmissions rs + S m))
  /\ is_type seg RDT_DATA = true
  /\ seq_of seg = to_uint32 (sequence_number s)
  /\ payload_of seg = data.
Proof.
  intros Hok Hs Hlen Hall Hack Hq seg. split; [|split].
  - destruct (send_data_acked os Hok data s w rs n d rest Hs Hlen Hall Hack Hq)
      as (s' & w' & E & Q & T & R & S).
    exists s', w'. split; [exact E|]. split; [exact Q|].
    split; [|split; [exact T | split; [exact R | exact S]]].
    intros Hr. rewrite Q. apply to_uint32_small. lia.
  - intros m w2 Hq2.
    destruct (send_data_unacked os Hok data s w2 rs m Hs Hlen Hall Hq2)
      as (s' & w' & E & Q & _ & S).
    exists s', w'. split; [exact E|]. split; [exact Q | exact S].
  - apply data_segment_fields.
Qed.

Lemma C2_witness :
  setsockopt_ok calm
  /\ state open_socket = ESTABLISHED
  /\ Z.of_nat (List.length [x61; x62]) <= MAX_DATA_SIZE
  /\ recv_q (world_of stale_then_acked)
     = exchanges [(1%nat, ACK_segment 7)]
         ++ repeat Timeout 0 ++ Datagram (ACK_segment 0) :: []
  /\ exists s' w',
       send_data calm [x61; x62] open_socket (world_of stale_then_acked)
       = Ret tt s' w'
       /\ sequence_number s' = 1
       /\ sends (trace w') = repeat (data_segment 0 [x61; x62]) 3.
Proof.
  split; [intros i; reflexivity|]. split; [reflexivity|].
  split; [vm_compute; discriminate|]. split; [reflexivity|].
  destruct (C2_send_data_stop_and_wait calm [x61; x62] open_socket
              (world_of stale_then_acked) [(1%nat, ACK_segment 7)] 0%nat
              (ACK_segment 0) [])
    as ((s' & w' & E & Q & _ & _ & _ & S) & _).
  - intros i. reflexivity.
  - reflexivity.
  - vm_compute. discriminate.
  - constructor; [reflexivity | constructor].
  - reflexivity.
  - reflexivity.
  - exists s', w'. split; [exact E|]. split; [exact Q | exact S].
Defined.

(** ** C1: receive_data *)

(** C1.  In state [ESTABLISHED], every DATA segment that [receive_data]
    gets is answered at once by an ACK carrying the sequence number of that
    segment, in a header of twelve bytes.  A segment whose sequence number
    is not the one the receiver expects (its [sequence_number] field) is
    then dropped: the counter stays, nothing is delivered and the call goes
    on waiting.  For the segment that carries the expected number the
    counter is incremented by one (as a [uint32_t]) and the length of the
    data is computed as the length of the datagram minus
    [sizeof(RDTHeader)], 12.  When that is not negative the data are copied
    to the caller and their length returned.  When it is negative, that is
    for a datagram of 9, 10 or 11 bytes (sequence number, ack number and
    type, but not the padding of the struct), the segment has been
    acknowledged and counted, and [memcpy] is called with the negative
    length: nothing is delivered and the behaviour is undefined. *)
Theorem C1_receive_data_acks_all_counts_expected (os : Oracle)
    (ds : list (list byte)) (d : list byte) (s : ReliableSocket) (w : World)
    (rest : list recv_result) :
  setsockopt_ok os ->
  state s = ESTABLISHED ->
  Forall (fun x => is_type (received x) RDT_DATA = true
                   /\ seq_of (received x) <> sequence_number s) ds ->
  is_type (received d) RDT_DATA = true ->
  seq_of (received d) = sequence_number s ->
  recv_q w = map Datagram ds ++ Datagram d :: rest ->
  (exists s' w',
     receive_data os s w
     = (if Z.of_nat (List.length (received d)) - sizeof_RDTHeader <? 0
        then Stop Fault s' w'
        else Ret (Z.of_nat (List.length (received d)) - sizeof_RDTHeader,
                  skipn 12 (received d)) s' w')
     /\ sequence_number s' = (sequence_number s + 1) mod 2 ^ 32
     /\ state s' = ESTABLISHED
     /\ sock_fd s' = sock_fd s
     /\ estimated_rtt s' = estimated_rtt s
     /\ dev_rtt s' = dev_rtt s
     /\ sends (trace w')
        = sends (trace w) ++ map (fun x => ack_of (received x)) (ds ++ [d])
     /\ recv_q w' = rest)
  /\ (forall w2, recv_q w2 = map Datagram ds ->
        exists w',
          receive_data os s w2 = Stop Pending s w'
          /\ sends (trace w')
             = sends (trace w2) ++ map (fun x => ack_of (received x)) ds)
  /\ (forall x,
        is_type (ack_of (received x)) RDT_ACK = true
        /\ seq_of (ack_of (received x)) = seq_of (received x)
        /\ ntohl (hdr_ack_number (ack_of (received x))) = seq_of (received x)
        /\ List.length (ack_of (received x)) = 12%nat)
  /\ sizeof_RDTHeader = 12.
Proof.
  intros Hok Hs Hall Hty Hseq Hq. split; [|split; [|split]].
  - destruct (receive_data_expected os Hok ds d s w rest Hs Hall Hty Hseq Hq)
      as (w' & E & A & R).
    destruct A as (_ & S & _).
    exists (set_sequence_number (to_uint32 (sequence_number s + 1)) s), w'.
    split; [exact E|]. split; [reflexivity|]. split; [exact Hs|].
    split; [reflexivity|]. split; [reflexivity|]. split; [reflexivity|].
    split; [exact S | exact R].
  - intros w2 Hq2.
    destruct (receive_data_discards os Hok ds s w2 Hs Hall Hq2) as (w' & E & A & _).
    destruct A as (_ & S & _).
    exists w'. split; [exact E | exact S].
  - intros x. repeat split.
  - reflexivity.
Qed.

Lemma C1_witness :
  setsockopt_ok calm
  /\ state open_socket = ESTABLISHED
  /\ sequence_number open_socket = 0
  /\ (exists s' w',
        receive_data calm open_socket
          (world_of (map Datagram out_of_order ++ [Datagram in_order]))
        = Ret (2, [x68; x69]) s' w'
        /\ sequence_number s' = 1
        /\ sends (trace w')
           = [[x00; x00; x00; x03; x00; x00; x00; x03; x02; x00; x00; x00];
              [x00; x00; x00; x00; x00; x00; x00; x00; x02; x00; x00; x00]])
  /\ (exists s' w',
        receive_data calm open_socket
          (world_of [Datagram [x00; x00; x00; x00; x00; x00; x00; x00; x03]])
        = Stop Fault s' w'
        /\ sequence_number s' = 1
        /\ sends (trace w')
           = [[x00; x00; x00; x00; x00; x00; x00; x00; x02; x00; x00; x00]]).
Proof.
  split; [intros i; reflexivity|]. split; [reflexivity|]. split; [reflexivity|].
  split.
  - destruct (C1_receive_data_acks_all_counts_expected calm out_of_order in_order
                open_socket
                (world_of (map Datagram out_of_order ++ [Datagram in_order])) [])
      as ((s' & w' & E & N & _ & _ & _ & _ & S & _) & _).
    + intros i. reflexivity.
    + reflexivity.
    + constructor; [|constructor]. split; [reflexivity | vm_compute; discriminate].
    + reflexivity.
    + reflexivity.
    + reflexivity.
    + exists s', w'. split; [exact E|]. split; [exact N | exact S].
  - destruct (C1_receive_data_acks_all_counts_expected calm []
                [x00; x00; x00; x00; x00; x00; x00; x00; x03] open_socket
                (world_of [Datagram [x00; x00; x00; x00; x00; x00; x00; x00; x03]]) [])
      as ((s' & w' & E & N & _ & _ & _ & _ & S & _) & _).
    + intros i. reflexivity.
    + reflexivity.
    + constructor.
    + reflexivity.
    + reflexivity.
    + reflexivity.
    + exists s', w'. split; [exact E|]. split; [exact N | exact S].
Defined.

(** ** C8: the wait after the final ACK *)

Lemma close_segment_nonempty (d : list byte) :
  is_type (received d) RDT_CLOSE = true -> d <> [].
Proof. intros H ->. discriminate H. Qed.

(** C8.  In the teardown that this side starts, once the CLOSE of the peer
    has been received the socket sends the final ACK and sets the receive
    timeout to [TIME_WAIT], 4000 ms, and every datagram of at least one
    byte that arrives during the wait makes it send the ACK again and set
    the same timeout again.  The wait does not last until the time has
    passed in silence, though: it tests [recv(...) > 0], so a datagram of
    no bytes counts as a failure of [recv], which did not set [errno].
    When the CLOSE of the peer came after a receive timeout and every
    [send] succeeded, [errno] still holds [EAGAIN]: the wait ends at that
    datagram, with no timeout of the wait having occurred, and
    [close_connection] sets the state to [CLOSED] and closes the socket
    while datagrams are still arriving. *)
Theorem C8_time_wait_ends_at_empty_datagram (os : Oracle) (n : nat)
    (a : list byte) (noise : list recv_result) (c : list byte)
    (cs : list (list byte)) (s : ReliableSocket) (w : World)
    (rest : list recv_result) :
  setsockopt_ok os ->
  (forall i, send_errno os i = 0) ->
  state s <> FIN ->
  is_type (received a) RDT_ACK || is_type (received a) RDT_CLOSE = true ->
  Forall (fun r => is_close r = false) noise ->
  is_type (received c) RDT_CLOSE = true ->
  Forall (fun d => d <> []) cs ->
  recv_q w = repeat Timeout n ++ Datagram a :: noise
               ++ Timeout :: Datagram c :: map Datagram cs
               ++ Datagram [] :: rest ->
  TIME_WAIT = 4000
  /\ (exists s' w' pre,
        close_connection os s w = Ret tt s' w'
        /\ state s' = CLOSED
        /\ recv_q w' = rest
        /\ sends (trace w')
           = sends (trace w) ++ repeat CLOSE_segment (S n)
               ++ repeat (ACK_segment 0) (S (List.length cs))
        /\ applied_timeouts (trace w')
           = applied_timeouts (trace w) ++ pre
               ++ repeat 4000 (S (List.length cs))
        /\ closes (trace w') = S (closes (trace w)))
  /\ CLOSE_segment = [x00; x00; x00; x00; x00; x00; x00; x00; x04; x00; x00; x00]
  /\ ACK_segment 0 = [x00; x00; x00; x00; x00; x00; x00; x00; x02; x00; x00; x00].
Proof.
  intros Hok Hsend Hs Ha Hnoise Hc Hcs Hq.
  split; [reflexivity|]. split; [|split; reflexivity].
  apply (close_connection_cut_short os Hok n a noise c cs s w rest); assumption.
Qed.

Lemma C8_witness :
  setsockopt_ok calm
  /\ state open_socket <> FIN
  /\ exists s' w',
       close_connection calm open_socket
         (world_of [Datagram (ACK_segment 0); Timeout; Datagram CLOSE_segment;
                    Datagram []; Datagram CLOSE_segment])
       = Ret tt s' w'
       /\ state s' = CLOSED
       /\ recv_q w' = [Datagram CLOSE_segment]
       /\ sends (trace w')
          = [[x00; x00; x00; x00; x00; x00; x00; x00; x04; x00; x00; x00];
             [x00; x00; x00; x00; x00; x00; x00; x00; x02; x00; x00; x00]]
       /\ closes (trace w') = 1%nat.
Proof.
  split; [intros i; reflexivity|]. split; [discriminate|].
  destruct (C8_time_wait_ends_at_empty_datagram calm 0 (ACK_segment 0) []
              CLOSE_segment [] open_socket
              (world_of [Datagram (ACK_segment 0); Timeout; Datagram CLOSE_segment;
                         Datagram []; Datagram CLOSE_segment])
              [Datagram CLOSE_segment])
    as (_ & (s' & w' & pre & E & T & R & S & _ & X) & _).
  - intros i. reflexivity.
  - intros i. reflexivity.
  - discriminate.
  - reflexivity.
  - constructor.
  - reflexivity.
  - constructor.
  - reflexivity.
  - exists s', w'. split; [exact E|]. split; [exact T|]. split; [exact R|].
    split; [exact S | exact X].
Defined.

(** ** C10: the reply to the SYN *)

(** C10.  In [connect_to_remote], whatever the type of the reply to the
    SYN, the final ACK is sent (until a receive timeout follows it) and the
    state becomes [ESTABLISHED]; a reply that is not a SYNACK adds the
    message "Message was not a SYNACK" to what [perror] prints, and nothing
    else.  The SYN is the header of type [RDT_SYN] with both numbers 0, the
    final ACK the header of type [RDT_ACK] with both numbers 0, twelve
    bytes each. *)
Theorem C10_connect_established_whatever_the_reply (os : Oracle)
    (hostname : string) (port_num : Z) (n : nat) (d : list byte)
    (ds : list (list byte)) (s : ReliableSocket) (w : World)
    (rest : list recv_result) :
  setsockopt_ok os ->
  state s = INIT ->
  recv_q w = repeat Timeout n ++ Datagram d :: map Datagram ds ++ Timeout :: rest ->
  exists s' w',
    connect_to_remote os hostname port_num s w = Ret tt s' w'
    /\ state s' = ESTABLISHED
    /\ recv_q w' = rest
    /\ sends (trace w')
       = sends (trace w) ++ repeat SYN_segment (S n)
           ++ repeat (ACK_segment 0) (S (List.length ds))
    /\ perrors (trace w')
       = perrors (trace w)
           ++ (if misc_errno os (n_misc w) =? 0 then [] else ["connect"%string])
           ++ send_perrors os "reliable_send send" (n_send w) (S n)
           ++ (if is_type (received d) RDT_SYNACK then []
               else ["Message was not a SYNACK"%string])
           ++ send_perrors os "timeout_send send" (n_send w + S n)
                           (S (List.length ds))
    /\ SYN_segment = [x00; x00; x00; x00; x00; x00; x00; x00; x00; x00; x00; x00]
    /\ ACK_segment 0 = [x00; x00; x00; x00; x00; x00; x00; x00; x02; x00; x00; x00]
    /\ is_type SYN_segment RDT_SYN = true
    /\ is_type (ACK_segment 0) RDT_ACK = true
    /\ seq_of (ACK_segment 0) = 0
    /\ ntohl (hdr_ack_number (ACK_segment 0)) = 0.
Proof.
  intros Hok Hs Hq.
  destruct (connect_to_remote_established os Hok hostname port_num n d ds s w rest
              Hs Hq) as (s' & w' & tos & k & E & T & _ & R & A).
  destruct A as (_ & S & _ & P & _).
  exists s', w'. split; [exact E|]. split; [exact T|]. split; [exact R|].
  split; [exact S|]. split; [exact P|]. repeat split.
Qed.

Lemma C10_witness :
  setsockopt_ok calm
  /\ state fresh_socket = INIT
  /\ recv_q (world_of odd_handshake)
     = repeat Timeout 0 ++ Datagram (data_segment 0 [])
         :: map Datagram [] ++ Timeout :: []
  /\ exists s' w',
       connect_to_remote calm "peer" 8080 fresh_socket (world_of odd_handshake)
       = Ret tt s' w'
       /\ state s' = ESTABLISHED
       /\ sends (trace w')
          = [[x00; x00; x00; x00; x00; x00; x00; x00; x00; x00; x00; x00];
             [x00; x00; x00; x00; x00; x00; x00; x00; x02; x00; x00; x00]]
       /\ perrors (trace w') = ["Message was not a SYNACK"%string].
Proof.
  split; [intros i; reflexivity|]. split; [reflexivity|]. split; [reflexivity|].
  destruct (C10_connect_established_whatever_the_reply calm "peer" 8080 0
              (data_segment 0 []) [] fresh_socket (world_of odd_handshake) [])
    as (s' & w' & E & T & _ & S & P & _).
  - intros i. reflexivity.
  - reflexivity.
  - reflexivity.
  - exists s', w'. split; [exact E|]. split; [exact T|]. split; [exact S | exact P].
Defined.

(** ** C9: calls in a state that does not allow them *)

(** What the public operations do in a state that is not theirs.
    [send_data] and [receive_data] in a state other than [ESTABLISHED], and
    [connect_to_remote] and [accept_connection] in a state other than
    [INIT], are rejected ([accept_connection] by ending the process)
    without anything being handed to [send] and without touching the
    object.  [close_connection] only tells [FIN] from the rest: in every
    other state, [INIT] and [CLOSED] included, it runs the teardown it
    would start from [ESTABLISHED], sending a CLOSE segment and sending it
    again at every timeout. *)
Lemma calls_in_wrong_state (os : Oracle) (s : ReliableSocket) (w : World) :
  setsockopt_ok os ->
  (forall data, state s <> ESTABLISHED ->
     exists w', send_data os data s w = Ret tt s w'
                /\ sends (trace w') = sends (trace w) /\ recv_q w' = recv_q w)
  /\ (state s <> ESTABLISHED ->
      exists w', receive_data os s w = Ret (0, []) s w'
                 /\ sends (trace w') = sends (trace w) /\ recv_q w' = recv_q w)
  /\ (forall hostname port_num, state s <> INIT ->
      exists w', connect_to_remote os hostname port_num s w = Ret tt s w'
                 /\ sends (trace w') = sends (trace w) /\ recv_q w' = recv_q w)
  /\ (forall port_num, state s <> INIT ->
      exists w', accept_connection os port_num s w = Stop Exited s w'
                 /\ sends (trace w') = sends (trace w) /\ recv_q w' = recv_q w)
  /\ (forall n, state s <> FIN -> recv_q w = repeat Timeout n ->
      exists w', close_connection os s w = Stop Pending s w'
                 /\ sends (trace w')
                    = sends (trace w) ++ repeat CLOSE_segment (S n)).
Proof.
  intros Hok. split; [|split; [|split; [|split]]].
  - intros data Hs. eexists. split; [apply send_data_rejected; exact Hs|].
    tsimpl. split; reflexivity.
  - intros Hs. eexists. split; [apply (receive_data_rejected os Hok); exact Hs|].
    tsimpl. split; reflexivity.
  - intros hostname port_num Hs. eexists.
    split; [apply connect_to_remote_rejected; exact Hs|].
    tsimpl. split; reflexivity.
  - intros port_num Hs. eexists.
    split; [apply accept_connection_rejected; exact Hs|].
    tsimpl. split; reflexivity.
  - intros n Hs Hq. apply (close_connection_unanswered os Hok n s w Hs Hq).
Qed.

(** C9 does not hold of [close_connection].  On a socket that was never
    connected (state [INIT]) the other operations that need a connection
    are rejected without a call of [send], but [close_connection] is not:
    it hands a CLOSE segment to [send], does so again after the timeout,
    and is still waiting for a reply, whether [send] succeeds or fails. *)
Theorem C9_close_connection_unguarded :
  state fresh_socket = INIT
  /\ (exists w',
        send_data calm [x61] fresh_socket (world_of [Timeout])
        = Ret tt fresh_socket w'
        /\ sends (trace w') = [])
  /\ (exists w',
        receive_data calm fresh_socket (world_of [Timeout])
        = Ret (0, []) fresh_socket w'
        /\ sends (trace w') = [])
  /\ (exists w',
        close_connection calm fresh_socket (world_of [Timeout])
        = Stop Pending fresh_socket w'
        /\ sends (trace w') = [CLOSE_segment; CLOSE_segment])
  /\ (exists w',
        close_connection send_failing fresh_socket (world_of [Timeout])
        = Stop Pending fresh_socket w'
        /\ sends (trace w') = [CLOSE_segment; CLOSE_segment]
        /\ perrors (trace w') = ["reliable_send send"; "reliable_send send"]%string).
Proof.
  split; [reflexivity|].
  destruct (calls_in_wrong_state calm fresh_socket (world_of [Timeout]))
    as (H1 & H2 & _ & _ & H5); [intros i; reflexivity|].
  split; [|split; [|split]].
  - destruct (H1 [x61]) as (w' & E & S & _); [discriminate|].
    exists w'. split; [exact E | exact S].
  - destruct H2 as (w' & E & S & _); [discriminate|].
    exists w'. split; [exact E | exact S].
  - destruct (H5 1%nat) as (w' & E & S); [discriminate | reflexivity|].
    exists w'. split; [exact E | exact S].
  - vm_compute. eexists. split; [reflexivity|]. split; reflexivity.
Qed.

(** * Further properties of the code *)

(** ** What the operations may do, whatever the operating system answers *)

Lemma sends_only (P : list byte -> Prop) (sys : event -> Prop) (d : list event) :
  Forall (only P sys) d -> Forall P (sends d).
Proof.
  induction 1 as [|e d He _ IH]; [constructor|].
  destruct e; cbn in *; try exact IH. constructor; assumption.
Qed.

Lemma calls_only (P : list byte -> Prop) (sys : event -> Prop) (d : list event) :
  Forall (only P sys) d -> Forall sys (calls d).
Proof.
  induction 1 as [|e d He _ IH]; [constructor|].
  destruct e; cbn in *; try exact IH; constructor; assumption.
Qed.

Lemma calls_app (a b : list event) : calls (a ++ b) = calls a ++ calls b.
Proof. apply filter_app. Qed.

Lemma no_calls (d : list event) : Forall no_call (calls d) -> calls d = [].
Proof. destruct (calls d) as [|e l]; [reflexivity|]. intros H. inversion H as [|? ? []]. Qed.

Lemma Forall_eq_repeat {A} (x : A) (l : list A) :
  Forall (eq x) l -> l = repeat x (List.length l).
Proof. induction 1 as [|y l <- _ IH]; [reflexivity|]. cbn. f_equal. exact IH. Qed.

Lemma closes_calls (tr : list event) : closes tr = closes (calls tr).
Proof.
  unfold closes, calls. induction tr as [|e tr IH]; [reflexivity|].
  destruct e; cbn; rewrite ?IH; reflexivity.
Qed.

Lemma obeys_ret {A} E X (Q : A -> ReliableSocket -> Prop) a s w :
  Q a s -> obeys E X Q (trace w) (Ret a s w).
Proof.
  intros Hq. split; [|exact Hq].
  exists []. rewrite app_nil_r. split; [reflexivity | constructor].
Qed.

Lemma obeys_stop {A} E (X : ReliableSocket -> Prop) (Q : A -> ReliableSocket -> Prop) why s w :
  X s -> obeys E X Q (trace w) (Stop why s w).
Proof.
  intros Hx. split; [|exact Hx].
  exists []. rewrite app_nil_r. split; [reflexivity | constructor].
Qed.

(** Events already emitted. *)
Lemma obeys_after {A} E X (Q : A -> ReliableSocket -> Prop) t d o :
  Forall E d -> obeys E X Q (t ++ d) o -> obeys E X Q t o.
Proof.
  intros Hd ((d' & Ht & Hd') & Hq). split; [|exact Hq].
  exists (d ++ d'). rewrite Ht, app_assoc. split; [reflexivity|].
  apply Forall_app. split; assumption.
Qed.

Lemma obeys_weaken {A} (E : event -> Prop) (X X' : ReliableSocket -> Prop)
    (Q Q' : A -> ReliableSocket -> Prop) t o :
  obeys E X Q t o ->
  (forall s', X s' -> X' s') ->
  (forall a s', Q a s' -> Q' a s') ->
  obeys E X' Q' t o.
Proof.
  intros (Hd & Hq) Hx Hq'. split; [exact Hd|].
  destruct o; [apply Hq' | apply Hx]; exact Hq.
Qed.

(** A call of [m], then [f] on what it returns. *)
Lemma obeys_bind {A B} E (X0 X : ReliableSocket -> Prop)
    (Q0 : A -> ReliableSocket -> Prop) (Q : B -> ReliableSocket -> Prop)
    (m : M A) (f : A -> M B) s w :
  obeys E X0 Q0 (trace w) (m s w) ->
  (forall s', X0 s' -> X s') ->
  (forall a s' w', Q0 a s' -> obeys E X Q (trace w') (f a s' w')) ->
  obeys E X Q (trace w) (bind m f s w).
Proof.
  unfold bind. intros ((d & Ht & Hd) & Hq) Hx Hf.
  destruct (m s w) as [a s' w'|why s' w']; cbn in Ht.
  - specialize (Hf a s' w' Hq). rewrite Ht in Hf.
    eapply obeys_after; [exact Hd | exact Hf].
  - split; [|apply Hx; exact Hq]. exists d. split; assumption.
Qed.

(** One call that returns, leaving the object as it was. *)
Lemma obeys_step {A B} E X (Q : B -> ReliableSocket -> Prop)
    (m : M A) (f : A -> M B) s w a w1 d :
  m s w = Ret a s w1 ->
  trace w1 = trace w ++ d ->
  Forall E d ->
  obeys E X Q (trace w1) (f a s w1) ->
  obeys E X Q (trace w) (bind m f s w).
Proof.
  intros Hm Ht Hd Hf. unfold bind. rewrite Hm. rewrite Ht in Hf.
  eapply obeys_after; [exact Hd | exact Hf].
Qed.

(** A last call that returns. *)
Lemma obeys_last {A} E X (Q : A -> ReliableSocket -> Prop) (m : M A) s w a s' w1 d :
  m s w = Ret a s' w1 ->
  trace w1 = trace w ++ d ->
  Forall E d ->
  Q a s' ->
  obeys E X Q (trace w) (m s w).
Proof.
  intros Hm Ht Hd Hq. rewrite Hm. split; [|exact Hq]. exists d. split; assumption.
Qed.

(** An assignment to a member. *)
Lemma obeys_modify {B} E X (Q : B -> ReliableSocket -> Prop)
    (g : ReliableSocket -> ReliableSocket) (f : unit -> M B) s w :
  obeys E X Q (trace w) (f tt (g s) w) ->
  obeys E X Q (trace w) (bind (modify g) f s w).
Proof. intros Hf. exact Hf. Qed.

(** A call of [recv]: nothing is known of what it hands back but
    [recv_ok]. *)
Lemma obeys_recv {B} E (X : ReliableSocket -> Prop)
    (Q : B -> ReliableSocket -> Prop) (f : Z * list byte -> M B) s w :
  X s ->
  (forall rc w1, recv_ok rc -> trace w1 = trace w ->
     obeys E X Q (trace w1) (f rc s w1)) ->
  obeys E X Q (trace w) (bind sys_recv f s w).
Proof.
  intros Hx Hf. unfold bind, sys_recv.
  destruct (recv_q w) as [|[e|d] q].
  - apply obeys_stop. exact Hx.
  - specialize (Hf (-1, []) (received_w (RecvError e) q w)).
    apply Hf; [left; split; reflexivity | reflexivity].
  - specialize (Hf (Z.of_nat (List.length (received d)), received d)
                   (received_w (Datagram d) q w)).
    apply Hf; [|reflexivity]. right. split; [reflexivity|]. cbn [snd].
    unfold received. rewrite length_firstn. unfold MAX_SEG_SIZE. lia.
Qed.

(** A call of [memcpy]: the copy stays in its buffers, or the computation
    stops there. *)
Lemma obeys_memcpy {B} E (X : ReliableSocket -> Prop)
    (Q : B -> ReliableSocket -> Prop) (room count : Z) (f : unit -> M B) s w :
  X s ->
  (0 <= count <= room -> obeys E X Q (trace w) (f tt s w)) ->
  obeys E X Q (trace w) (bind (memcpy room count) f s w).
Proof.
  intros Hx Hf. unfold bind, memcpy.
  destruct (Z.ltb_spec count 0); cbn [orb]; [apply obeys_stop; exact Hx|].
  destruct (Z.ltb_spec room count); [apply obeys_stop; exact Hx|].
  apply Hf. lia.
Qed.

Lemma same_connection_update_rtt s : same_connection s (update_rtt s).
Proof. repeat split. Qed.

Lemma same_connection_set_current_rtt c s : same_connection s (set_current_rtt c s).
Proof. repeat split. Qed.

Ltac events :=
  try match goal with
      | |- context [if ?c then _ else _] => destruct c
      end;
  repeat first [apply Forall_nil | apply Forall_cons];
  cbn [only]; try exact I.

(** A call that returns (by the definition of the callee, or by the
    equation of [send_or_perror]), with what it adds to the trace. *)
Ltac ostep :=
  eapply obeys_step;
  [ first [reflexivity | apply send_or_perror_eq]
  | first [reflexivity | symmetry; apply app_nil_r]
  | events
  | ].

Ltac olast :=
  eapply obeys_last;
  [ first [reflexivity | apply send_or_perror_eq]
  | first [reflexivity | symmetry; apply app_nil_r]
  | events
  | ].

Ltac ocall lem :=
  eapply obeys_bind; [eapply lem | cbv beta | cbv beta].

Ltac split_if' :=
  match goal with
  | |- context [if ?c then _ else _] => destruct c
  end.

Section Obeys.

Variable os : Oracle.

Section Events.

Variable P : list byte -> Prop.
Variable sys : event -> Prop.

(** *** set_timeout_length, set_estimated_rtt *)

Lemma obeys_set_timeout_length ms s w :
  obeys (only P sys) (eq s) (fun (_ : unit) s' => s' = s) (trace w)
        (set_timeout_length os ms s w).
Proof.
  unfold set_timeout_length. ostep. ostep. split_if'.
  - ostep. apply obeys_stop. reflexivity.
  - olast. reflexivity.
Qed.

Lemma obeys_set_estimated_rtt s w :
  obeys (only P sys) (eq (update_rtt s)) (fun (_ : unit) s' => s' = update_rtt s)
        (trace w) (set_estimated_rtt os s w).
Proof.
  unfold set_estimated_rtt. apply obeys_modify. ostep.
  apply obeys_set_timeout_length.
Qed.

(** *** reliable_send and timeout_send: the segment passed, and nothing
    else, is sent; nothing but the estimator is changed *)

Lemma obeys_reliable_send_loop fuel :
  forall seg pt dt s w,
  P seg ->
  obeys (only P sys) (eq s)
        (fun r s' => Z.of_nat (List.length r) <= MAX_SEG_SIZE
                     /\ exists c, s' = set_current_rtt c s)
        (trace w) (reliable_send_loop os fuel seg pt dt s w).
Proof.
  induction fuel as [|fuel IH]; intros seg pt dt s w Hp.
  - apply obeys_stop. reflexivity.
  - cbn [reliable_send_loop]. ostep. ostep; try exact Hp.
    apply obeys_recv; [reflexivity|].
    intros [bytes_received recv_seg] w1 Hrc Ht.
    destruct (bytes_received <? 0) eqn:Hneg.
    + ostep. split_if'.
      * ostep. ostep. ocall obeys_set_timeout_length.
        -- intros s' H. exact H.
        -- intros _ s' w2 ->. apply IH. exact Hp.
      * ostep. apply obeys_stop. reflexivity.
    + ostep. apply obeys_modify. apply obeys_ret. split.
      * destruct Hrc as [[H1 _]|[_ H2]]; [|exact H2].
        cbn [fst] in H1. subst bytes_received. discriminate Hneg.
      * eexists. reflexivity.
Qed.

Lemma obeys_reliable_send seg s w :
  P seg ->
  obeys (only P sys) (same_connection s)
        (fun r s' => Z.of_nat (List.length r) <= MAX_SEG_SIZE /\ same_connection s s')
        (trace w) (reliable_send os seg s w).
Proof.
  intros Hp. unfold reliable_send. ostep.
  ocall obeys_set_timeout_length.
  { intros s' <-. apply same_connection_refl. }
  intros _ s' w1 ->.
  eapply obeys_bind.
  { unfold with_fuel. apply obeys_reliable_send_loop. exact Hp. }
  { intros s' <-. apply same_connection_refl. }
  cbv beta. intros r s' w2 (Hr & c & ->).
  ocall obeys_set_estimated_rtt.
  { intros s' <-. apply same_connection_sample. }
  intros _ s' w3 ->. apply obeys_ret. split; [exact Hr|].
  apply same_connection_sample.
Qed.

Lemma obeys_timeout_send_loop fuel :
  forall seg s w,
  P seg ->
  obeys (only P sys) (eq s) (fun (_ : unit) s' => s' = s) (trace w)
        (timeout_send_loop os fuel seg s w).
Proof.
  induction fuel as [|fuel IH]; intros seg s w Hp.
  - apply obeys_stop. reflexivity.
  - cbn [timeout_send_loop]. ostep; try exact Hp. ostep.
    ocall obeys_set_timeout_length.
    { intros s' H. exact H. }
    intros _ s' w1 ->.
    apply obeys_recv; [reflexivity|]. intros rc w2 Hrc Ht.
    destruct (fst rc <? 0).
    + ostep. split_if'.
      * apply obeys_ret. reflexivity.
      * ostep. apply obeys_stop. reflexivity.
    + apply IH. exact Hp.
Qed.

Lemma obeys_timeout_send seg s w :
  P seg ->
  obeys (only P sys) (eq s) (fun (_ : unit) s' => s' = s) (trace w)
        (timeout_send os seg s w).
Proof. intros Hp. unfold timeout_send, with_fuel. apply obeys_timeout_send_loop. exact Hp. Qed.

End Events.

(** *** send_data *)

Lemma obeys_same_connection {A} E (s s1 : ReliableSocket) t (o : outcome A) :
  same_connection s s1 ->
  obeys E (same_connection s1) (fun _ s' => same_connection s1 s') t o ->
  obeys E (same_connection s) (fun _ s' => same_connection s s') t o.
Proof.
  intros H Ho. eapply obeys_weaken; [exact Ho | |]; cbv beta; intros;
    eapply same_connection_trans; eassumption.
Qed.

Lemma obeys_send_data_loop fuel :
  forall seg s w,
  obeys (only (eq seg) no_call) (same_connection s)
        (fun (_ : unit) s' => same_connection s s')
        (trace w) (send_data_loop os fuel seg s w).
Proof.
  induction fuel as [|fuel IH]; intros seg s w.
  - apply obeys_stop. apply same_connection_refl.
  - cbn [send_data_loop].
    eapply obeys_bind; [apply obeys_reliable_send; reflexivity | |]; cbv beta.
    { intros s' H. exact H. }
    intros r s' w1 (_ & Hs). ostep.
    repeat split_if';
      first [ apply obeys_ret; exact Hs
            | apply (obeys_same_connection _ s s'); [exact Hs | apply IH] ].
Qed.

(** The object after [send_data] has returned. *)
Lemma obeys_send_data data s w :
  obeys (only (eq (data_segment (sequence_number s) data)) no_call)
        (same_connection s)
        (fun (_ : unit) s' =>
           sock_fd s' = sock_fd s
           /\ expected_sequence_number s' = expected_sequence_number s
           /\ state s' = state s
           /\ sequence_number s'
              = if status_eqb (state s) ESTABLISHED
                then to_uint32 (sequence_number s + 1) else sequence_number s)
        (trace w) (send_data os data s w).
Proof.
  unfold send_data. ostep. destruct (status_eqb (state s) ESTABLISHED); cbn [negb].
  - apply obeys_memcpy; [apply same_connection_refl|]. intros _.
    eapply obeys_bind;
      [unfold with_fuel; apply obeys_send_data_loop | |]; cbv beta.
    { intros s' H. exact H. }
    intros _ s' w1 (H1 & H2 & H3 & H4).
    eapply obeys_last; [reflexivity | symmetry; apply app_nil_r | constructor |].
    cbn. rewrite H2. repeat split; assumption.
  - olast. repeat split.
Qed.

(** *** receive_data *)

Lemma obeys_receive_data_loop fuel :
  forall s w,
  obeys (only ack_header no_call)
        (fun s' => s' = s \/ s' = next_sequence s)
        (fun rc s' =>
           0 <= fst rc <= MAX_DATA_SIZE
           /\ Z.of_nat (List.length (snd rc)) = fst rc
           /\ (s' = set_state FIN s /\ rc = (0, []) \/ s' = next_sequence s))
        (trace w) (receive_data_loop os fuel s w).
Proof.
  induction fuel as [|fuel IH]; intros s w.
  - apply obeys_stop. left. reflexivity.
  - cbn [receive_data_loop].
    apply obeys_recv; [left; reflexivity|].
    intros [recv_count recv_seg] w1 Hrc Ht.
    destruct (recv_count <? 0) eqn:Hneg.
    { ostep. apply obeys_stop. left. reflexivity. }
    ostep. ostep. cbv zeta.
    destruct (is_type recv_seg RDT_ACK); [apply IH|].
    destruct (is_type recv_seg RDT_CLOSE).
    { eapply obeys_bind; [apply obeys_timeout_send; split; reflexivity | |];
        cbv beta.
      - intros s' <-. left. reflexivity.
      - intros _ s' w2 ->. apply obeys_modify. apply obeys_ret.
        cbn [fst snd List.length]. unfold MAX_DATA_SIZE, MAX_SEG_SIZE, sizeof_RDTHeader.
        split; [cbn; lia|]. split; [reflexivity|]. left. split; reflexivity. }
    ostep; try (split; reflexivity). ostep.
    destruct (ntohl (hdr_sequence_number recv_seg) =? sequence_number s); [|apply IH].
    apply obeys_modify.
    apply obeys_memcpy; [right; reflexivity|]. intros (Hsize & _).
    apply obeys_ret. cbn [fst snd].
    destruct Hrc as [[H1 _]|[H1 H2]]; cbn [fst snd] in *.
    { subst recv_count. discriminate Hneg. }
    split; [unfold MAX_DATA_SIZE; lia|]. split; [|right; reflexivity].
    rewrite length_firstn, length_skipn.
    change sizeof_RDTHeader with 12 in *. lia.
Qed.

Lemma obeys_receive_data s w :
  obeys (only ack_header no_call)
        (fun s' => s' = s \/ s' = next_sequence s)
        (fun rc s' =>
           0 <= fst rc <= MAX_DATA_SIZE
           /\ Z.of_nat (List.length (snd rc)) = fst rc
           /\ (s' = s /\ rc = (0, []) /\ state s <> ESTABLISHED
               \/ state s = ESTABLISHED
                  /\ (s' = set_state FIN s /\ rc = (0, []) \/ s' = next_sequence s)))
        (trace w) (receive_data os s w).
Proof.
  unfold receive_data.
  eapply obeys_bind; [apply obeys_set_timeout_length | |]; cbv beta.
  { intros s' <-. left. reflexivity. }
  intros _ s' w1 ->. ostep.
  destruct (state s) eqn:Hst; cbn [status_eqb negb];
    try (ostep; apply obeys_ret; cbn [fst snd List.length];
         split; [unfold MAX_DATA_SIZE, MAX_SEG_SIZE; cbn; lia|];
         split; [reflexivity|]; left; repeat split; discriminate).
  eapply obeys_weaken; [unfold with_fuel; apply obeys_receive_data_loop | |];
    cbv beta.
  - intros s' H. exact H.
  - intros rc s' (H1 & H2 & H3). split; [exact H1|]. split; [exact H2|].
    right. split; [reflexivity | exact H3].
Qed.

(** *** connect_to_remote and accept_connection *)

Lemma obeys_perror_when {B} (P : list byte -> Prop) (sys : event -> Prop) X
    (Q : B -> ReliableSocket -> Prop) (c : bool) (msg : string)
    (f : unit -> M B) s w :
  (forall w1, obeys (only P sys) X Q (trace w1) (f tt s w1)) ->
  obeys (only P sys) X Q (trace w) (bind (if c then perror msg else ret tt) f s w).
Proof. intros H. destruct c; ostep; apply H. Qed.

Lemma obeys_connect_to_remote hostname port_num s w :
  obeys (only handshake_segment (eq EvConnect)) (same_connection s)
        (fun (_ : unit) s' =>
           if status_eqb (state s) INIT
           then sock_fd s' = sock_fd s
                /\ sequence_number s' = sequence_number s
                /\ expected_sequence_number s' = expected_sequence_number s
                /\ state s' = ESTABLISHED
           else s' = s)
        (trace w) (connect_to_remote os hostname port_num s w).
Proof.
  unfold connect_to_remote. ostep.
  destruct (status_eqb (state s) INIT); cbn [negb]; [|olast; reflexivity].
  ostep; try reflexivity.
  apply obeys_perror_when. intros ?w.
  ostep.
  eapply obeys_bind; [apply obeys_set_timeout_length | |]; cbv beta.
  { intros s' <-. apply same_connection_refl. }
  intros _ s' wa ->.
  eapply obeys_bind; [apply obeys_reliable_send; left; reflexivity | |]; cbv beta.
  { intros s' H. exact H. }
  intros recv_seg s1 wb (_ & Hs).
  apply obeys_perror_when. intros ?w.
  eapply obeys_bind; [apply obeys_timeout_send; right; reflexivity | |]; cbv beta.
  { intros s' <-. exact Hs. }
  intros _ s' wz ->. apply obeys_modify. olast.
  destruct Hs as (H1 & H2 & H3 & H4). cbn. repeat split; assumption.
Qed.

Lemma obeys_misc {B} (P : list byte -> Prop) (sys : event -> Prop) X
    (Q : B -> ReliableSocket -> Prop) (ev : event) (f : Z -> M B) s w :
  only P sys ev ->
  (forall r w1, obeys (only P sys) X Q (trace w1) (f r s w1)) ->
  obeys (only P sys) X Q (trace w) (bind (sys_misc os ev) f s w).
Proof.
  intros He H. eapply obeys_step; [reflexivity | reflexivity | | apply H].
  constructor; [exact He | constructor].
Qed.

Lemma obeys_accept_loop (sys : event -> Prop) fuel :
  forall s w,
  obeys (only (eq (header_segment 0 0 RDT_SYNACK)) sys) (same_connection s)
        (fun (_ : unit) s' => same_connection s s')
        (trace w) (accept_loop os fuel s w).
Proof.
  induction fuel as [|fuel IH]; intros s w.
  - apply obeys_stop. apply same_connection_refl.
  - cbn [accept_loop]. ostep.
    eapply obeys_bind; [apply obeys_set_timeout_length | |]; cbv beta.
    { intros s' <-. apply same_connection_refl. }
    intros _ s' wa ->.
    eapply obeys_bind; [apply obeys_reliable_send; reflexivity | |]; cbv beta.
    { intros s' H. exact H. }
    intros r s' wb (_ & Hs).
    repeat split_if';
      first [ apply obeys_ret; exact Hs
            | apply (obeys_same_connection _ s s'); [exact Hs | apply IH] ].
Qed.

Lemma obeys_accept_connection port_num s w :
  obeys (only (eq (header_segment 0 0 RDT_SYNACK))
              (fun e => e = EvBind (to_uint16 port_num) \/ e = EvConnect))
        (same_connection s)
        (fun (_ : unit) s' =>
           state s = INIT
           /\ sock_fd s' = sock_fd s
           /\ sequence_number s' = sequence_number s
           /\ expected_sequence_number s' = expected_sequence_number s
           /\ state s' = ESTABLISHED)
        (trace w) (accept_connection os port_num s w).
Proof.
  unfold accept_connection. ostep.
  destruct (state s) eqn:Hst; cbn [status_eqb negb];
    try (ostep; apply obeys_stop; apply same_connection_refl).
  apply obeys_misc; [left; reflexivity|]. intros r wa.
  apply obeys_perror_when. intros wb.
  apply obeys_recv; [apply same_connection_refl|].
  intros [recv_count segment] wc _ _.
  destruct (recv_count <? 0).
  { ostep. apply obeys_stop. apply same_connection_refl. }
  apply obeys_misc; [right; reflexivity|]. intros r' wd.
  destruct (negb (r' =? 0)).
  { ostep. apply obeys_stop. apply same_connection_refl. }
  destruct (negb (is_type segment RDT_SYN)).
  { ostep. ostep. apply obeys_stop. apply same_connection_refl. }
  eapply obeys_bind; [unfold with_fuel; apply obeys_accept_loop | |]; cbv beta.
  { intros s' H. exact H. }
  intros _ s' we (H1 & H2 & H3 & H4). ostep.
  eapply obeys_last; [reflexivity | symmetry; apply app_nil_r | constructor |].
  cbn. repeat split; assumption.
Qed.

(** *** The loops of the teardown *)

Lemma obeys_close_handshake_loop fuel :
  forall s w,
  obeys (only teardown_segment no_call) (same_connection s)
        (fun (_ : unit) s' => same_connection s s')
        (trace w) (close_handshake_loop os fuel s w).
Proof.
  induction fuel as [|fuel IH]; intros s w.
  - apply obeys_stop. apply same_connection_refl.
  - cbn [close_handshake_loop].
    eapply obeys_bind; [apply obeys_reliable_send; left; reflexivity | |]; cbv beta.
    { intros s' H. exact H. }
    intros r s' wb (_ & Hs).
    repeat split_if';
      first [ apply obeys_ret; exact Hs
            | apply (obeys_same_connection _ s s'); [exact Hs | apply IH] ].
Qed.

Lemma obeys_await_close_loop fuel :
  forall s w,
  obeys (only teardown_segment no_call) (eq s)
        (fun (_ : unit) s' => s' = s)
        (trace w) (await_close_loop fuel s w).
Proof.
  induction fuel as [|fuel IH]; intros s w.
  - apply obeys_stop. reflexivity.
  - cbn [await_close_loop]. apply obeys_recv; [reflexivity|].
    intros [recv_count recv_seg] w1 _ _.
    repeat split_if'; first [apply obeys_ret; reflexivity | apply IH].
Qed.

Lemma obeys_time_wait_loop fuel :
  forall s w,
  obeys (only teardown_segment no_call) (eq s)
        (fun (_ : unit) s' => s' = s)
        (trace w) (time_wait_loop os fuel s w).
Proof.
  induction fuel as [|fuel IH]; intros s w.
  - apply obeys_stop. reflexivity.
  - cbn [time_wait_loop]. ostep; try (right; reflexivity).
    eapply obeys_bind; [apply obeys_set_timeout_length | |]; cbv beta.
    { intros s' H. exact H. }
    intros _ s' wa ->.
    apply obeys_recv; [reflexivity|].
    intros [recv_count recv_seg] w1 _ _.
    destruct (0 <? recv_count).
    + split_if'; apply IH.
    + ostep. split_if'.
      * apply obeys_ret. reflexivity.
      * ostep. apply obeys_stop. reflexivity.
Qed.

Lemma obeys_send_close_connection s w :
  obeys (only teardown_segment no_call) (same_connection s)
        (fun (_ : unit) s' => same_connection s s')
        (trace w) (send_close_connection os s w).
Proof.
  unfold send_close_connection.
  eapply obeys_bind; [unfold with_fuel; apply obeys_close_handshake_loop | |];
    cbv beta.
  { intros s' H. exact H. }
  intros _ s1 wa Hs.
  eapply obeys_bind; [unfold with_fuel; apply obeys_await_close_loop | |];
    cbv beta.
  { intros s' <-. exact Hs. }
  intros _ s' wb ->.
  eapply obeys_weaken; [unfold with_fuel; apply obeys_time_wait_loop | |];
    cbv beta.
  - intros s' <-. exact Hs.
  - intros _ s' ->. exact Hs.
Qed.

Lemma obeys_receive_close_loop fuel :
  forall s w,
  obeys (only teardown_segment no_call) (same_connection s)
        (fun (_ : unit) s' => same_connection s s')
        (trace w) (receive_close_loop os fuel s w).
Proof.
  induction fuel as [|fuel IH]; intros s w.
  - apply obeys_stop. apply same_connection_refl.
  - cbn [receive_close_loop].
    eapply obeys_bind; [apply obeys_reliable_send; left; reflexivity | |]; cbv beta.
    { intros s' H. exact H. }
    intros r s' wb (_ & Hs).
    repeat split_if';
      first [ apply obeys_ret; exact Hs
            | apply (obeys_same_connection _ s s'); [exact Hs | apply IH] ].
Qed.

Lemma obeys_receive_close_connection s w :
  obeys (only teardown_segment no_call) (same_connection s)
        (fun (_ : unit) s' => same_connection s s')
        (trace w) (receive_close_connection os s w).
Proof.
  unfold receive_close_connection. ostep.
  eapply obeys_bind; [apply obeys_set_timeout_length | |]; cbv beta.
  { intros s' <-. apply same_connection_refl. }
  intros _ s' wa ->. unfold with_fuel. apply obeys_receive_close_loop.
Qed.

End Obeys.

(** *** Datagrams that hold a whole header

    As long as every datagram received holds a whole header,
    [receive_data] never calls [memcpy] with a negative count. *)

Lemma tidy_bind {A B} X (Q1 : A -> ReliableSocket -> Prop)
    (Q2 : B -> ReliableSocket -> Prop) (m : M A) (f : A -> M B) s w :
  tidy X Q1 (m s w) ->
  (forall a s' w', Q1 a s' -> Forall whole_segment (recv_q w') ->
     tidy X Q2 (f a s' w')) ->
  tidy X Q2 (bind m f s w).
Proof.
  unfold bind. intros Hm Hf.
  destruct (m s w) as [a s' w'|why s' w']; cbn [tidy] in Hm.
  - destruct Hm as (H1 & H2). apply Hf; assumption.
  - exact Hm.
Qed.

Lemma tidy_step {A B} X (Q : B -> ReliableSocket -> Prop) (m : M A)
    (f : A -> M B) a s s' w w' :
  m s w = Ret a s' w' ->
  tidy X Q (f a s' w') ->
  tidy X Q (bind m f s w).
Proof. intros E H. unfold bind. rewrite E. exact H. Qed.

Lemma tidy_recv {B} (X : ReliableSocket -> Prop)
    (Q : B -> ReliableSocket -> Prop) (f : Z * list byte -> M B) s w :
  X s ->
  Forall whole_segment (recv_q w) ->
  (forall rc w1,
     fst rc = -1 \/ sizeof_RDTHeader <= fst rc <= MAX_SEG_SIZE ->
     Forall whole_segment (recv_q w1) ->
     tidy X Q (f rc s w1)) ->
  tidy X Q (bind sys_recv f s w).
Proof.
  intros Hx Hw Hf. unfold bind, sys_recv.
  destruct (recv_q w) as [|[e|d] q].
  - split; [discriminate | exact Hx].
  - inversion Hw; subst. apply Hf; [left; reflexivity | assumption].
  - inversion Hw as [|r q' Hd Hq]; subst. apply Hf; [|exact Hq].
    right. cbn [fst whole_segment] in *. rewrite length_firstn.
    unfold MAX_SEG_SIZE. change sizeof_RDTHeader with 12 in *. lia.
Qed.

Ltac tstep :=
  eapply tidy_step; [first [reflexivity | apply send_or_perror_eq]|].

Section Whole.

Variable os : Oracle.

Lemma tidy_set_timeout_length ms s w :
  Forall whole_segment (recv_q w) ->
  tidy (fun s' => s' = s) (fun (_ : unit) s' => s' = s)
       (set_timeout_length os ms s w).
Proof.
  intros Hw. unfold set_timeout_length. tstep. tstep. split_if'.
  - tstep. split; [discriminate | reflexivity].
  - split; [reflexivity | exact Hw].
Qed.

Lemma tidy_timeout_send_loop fuel :
  forall seg s w,
  Forall whole_segment (recv_q w) ->
  tidy (fun s' => s' = s) (fun (_ : unit) s' => s' = s)
       (timeout_send_loop os fuel seg s w).
Proof.
  induction fuel as [|fuel IH]; intros seg s w Hw.
  - split; [discriminate | reflexivity].
  - cbn [timeout_send_loop]. tstep. tstep.
    eapply tidy_bind; [apply tidy_set_timeout_length; exact Hw|]. cbv beta.
    intros _ s' w1 -> Hw1.
    apply tidy_recv; [reflexivity | exact Hw1|]. intros rc w2 _ Hw2.
    destruct (fst rc <? 0).
    + tstep. split_if'.
      * split; [reflexivity | exact Hw2].
      * tstep. split; [discriminate | reflexivity].
    + apply IH. exact Hw2.
Qed.

Lemma tidy_receive_data_loop fuel :
  forall s w,
  Forall whole_segment (recv_q w) ->
  tidy (fun s' => s' = s)
       (fun (_ : Z * list byte) s' => s' = set_state FIN s \/ s' = next_sequence s)
       (receive_data_loop os fuel s w).
Proof.
  induction fuel as [|fuel IH]; intros s w Hw.
  - split; [discriminate | reflexivity].
  - cbn [receive_data_loop].
    apply tidy_recv; [reflexivity | exact Hw|].
    intros [recv_count recv_seg] w1 Hrc Hw1. cbn [fst] in Hrc.
    destruct (recv_count <? 0) eqn:Hneg.
    { tstep. split; [discriminate | reflexivity]. }
    tstep. tstep. cbv zeta.
    destruct (is_type recv_seg RDT_ACK); [apply IH; exact Hw1|].
    destruct (is_type recv_seg RDT_CLOSE).
    { eapply tidy_bind;
        [unfold timeout_send, with_fuel; apply tidy_timeout_send_loop; exact Hw1|].
      cbv beta. intros _ s' w2 -> Hw2.
      tstep. split; [left; reflexivity | exact Hw2]. }
    tstep. tstep.
    destruct (ntohl (hdr_sequence_number recv_seg) =? sequence_number s);
      [|apply IH; exact Hw1].
    tstep.
    assert (Hsize : 0 <= recv_count - sizeof_RDTHeader <= MAX_DATA_SIZE)
      by (unfold MAX_DATA_SIZE; lia).
    unfold bind at 1. rewrite memcpy_fits by exact Hsize.
    split; [right; reflexivity | exact Hw1].
Qed.

Lemma tidy_receive_data s w :
  Forall whole_segment (recv_q w) ->
  tidy (fun s' => s' = s)
       (fun (_ : Z * list byte) s' =>
          s' = s \/ s' = set_state FIN s \/ s' = next_sequence s)
       (receive_data os s w).
Proof.
  intros Hw. unfold receive_data.
  eapply tidy_bind; [apply tidy_set_timeout_length; exact Hw|]. cbv beta.
  intros _ s' w1 -> Hw1. tstep.
  destruct (negb (status_eqb (state s) ESTABLISHED)).
  - tstep. split; [left; reflexivity | exact Hw1].
  - unfold with_fuel.
    pose proof (tidy_receive_data_loop (S (List.length (recv_q w1))) s w1 Hw1) as H.
    destruct (receive_data_loop os (S (List.length (recv_q w1))) s w1)
      as [a s' w'|why s' w']; cbn [tidy] in H |- *.
    + destruct H as (H1 & H2). split; [right; exact H1 | exact H2].
    + exact H.
Qed.

End Whole.

Lemma obeys_trace {A} (P : list byte -> Prop) (sys : event -> Prop) X
    (Q : A -> ReliableSocket -> Prop) (t : list event) (o : outcome A) :
  obeys (only P sys) X Q t o ->
  exists segs cs,
    sends (trace (final_world o)) = sends t ++ segs
    /\ calls (trace (final_world o)) = calls t ++ cs
    /\ Forall P segs /\ Forall sys cs.
Proof.
  intros ((d & Ht & Hd) & _). exists (sends d), (calls d).
  rewrite Ht, sends_app, calls_app. repeat split.
  - exact (sends_only P sys d Hd).
  - exact (calls_only P sys d Hd).
Qed.

Lemma obeys_trace_quiet {A} (P : list byte -> Prop) X
    (Q : A -> ReliableSocket -> Prop) (t : list event) (o : outcome A) :
  obeys (only P no_call) X Q t o ->
  exists segs,
    sends (trace (final_world o)) = sends t ++ segs
    /\ calls (trace (final_world o)) = calls t
    /\ Forall P segs.
Proof.
  intros H. destruct (obeys_trace _ _ _ _ _ _ H) as (segs & cs & H1 & H2 & H3 & H4).
  exists segs. split; [exact H1|]. split; [|exact H3].
  rewrite H2. destruct cs as [|e cs]; [apply app_nil_r|].
  inversion H4 as [|? ? []].
Qed.

(** ** The operations, whatever the peer and the operating system do *)

(** X1.  For data that fit a segment (at most [MAX_DATA_SIZE] bytes),
    whatever is received and whatever the system calls answer, every
    segment that [send_data] hands to [send] is the one DATA segment made
    of the caller's bytes and of the sequence number at the call; it calls
    none of [bind], [connect], [close]; it leaves the descriptor, the state
    and [expected_sequence_number] as they were; and the sequence number
    is incremented, modulo [2^32], exactly when the call returns from
    state [ESTABLISHED]: not when the call is refused, and not when the
    process exits or is still waiting. *)
Theorem send_data_retransmits_one_segment (os : Oracle) (data : list byte)
    (s : ReliableSocket) (w : World) :
  Z.of_nat (List.length data) <= MAX_DATA_SIZE ->
  let o := send_data os data s w in
  let s' := final_socket o in
  (exists k, sends (trace (final_world o))
             = sends (trace w) ++ repeat (data_segment (sequence_number s) data) k)
  /\ calls (trace (final_world o)) = calls (trace w)
  /\ sock_fd s' = sock_fd s
  /\ expected_sequence_number s' = expected_sequence_number s
  /\ state s' = state s
  /\ sequence_number s'
     = match o with
       | Ret _ _ _ =>
           if status_eqb (state s) ESTABLISHED
           then to_uint32 (sequence_number s + 1) else sequence_number s
       | Stop _ _ _ => sequence_number s
       end.
Proof.
  intros _. cbv zeta. pose proof (obeys_send_data os data s w) as H.
  destruct (obeys_trace_quiet _ _ _ _ _ H) as (segs & H1 & H2 & H3).
  split; [|split; [exact H2|]].
  - exists (List.length segs). rewrite H1. f_equal. apply Forall_eq_repeat. exact H3.
  - destruct H as (_ & Hq).
    destruct (send_data os data s w) as [[] s' w'|why s' w']; cbn [final_socket].
    + destruct Hq as (Q1 & Q2 & Q3 & Q4). repeat split; assumption.
    + destruct Hq as (Q1 & Q2 & Q3 & Q4). repeat split; assumption.
Qed.

Lemma send_data_retransmits_one_segment_witness :
  let w := world_of [Timeout; Datagram (ACK_segment 7); Datagram (ACK_segment 0)] in
  let o := send_data calm [x68; x69] open_socket w in
  Z.of_nat (List.length [x68; x69]) <= MAX_DATA_SIZE
  /\ (exists k, sends (trace (final_world o)) = repeat (data_segment 0 [x68; x69]) k)
  /\ calls (trace (final_world o)) = []
  /\ state (final_socket o) = ESTABLISHED
  /\ sequence_number (final_socket o) = 1.
Proof.
  intros w o.
  assert (Hlen : Z.of_nat (List.length [x68; x69]) <= MAX_DATA_SIZE)
    by (vm_compute; discriminate).
  split; [exact Hlen|].
  destruct (send_data_retransmits_one_segment calm [x68; x69] open_socket w Hlen)
    as (K & C & _ & _ & T & N).
  split; [exact K|]. split; [exact C|]. split; [exact T | exact N].
Defined.

(** X2.  As long as every datagram that arrives holds a whole header
    (at least [sizeof(RDTHeader)], 12, bytes), [receive_data] copies
    nothing outside its buffers, and when it returns, it returns a count
    between 0 and [MAX_DATA_SIZE] together with exactly that many bytes.
    Every segment it sends is a header-only segment of type ACK; it calls
    none of [bind], [connect], [close].  The object it leaves on return is
    the one it found, except that either the state has become [FIN] (the
    count is then 0) or the sequence number has been incremented; when the
    process exits or the call is still waiting, the object is the one
    found.  The estimator and [expected_sequence_number] are never
    touched. *)
Theorem receive_data_within_bounds (os : Oracle) (s : ReliableSocket) (w : World) :
  Forall whole_segment (recv_q w) ->
  let o := receive_data os s w in
  (exists segs, sends (trace (final_world o)) = sends (trace w) ++ segs
                /\ Forall ack_header segs)
  /\ calls (trace (final_world o)) = calls (trace w)
  /\ match o with
     | Ret (n, buf) s' _ =>
         0 <= n <= MAX_DATA_SIZE
         /\ Z.of_nat (List.length buf) = n
         /\ (s' = s /\ n = 0 /\ state s <> ESTABLISHED
             \/ state s = ESTABLISHED
                /\ (s' = set_state FIN s /\ n = 0 \/ s' = next_sequence s))
     | Stop why s' _ => why <> Fault /\ s' = s
     end.
Proof.
  intros Hw. cbv zeta. pose proof (obeys_receive_data os s w) as H.
  pose proof (tidy_receive_data os s w Hw) as Ht.
  destruct (obeys_trace_quiet _ _ _ _ _ H) as (segs & H1 & H2 & H3).
  split; [exists segs; split; assumption|]. split; [exact H2|].
  destruct H as (_ & Hq).
  destruct (receive_data os s w) as [[n buf] s' w'|why s' w']; [|exact Ht].
  cbn [fst snd] in Hq. destruct Hq as (Q1 & Q2 & Q3).
  split; [exact Q1|]. split; [exact Q2|].
  destruct Q3 as [(E1 & E2 & E3)|(E1 & [(E2 & E3)|E2])].
  - left. inversion E2. repeat split; assumption.
  - right. split; [exact E1|]. left. inversion E3. split; [assumption | reflexivity].
  - right. split; [exact E1|]. right. exact E2.
Qed.

Lemma receive_data_within_bounds_witness :
  let w := world_of [Datagram (data_segment 3 [x61]); Datagram in_order] in
  Forall whole_segment (recv_q w)
  /\ exists n buf s' w',
       receive_data calm open_socket w = Ret (n, buf) s' w'
       /\ n = 2
       /\ 0 <= n <= MAX_DATA_SIZE
       /\ Z.of_nat (List.length buf) = n
       /\ Forall ack_header (sends (trace w')).
Proof.
  intros w.
  assert (Hw : Forall whole_segment (recv_q w)).
  { repeat constructor; vm_compute; discriminate. }
  split; [exact Hw|].
  destruct (receive_data_within_bounds calm open_socket w Hw)
    as ((segs & S & A) & _ & H).
  destruct (receive_data calm open_socket w) as [[n buf] s' w'|why s' w'] eqn:E.
  - exists n, buf, s', w'. split; [reflexivity|].
    destruct H as (H1 & H2 & _).
    split; [vm_compute in E; congruence|]. split; [exact H1|]. split; [exact H2|].
    cbn [final_world] in S. rewrite S. exact A.
  - vm_compute in E. discriminate E.
Defined.

(** X3.  Whatever is received, [connect_to_remote] sends only the SYN
    and the ACK of the handshake, both with sequence and ack number 0, and
    of [bind], [connect], [close] calls only [connect].  It never changes
    the descriptor or a sequence number.  When it returns, the state is
    [ESTABLISHED] if it was [INIT], and the object is untouched otherwise;
    when the process exits or is still waiting, the state is the one
    found. *)
Theorem connect_to_remote_footprint (os : Oracle) (hostname : string)
    (port_num : Z) (s : ReliableSocket) (w : World) :
  let o := connect_to_remote os hostname port_num s w in
  let s' := final_socket o in
  (exists segs cs,
     sends (trace (final_world o)) = sends (trace w) ++ segs
     /\ calls (trace (final_world o)) = calls (trace w) ++ cs
     /\ Forall handshake_segment segs /\ Forall (eq EvConnect) cs)
  /\ sock_fd s' = sock_fd s
  /\ sequence_number s' = sequence_number s
  /\ expected_sequence_number s' = expected_sequence_number s
  /\ match o with
     | Ret _ _ _ =>
         if status_eqb (state s) INIT then state s' = ESTABLISHED else s' = s
     | Stop _ _ _ => state s' = state s
     end.
Proof.
  cbv zeta. pose proof (obeys_connect_to_remote os hostname port_num s w) as H.
  split; [exact (obeys_trace _ _ _ _ _ _ H)|].
  destruct H as (_ & Hq).
  destruct (connect_to_remote os hostname port_num s w) as [[] s' w'|why s' w'];
    cbn [final_socket].
  - destruct (status_eqb (state s) INIT).
    + destruct Hq as (Q1 & Q2 & Q3 & Q4). repeat split; assumption.
    + subst s'. repeat split.
  - destruct Hq as (Q1 & Q2 & Q3 & Q4). repeat split; assumption.
Qed.

(** X4.  Whatever is received, [accept_connection] sends nothing but the
    SYNACK with sequence and ack number 0, and of [bind], [connect],
    [close] calls only [connect] and [bind], the latter on the port that
    [htons] makes of the [int] given: [port_num] modulo [2^16].  It returns
    only if the state was [INIT], and then with state [ESTABLISHED]; in
    every other outcome the state is the one found.  It never changes the
    descriptor or a sequence number. *)
Theorem accept_connection_footprint (os : Oracle) (port_num : Z)
    (s : ReliableSocket) (w : World) :
  let o := accept_connection os port_num s w in
  let s' := final_socket o in
  (exists k cs,
     sends (trace (final_world o))
     = sends (trace w) ++ repeat (header_segment 0 0 RDT_SYNACK) k
     /\ calls (trace (final_world o)) = calls (trace w) ++ cs
     /\ Forall (fun e => e = EvBind (to_uint16 port_num) \/ e = EvConnect) cs)
  /\ sock_fd s' = sock_fd s
  /\ sequence_number s' = sequence_number s
  /\ expected_sequence_number s' = expected_sequence_number s
  /\ match o with
     | Ret _ _ _ => state s = INIT /\ state s' = ESTABLISHED
     | Stop _ _ _ => state s' = state s
     end
  /\ to_uint16 port_num = port_num mod 2 ^ 16.
Proof.
  cbv zeta. pose proof (obeys_accept_connection os port_num s w) as H.
  destruct (obeys_trace _ _ _ _ _ _ H) as (segs & cs & H1 & H2 & H3 & H4).
  split.
  { exists (List.length segs), cs. rewrite H1, H2. repeat split; [|exact H4].
    f_equal. apply Forall_eq_repeat. exact H3. }
  destruct H as (_ & Hq).
  destruct (accept_connection os port_num s w) as [[] s' w'|why s' w'];
    cbn [final_socket].
  - destruct Hq as (Q0 & Q1 & Q2 & Q3 & Q4). repeat split; assumption.
  - destruct Hq as (Q1 & Q2 & Q3 & Q4). repeat split; assumption.
Qed.

(** The calls of [close_connection] after the handshake of the teardown. *)
Lemma close_connection_tail_calls (os : Oracle) s w :
  exists w',
    (modify (set_state CLOSED) ;;
     r <- sys_misc os EvClose ;;
     (if r <? 0 then perror "close_connection close" else ret tt) ;;
     cerr "Connection successfully closed")%rdt s w
    = Ret tt (set_state CLOSED s) w'
    /\ sends (trace w') = sends (trace w)
    /\ calls (trace w') = calls (trace w) ++ [EvClose].
Proof.
  unfold bind, modify, sys_misc, perror, cerr, emit, ret.
  destruct ((if misc_errno os (n_misc w) =? 0 then 0 else -1) <? 0);
    eexists; (split; [reflexivity|]); cbn [trace emit_w misc_w];
    rewrite !sends_app, !calls_app; cbn; rewrite ?app_nil_r; split; reflexivity.
Qed.

Lemma obeys_close_handshake (os : Oracle) s w :
  obeys (only teardown_segment no_call) (same_connection s)
        (fun (_ : unit) s' => same_connection s s') (trace w)
        ((if negb (status_eqb (state s) FIN) then send_close_connection os
          else receive_close_connection os) s w).
Proof.
  destruct (negb (status_eqb (state s) FIN)).
  - apply obeys_send_close_connection.
  - apply obeys_receive_close_connection.
Qed.

Lemma close_connection_eq (os : Oracle) s w :
  close_connection os s w
  = match (if negb (status_eqb (state s) FIN) then send_close_connection os
           else receive_close_connection os) s w with
    | Ret _ s1 w1 =>
        (modify (set_state CLOSED) ;;
         r <- sys_misc os EvClose ;;
         (if r <? 0 then perror "close_connection close" else ret tt) ;;
         cerr "Connection successfully closed")%rdt s1 w1
    | Stop why s1 w1 => Stop why s1 w1
    end.
Proof. reflexivity. Qed.

(** X5.  Whatever is received, [close_connection] sends only CLOSE and
    ACK segments with sequence and ack number 0 and never changes the
    descriptor or a sequence number.  It returns only with the state
    [CLOSED] and after exactly one call of [close], its one call of
    [bind], [connect] or [close]; if instead the process exits, or the
    call is still waiting, the state is the one found and the socket has
    not been closed. *)
Theorem close_connection_closes_once (os : Oracle) (s : ReliableSocket) (w : World) :
  let o := close_connection os s w in
  let s' := final_socket o in
  (exists segs, sends (trace (final_world o)) = sends (trace w) ++ segs
                /\ Forall teardown_segment segs)
  /\ sock_fd s' = sock_fd s
  /\ sequence_number s' = sequence_number s
  /\ expected_sequence_number s' = expected_sequence_number s
  /\ match o with
     | Ret _ _ _ =>
         state s' = CLOSED
         /\ calls (trace (final_world o)) = calls (trace w) ++ [EvClose]
     | Stop _ _ _ =>
         state s' = state s
         /\ calls (trace (final_world o)) = calls (trace w)
     end.
Proof.
  cbv zeta. pose proof (obeys_close_handshake os s w) as H.
  destruct (obeys_trace_quiet _ _ _ _ _ H) as (segs & H1 & H2 & H3).
  destruct H as (_ & Hq).
  rewrite close_connection_eq. revert H1 H2 Hq.
  destruct ((if negb (status_eqb (state s) FIN) then send_close_connection os
             else receive_close_connection os) s w) as [[] s1 w1|why s1 w1];
    cbn [final_world final_socket]; intros H1 H2 (Q1 & Q2 & Q3 & Q4).
  - destruct (close_connection_tail_calls os s1 w1) as (w' & E & T1 & T2).
    rewrite E. cbn [final_world final_socket].
    split; [exists segs; rewrite T1; split; assumption|].
    rewrite T2, H2. repeat split; assumption.
  - split; [exists segs; split; assumption|]. repeat split; assumption.
Qed.

(** X6.  The two helpers that every operation is built from.
    [reliable_send] sends the segment it is given and no other, returns at
    most [MAX_SEG_SIZE] bytes, and changes nothing of the object but the
    three members of the estimator; [timeout_send], given a header, sends
    that header and nothing else and leaves the object as it found it.
    Neither calls [bind], [connect] or [close]. *)
Theorem helpers_send_their_segment_only (os : Oracle) (seg : list byte)
    (s : ReliableSocket) (w : World) :
  (let o := reliable_send os seg s w in
   (exists k, sends (trace (final_world o)) = sends (trace w) ++ repeat seg k)
   /\ calls (trace (final_world o)) = calls (trace w)
   /\ same_connection s (final_socket o)
   /\ match o with
      | Ret reply _ _ => Z.of_nat (List.length reply) <= MAX_SEG_SIZE
      | Stop _ _ _ => True
      end)
  /\ (Z.of_nat (List.length seg) = sizeof_RDTHeader ->
      let o := timeout_send os seg s w in
      (exists k, sends (trace (final_world o)) = sends (trace w) ++ repeat seg k)
      /\ calls (trace (final_world o)) = calls (trace w)
      /\ final_socket o = s).
Proof.
  cbv zeta. split.
  - pose proof (obeys_reliable_send os (eq seg) no_call seg s w eq_refl) as H.
    destruct (obeys_trace_quiet _ _ _ _ _ H) as (segs & H1 & H2 & H3).
    split; [|split; [exact H2|]].
    + exists (List.length segs). rewrite H1. f_equal. apply Forall_eq_repeat. exact H3.
    + destruct H as (_ & Hq).
      destruct (reliable_send os seg s w) as [r s' w'|why s' w']; cbn [final_socket].
      * destruct Hq as (Q1 & Q2). split; assumption.
      * split; [exact Hq | exact I].
  - intros _.
    pose proof (obeys_timeout_send os (eq seg) no_call seg s w eq_refl) as H.
    destruct (obeys_trace_quiet _ _ _ _ _ H) as (segs & H1 & H2 & H3).
    split; [|split; [exact H2|]].
    + exists (List.length segs). rewrite H1. f_equal. apply Forall_eq_repeat. exact H3.
    + destruct H as (_ & Hq).
      destruct (timeout_send os seg s w) as [r s' w'|why s' w']; cbn [final_socket];
        [exact Hq | symmetry; exact Hq].
Qed.

Lemma helpers_send_their_segment_only_witness :
  Z.of_nat (List.length (ACK_segment 0)) = sizeof_RDTHeader
  /\ (exists k,
        sends (trace (final_world
                        (timeout_send calm (ACK_segment 0) open_socket
                           (world_of [Datagram SYNACK_segment; Timeout]))))
        = repeat (ACK_segment 0) k)
  /\ final_socket (timeout_send calm (ACK_segment 0) open_socket
                     (world_of [Datagram SYNACK_segment; Timeout]))
     = open_socket.
Proof.
  split; [reflexivity|].
  destruct (helpers_send_their_segment_only calm (ACK_segment 0) open_socket
              (world_of [Datagram SYNACK_segment; Timeout])) as (_ & H).
  destruct (H eq_refl) as (H1 & _ & H3).
  split; [exact H1 | exact H3].
Defined.

(** ** Scripts of the passive open, of the passive close, and of segments
    that [receive_data] does not expect *)

Section Scripts.

Variable os : Oracle.

Hypothesis Hok : setsockopt_ok os.

Lemma sends_timeout_w ms w : sends (trace (timeout_w ms w)) = sends (trace w).
Proof. cbn [trace timeout_w]. rewrite sends_app. apply app_nil_r. Qed.

(** *** accept_connection *)

Lemma accept_loop_exchange fuel s w n d rest :
  recv_q w = repeat Timeout n ++ Datagram d :: rest ->
  exists s' w',
    accept_loop os (S fuel) s w
    = (if accepts (received d) then Ret tt s' w' else accept_loop os fuel s' w')
    /\ same_connection s s'
    /\ recv_q w' = rest
    /\ sends (trace w')
       = sends (trace w) ++ repeat (header_segment 0 0 RDT_SYNACK) (S n).
Proof.
  intros Hq.
  destruct (reliable_send_reply os Hok n (header_segment 0 0 RDT_SYNACK) s
              (timeout_w (to_uint32 (rto s)) w) d rest Hq) as (w' & E & A & R).
  exists (update_rtt (set_current_rtt
            (sample_after os (timeout_w (to_uint32 (rto s)) w) n) s)), w'.
  split; [|split; [|split]].
  - cbn [accept_loop]. unfold bind at 1. unfold this. unfold bind at 1.
    rewrite set_timeout_length_ok by apply Hok. unfold bind at 1. rewrite E.
    unfold accepts.
    destruct (is_type (received d) RDT_ACK); [reflexivity|].
    destruct (is_type (received d) RDT_DATA); reflexivity.
  - apply same_connection_sample.
  - exact R.
  - destruct A as (_ & S & _). rewrite S, sends_timeout_w. reflexivity.
Qed.

Lemma accept_loop_exchanges rs :
  forall fuel s w rest,
  Forall (fun r => accepts (received (snd r)) = false) rs ->
  recv_q w = exchanges rs ++ rest ->
  exists s' w',
    accept_loop os (List.length rs + fuel) s w = accept_loop os fuel s' w'
    /\ same_connection s s'
    /\ recv_q w' = rest
    /\ sends (trace w')
       = sends (trace w) ++ repeat (header_segment 0 0 RDT_SYNACK) (transmissions rs).
Proof.
  induction rs as [|r rs IH]; intros fuel s w rest Hall Hq.
  - exists s, w. cbn [transmissions fold_right repeat]. rewrite app_nil_r.
    repeat split. exact Hq.
  - rewrite exchanges_cons in Hq.
    inversion Hall as [|r' rs' Hr Hrs]; subst.
    destruct (accept_loop_exchange (List.length rs + fuel) s w _ _ _ Hq)
      as (s1 & w1 & E1 & C1 & R1 & S1).
    rewrite Hr in E1.
    destruct (IH fuel s1 w1 rest Hrs R1) as (s' & w' & E2 & C2 & R2 & S2).
    exists s', w'. split; [|split; [|split]].
    + cbn [List.length Nat.add]. rewrite E1, E2. reflexivity.
    + eapply same_connection_trans; eassumption.
    + exact R2.
    + rewrite S2, S1, <- app_assoc, repeat_app_plus. reflexivity.
Qed.

(** The call of [bind]: a failure is reported and nothing more. *)
Lemma bind_call port_num s w :
  exists wb,
    recv_q wb = recv_q w /\ n_misc wb = S (n_misc w)
    /\ sends (trace wb) = sends (trace w)
    /\ calls (trace wb) = calls (trace w) ++ [EvBind (to_uint16 port_num)]
    /\ perrors (trace wb)
       = perrors (trace w)
           ++ (if misc_errno os (n_misc w) =? 0 then [] else ["bind"%string])
    /\ forall B (K : M B),
         (r <- sys_misc os (EvBind (to_uint16 port_num)) ;;
          (if negb (r =? 0) then perror "bind" else ret tt) ;; K)%rdt s w
         = K s wb.
Proof.
  unfold bind, sys_misc, perror, emit, ret.
  destruct (misc_errno os (n_misc w) =? 0); cbn [Z.eqb negb].
  - exists (misc_w (EvBind (to_uint16 port_num)) (misc_errno os (n_misc w)) w).
    cbn [trace misc_w emit_w recv_q n_misc].
    rewrite ?sends_app, ?calls_app, ?perrors_app. cbn. rewrite ?app_nil_r.
    repeat split.
  - exists (emit_w (EvPerror "bind")
              (misc_w (EvBind (to_uint16 port_num)) (misc_errno os (n_misc w)) w)).
    cbn [trace misc_w emit_w recv_q n_misc].
    rewrite ?sends_app, ?calls_app, ?perrors_app. cbn. rewrite ?app_nil_r.
    repeat split.
Qed.

Lemma accept_connection_bound port_num s w :
  state s = INIT ->
  exists wb,
    recv_q wb = recv_q w /\ n_misc wb = S (n_misc w)
    /\ sends (trace wb) = sends (trace w)
    /\ calls (trace wb) = calls (trace w) ++ [EvBind (to_uint16 port_num)]
    /\ perrors (trace wb)
       = perrors (trace w)
           ++ (if misc_errno os (n_misc w) =? 0 then [] else ["bind"%string])
    /\ accept_connection os port_num s w
       = (rc <- sys_recv ;;
          let (recv_count, segment) := rc in
          if recv_count <? 0 then perror "accept recvfrom" ;; exit_failure
          else
            r <- sys_misc os EvConnect ;;
            if negb (r =? 0) then perror "accept connect" ;; exit_failure
            else if negb (is_type segment RDT_SYN) then
              cerr "ERROR: Didn't get the expected RDT_SYN type." ;;
              cerr "Connection was not Established" ;;
              exit_failure
            else
              with_fuel (accept_loop os) ;;
              cerr "Connection ESTABLISHED" ;;
              modify (set_state ESTABLISHED))%rdt s wb.
Proof.
  intros Hs.
  destruct (bind_call port_num s w) as (wb & H1 & H2 & H3 & H4 & H5 & H6).
  exists wb. repeat split; try assumption.
  unfold accept_connection. unfold bind at 1. unfold this. rewrite Hs.
  cbn [status_eqb negb]. apply H6.
Qed.

(** Up to the first SYNACK: [bind], the first segment, [connect]. *)
Lemma accept_connection_start port_num s w syn q :
  state s = INIT ->
  misc_errno os (S (n_misc w)) = 0 ->
  recv_q w = Datagram syn :: q ->
  exists w1,
    accept_connection os port_num s w
    = (if is_type (received syn) RDT_SYN
       then (with_fuel (accept_loop os) ;;
             cerr "Connection ESTABLISHED" ;;
             modify (set_state ESTABLISHED))%rdt s w1
       else Stop Exited s
              (emit_w (EvCerr "Connection was not Established")
                 (emit_w (EvCerr "ERROR: Didn't get the expected RDT_SYN type.") w1)))
    /\ recv_q w1 = q
    /\ sends (trace w1) = sends (trace w)
    /\ calls (trace w1) = calls (trace w) ++ [EvBind (to_uint16 port_num); EvConnect].
Proof.
  intros Hs Hc Hq.
  destruct (accept_connection_bound port_num s w Hs)
    as (wb & Rq & Nm & Sd & Cl & _ & E).
  rewrite E. clear E.
  unfold bind at 1. unfold sys_recv at 1. rewrite Rq, Hq.
  rewrite received_length_nonneg.
  unfold bind at 1. unfold sys_misc at 1. cbv zeta.
  cbn [n_misc received_w]. rewrite Nm, Hc. cbn [Z.eqb negb].
  change (firstn (Z.to_nat MAX_SEG_SIZE) syn) with (received syn).
  eexists. split; [|split; [|split]].
  - destruct (is_type (received syn) RDT_SYN); cbn [negb]; reflexivity.
  - reflexivity.
  - cbn [trace misc_w received_w]. rewrite sends_app, Sd. apply app_nil_r.
  - cbn [trace misc_w received_w]. rewrite calls_app, Cl, <- app_assoc. reflexivity.
Qed.

(** The first [recvfrom] fails, or [connect] does. *)
Lemma accept_connection_recv_error port_num s w e q :
  state s = INIT ->
  recv_q w = RecvError e :: q ->
  exists w',
    accept_connection os port_num s w = Stop Exited s w'
    /\ recv_q w' = q
    /\ sends (trace w') = sends (trace w)
    /\ calls (trace w') = calls (trace w) ++ [EvBind (to_uint16 port_num)]
    /\ perrors (trace w')
       = perrors (trace w)
           ++ (if misc_errno os (n_misc w) =? 0 then [] else ["bind"%string])
           ++ ["accept recvfrom"%string].
Proof.
  intros Hs Hq.
  destruct (accept_connection_bound port_num s w Hs)
    as (wb & Rq & Nm & Sd & Cl & Pe & E).
  rewrite E. clear E.
  unfold bind at 1. unfold sys_recv at 1. rewrite Rq, Hq.
  eexists. split; [reflexivity|].
  cbn [trace emit_w received_w recv_q].
  rewrite sends_app, calls_app, perrors_app, Sd, Cl, Pe. cbn.
  rewrite !app_nil_r, <- app_assoc. repeat split.
Qed.

Lemma accept_connection_connect_error port_num s w d q :
  state s = INIT ->
  recv_q w = Datagram d :: q ->
  misc_errno os (S (n_misc w)) <> 0 ->
  exists w',
    accept_connection os port_num s w = Stop Exited s w'
    /\ recv_q w' = q
    /\ sends (trace w') = sends (trace w)
    /\ perrors (trace w')
       = perrors (trace w)
           ++ (if misc_errno os (n_misc w) =? 0 then [] else ["bind"%string])
           ++ ["accept connect"%string].
Proof.
  intros Hs Hq Hc.
  destruct (accept_connection_bound port_num s w Hs)
    as (wb & Rq & Nm & Sd & Cl & Pe & E).
  rewrite E. clear E.
  unfold bind at 1. unfold sys_recv at 1. rewrite Rq, Hq.
  rewrite received_length_nonneg.
  unfold bind at 1. unfold sys_misc at 1. cbv zeta.
  cbn [n_misc received_w]. rewrite Nm.
  apply Z.eqb_neq in Hc. rewrite Hc. cbn [Z.eqb negb].
  eexists. split; [reflexivity|].
  cbn [trace emit_w misc_w received_w recv_q].
  rewrite !sends_app, !perrors_app, Sd, Pe. cbn.
  rewrite !app_nil_r, <- app_assoc. repeat split.
Qed.

Lemma accept_loop_done rs n d s w rest :
  Forall (fun r => accepts (received (snd r)) = false) rs ->
  accepts (received d) = true ->
  recv_q w = exchanges rs ++ repeat Timeout n ++ Datagram d :: rest ->
  exists s' w',
    with_fuel (accept_loop os) s w = Ret tt s' w'
    /\ same_connection s s'
    /\ recv_q w' = rest
    /\ sends (trace w')
       = sends (trace w)
           ++ repeat (header_segment 0 0 RDT_SYNACK) (transmissions rs + S n)
    /\ calls (trace w') = calls (trace w).
Proof.
  intros Hall Hacc Hq.
  pose proof (exchanges_length rs) as Hl.
  destruct (accept_loop_exchanges rs
              (S (List.length (recv_q w) - List.length rs)) s w _ Hall Hq)
    as (s1 & w1 & E1 & C1 & R1 & S1).
  destruct (accept_loop_exchange
              (List.length (recv_q w) - List.length rs) s1 w1 n d rest R1)
    as (s2 & w2 & E2 & C2 & R2 & S2).
  rewrite Hacc in E2.
  assert (E : with_fuel (accept_loop os) s w = Ret tt s2 w2).
  { unfold with_fuel.
    replace (S (List.length (recv_q w)))
      with (List.length rs + S (List.length (recv_q w) - List.length rs))%nat.
    - rewrite E1, E2. reflexivity.
    - rewrite Hq, length_app. lia. }
  exists s2, w2. split; [exact E|]. split; [|split; [|split]].
  - eapply same_connection_trans; eassumption.
  - exact R2.
  - rewrite S2, S1, <- app_assoc, repeat_app_plus. reflexivity.
  - pose proof (obeys_accept_loop os no_call (S (List.length (recv_q w))) s w) as H.
    unfold with_fuel in E. rewrite E in H.
    destruct (obeys_trace_quiet _ _ _ _ _ H) as (segs & _ & H2 & _). exact H2.
Qed.

Ltac srun :=
  repeat first
    [ rewrite send_or_perror_eq
    | rewrite set_timeout_length_ok by apply Hok
    | progress unfold bind, this, modify, ret, emit, cerr, perror, get_errno,
                      current_msec, stop_with, exit_failure, sys_recv
    | progress wsimpl
    | progress cbv beta iota ].

(** *** receive_data: ACK and CLOSE segments *)

(** The world after [receive_data] has received and logged a segment. *)
Lemma receive_data_loop_ack fuel s w d q :
  recv_q w = Datagram d :: q ->
  is_type (received d) RDT_ACK = true ->
  exists w',
    receive_data_loop os (S fuel) s w = receive_data_loop os fuel s w'
    /\ advances w w' [Datagram d] [] [] [] 0.
Proof.
  intros Hq Hack.
  eexists. split.
  - cbn [receive_data_loop]. srun. rewrite Hq. srun.
    fold (received d). rewrite received_length_nonneg. srun.
    rewrite Hack. reflexivity.
  - unfold advances. tsimpl. rewrite Hq. repeat split; lia.
Qed.

Lemma receive_data_loop_acks ds :
  forall fuel s w rest,
  Forall (fun d => is_type (received d) RDT_ACK = true) ds ->
  recv_q w = map Datagram ds ++ rest ->
  exists w',
    receive_data_loop os (List.length ds + fuel) s w
    = receive_data_loop os fuel s w'
    /\ advances w w' (map Datagram ds) [] [] [] 0.
Proof.
  induction ds as [|d ds IH]; intros fuel s w rest Hall Hq.
  - exists w. split; [reflexivity | apply advances_refl].
  - cbn [map app] in Hq.
    inversion Hall as [|d' ds' Hty Hds]; subst.
    destruct (receive_data_loop_ack (List.length ds + fuel) s w d _ Hq Hty)
      as (w1 & E1 & A1).
    assert (Hq1 : recv_q w1 = map Datagram ds ++ rest).
    { destruct A1 as (R & _). rewrite Hq in R. cbn in R. congruence. }
    destruct (IH fuel s w1 rest Hds Hq1) as (w' & E2 & A2).
    exists w'. split.
    + cbn [List.length Nat.add]. rewrite E1, E2. reflexivity.
    + eapply advances_cast;
        [exact (advances_trans _ _ _ _ _ _ _ _ _ _ _ _ _ A1 A2) | ..];
        reflexivity.
Qed.

Lemma receive_data_loop_close fuel s w c q :
  recv_q w = Datagram c :: q ->
  is_type (received c) RDT_CLOSE = true ->
  exists w',
    receive_data_loop os (S fuel) s w
    = (timeout_send os (header_segment 0 0 RDT_ACK) ;;
       modify (set_state FIN) ;;
       ret (0, []))%rdt s w'
    /\ advances w w' [Datagram c] [] [] [] 0.
Proof.
  intros Hq Hclose.
  assert (Hack : is_type (received c) RDT_ACK = false)
    by (apply (is_type_exclusive _ _ _ Hclose); discriminate).
  eexists. split.
  - cbn [receive_data_loop]. unfold bind at 1. unfold sys_recv. rewrite Hq.
    fold (received c). rewrite received_length_nonneg.
    unfold bind at 1. unfold this. unfold bind at 1. unfold emit.
    rewrite Hack, Hclose. reflexivity.
  - unfold advances. tsimpl. rewrite Hq. repeat split; lia.
Qed.

Lemma receive_data_closed strays c ds s w rest :
  state s = ESTABLISHED ->
  Forall (fun d => is_type (received d) RDT_ACK = true) strays ->
  is_type (received c) RDT_CLOSE = true ->
  recv_q w = map Datagram strays ++ Datagram c :: map Datagram ds ++ Timeout :: rest ->
  exists w',
    receive_data os s w = Ret (0, []) (set_state FIN s) w'
    /\ recv_q w' = rest
    /\ sends (trace w')
       = sends (trace w) ++ repeat (header_segment 0 0 RDT_ACK) (S (List.length ds))
    /\ applied_timeouts (trace w')
       = applied_timeouts (trace w)
           ++ 0 :: repeat (to_uint32 (rto s)) (S (List.length ds)).
Proof.
  intros Hs Hall Hclose Hq.
  pose (w0 := timeout_w 0 w).
  set (tail := map Datagram ds ++ Timeout :: rest) in *.
  destruct (receive_data_loop_acks strays (S (S (List.length tail))) s w0
              (Datagram c :: tail) Hall Hq) as (w1 & E1 & A1).
  assert (Hq1 : recv_q w1 = Datagram c :: tail).
  { destruct A1 as (R & _). change (recv_q w0) with (recv_q w) in R.
    rewrite Hq in R. apply app_inv_head in R. symmetry. exact R. }
  destruct (receive_data_loop_close (S (List.length tail)) s w1 c tail Hq1 Hclose)
    as (w2 & E2 & A2).
  assert (Hq2 : recv_q w2 = map Datagram ds ++ Timeout :: rest).
  { destruct A2 as (R & _). rewrite Hq1 in R. cbn in R.
    injection R as R. rewrite <- R. reflexivity. }
  destruct (timeout_send_done os Hok ds (header_segment 0 0 RDT_ACK) s w2 rest Hq2)
    as (w3 & E3 & A3 & R3).
  exists w3. split; [|split; [|split]].
  - rewrite receive_data_start by assumption. unfold with_fuel. fold w0.
    change (recv_q w0) with (recv_q w).
    rewrite Hq, length_app, length_map. cbn [List.length].
    replace (S (List.length strays + S (List.length tail)))
      with (List.length strays + S (S (List.length tail)))%nat by lia.
    rewrite E1, E2. unfold bind at 1. rewrite E3. reflexivity.
  - exact R3.
  - destruct A1 as (_ & S1 & _). destruct A2 as (_ & S2 & _).
    destruct A3 as (_ & S3 & _).
    rewrite S3, S2, S1. unfold w0. rewrite sends_timeout_w, !app_nil_r. reflexivity.
  - destruct A1 as (_ & _ & T1 & _). destruct A2 as (_ & _ & T2 & _).
    destruct A3 as (_ & _ & T3 & _).
    rewrite T3, T2, T1, !app_nil_r. unfold w0.
    cbn [trace timeout_w]. rewrite applied_timeouts_app, <- app_assoc. reflexivity.
Qed.

(** The first segment is neither an ACK nor a CLOSE and carries the
    sequence number that [receive_data] compares. *)
Lemma receive_data_first_segment d s w rest :
  state s = ESTABLISHED ->
  recv_q w = Datagram d :: rest ->
  is_type (received d) RDT_ACK = false ->
  is_type (received d) RDT_CLOSE = false ->
  seq_of (received d) = sequence_number s ->
  exists w',
    receive_data os s w
    = (if Z.of_nat (List.length (received d)) - sizeof_RDTHeader <? 0
       then Stop Fault (next_sequence s) w'
       else Ret (Z.of_nat (List.length (received d)) - sizeof_RDTHeader,
                 payload_of (received d)) (next_sequence s) w')
    /\ recv_q w' = rest
    /\ sends (trace w') = sends (trace w) ++ [ack_of (received d)].
Proof.
  intros Hs Hq Hack Hclose Hseq.
  pose (w0 := timeout_w 0 w).
  destruct (receive_data_loop_segment os (S (List.length rest)) s w0 d rest Hq Hack Hclose)
    as (w1 & E1 & A1).
  rewrite Hseq, Z.eqb_refl in E1. cbv zeta in E1.
  exists w1. split; [|split].
  - rewrite receive_data_start by assumption. unfold with_fuel. fold w0.
    change (recv_q w0) with (recv_q w). rewrite Hq. cbn [List.length].
    exact E1.
  - destruct A1 as (R & _). change (recv_q w0) with (recv_q w) in R.
    rewrite Hq in R. cbn in R. congruence.
  - destruct A1 as (_ & S1 & _). rewrite S1. unfold w0.
    rewrite sends_timeout_w. reflexivity.
Qed.

(** *** close_connection in state FIN: receive_close_connection *)

Lemma receive_close_loop_exchange fuel s w n d rest :
  recv_q w = repeat Timeout n ++ Datagram d :: rest ->
  exists s' w',
    receive_close_loop os (S fuel) s w
    = (if is_type (received d) RDT_ACK then Ret tt s' w'
       else receive_close_loop os fuel s' w')
    /\ same_connection s s'
    /\ recv_q w' = rest
    /\ sends (trace w')
       = sends (trace w) ++ repeat (header_segment 0 0 RDT_CLOSE) (S n).
Proof.
  intros Hq.
  destruct (reliable_send_reply os Hok n (header_segment 0 0 RDT_CLOSE) s w d rest Hq)
    as (w' & E & A & R).
  exists (update_rtt (set_current_rtt (sample_after os w n) s)), w'.
  split; [|split; [|split]].
  - cbn [receive_close_loop]. unfold bind at 1. rewrite E.
    destruct (is_type (received d) RDT_ACK); reflexivity.
  - apply same_connection_sample.
  - exact R.
  - destruct A as (_ & S & _). exact S.
Qed.

Lemma receive_close_loop_exchanges rs :
  forall fuel s w rest,
  Forall (fun r => is_type (received (snd r)) RDT_ACK = false) rs ->
  recv_q w = exchanges rs ++ rest ->
  exists s' w',
    receive_close_loop os (List.length rs + fuel) s w
    = receive_close_loop os fuel s' w'
    /\ same_connection s s'
    /\ recv_q w' = rest
    /\ sends (trace w')
       = sends (trace w) ++ repeat (header_segment 0 0 RDT_CLOSE) (transmissions rs).
Proof.
  induction rs as [|r rs IH]; intros fuel s w rest Hall Hq.
  - exists s, w. cbn [transmissions fold_right repeat]. rewrite app_nil_r.
    repeat split. exact Hq.
  - rewrite exchanges_cons in Hq.
    inversion Hall as [|r' rs' Hr Hrs]; subst.
    destruct (receive_close_loop_exchange (List.length rs + fuel) s w _ _ _ Hq)
      as (s1 & w1 & E1 & C1 & R1 & S1).
    rewrite Hr in E1.
    destruct (IH fuel s1 w1 rest Hrs R1) as (s' & w' & E2 & C2 & R2 & S2).
    exists s', w'. split; [|split; [|split]].
    + cbn [List.length Nat.add]. rewrite E1, E2. reflexivity.
    + eapply same_connection_trans; eassumption.
    + exact R2.
    + rewrite S2, S1, <- app_assoc, repeat_app_plus. reflexivity.
Qed.

Lemma receive_close_connection_done rs n d s w rest :
  Forall (fun r => is_type (received (snd r)) RDT_ACK = false) rs ->
  is_type (received d) RDT_ACK = true ->
  recv_q w = exchanges rs ++ repeat Timeout n ++ Datagram d :: rest ->
  exists s' w',
    receive_close_connection os s w = Ret tt s' w'
    /\ same_connection s s'
    /\ recv_q w' = rest
    /\ sends (trace w')
       = sends (trace w)
           ++ repeat (header_segment 0 0 RDT_CLOSE) (transmissions rs + S n).
Proof.
  intros Hall Hack Hq.
  pose (w0 := timeout_w (to_uint32 (rto s)) w).
  pose proof (exchanges_length rs) as Hl.
  destruct (receive_close_loop_exchanges rs
              (S (List.length (recv_q w) - List.length rs)) s w0 _ Hall Hq)
    as (s1 & w1 & E1 & C1 & R1 & S1).
  destruct (receive_close_loop_exchange
              (List.length (recv_q w) - List.length rs) s1 w1 n d rest R1)
    as (s2 & w2 & E2 & C2 & R2 & S2).
  rewrite Hack in E2.
  exists s2, w2. split; [|split; [|split]].
  - unfold receive_close_connection. unfold bind at 1. unfold this.
    unfold bind at 1. rewrite set_timeout_length_ok by apply Hok. fold w0.
    unfold with_fuel. change (recv_q w0) with (recv_q w).
    replace (S (List.length (recv_q w)))
      with (List.length rs + S (List.length (recv_q w) - List.length rs))%nat.
    + rewrite E1, E2. reflexivity.
    + rewrite Hq, length_app. lia.
  - eapply same_connection_trans; eassumption.
  - exact R2.
  - rewrite S2, S1. unfold w0.
    rewrite sends_timeout_w, <- app_assoc, repeat_app_plus. reflexivity.
Qed.

Lemma receive_close_connection_waiting rs n s w :
  Forall (fun r => is_type (received (snd r)) RDT_ACK = false) rs ->
  recv_q w = exchanges rs ++ repeat Timeout n ->
  exists s' w',
    receive_close_connection os s w = Stop Pending s' w'
    /\ same_connection s s'
    /\ sends (trace w')
       = sends (trace w)
           ++ repeat (header_segment 0 0 RDT_CLOSE) (transmissions rs + S n).
Proof.
  intros Hall Hq.
  pose (w0 := timeout_w (to_uint32 (rto s)) w).
  pose proof (exchanges_length rs) as Hl.
  destruct (receive_close_loop_exchanges rs
              (S (List.length (recv_q w) - List.length rs)) s w0 _ Hall Hq)
    as (s1 & w1 & E1 & C1 & R1 & S1).
  destruct (reliable_send_pending os Hok n (header_segment 0 0 RDT_CLOSE) s1 w1 R1)
    as (w2 & E2 & A2 & R2).
  exists s1, w2. split; [|split].
  - unfold receive_close_connection. unfold bind at 1. unfold this.
    unfold bind at 1. rewrite set_timeout_length_ok by apply Hok. fold w0.
    unfold with_fuel. change (recv_q w0) with (recv_q w).
    replace (S (List.length (recv_q w)))
      with (List.length rs + S (List.length (recv_q w) - List.length rs))%nat.
    + rewrite E1. cbn [receive_close_loop]. unfold bind at 1. rewrite E2.
      reflexivity.
    + rewrite Hq, length_app. lia.
  - exact C1.
  - destruct A2 as (_ & S2 & _). rewrite S2, S1. unfold w0.
    rewrite sends_timeout_w, <- app_assoc, repeat_app_plus. reflexivity.
Qed.

(** *** send_close_connection: a failure of [recv] during the wait *)

Lemma send_close_connection_error n a noise c cs e s w rest :
  recv_q w = repeat Timeout n ++ Datagram a :: noise
               ++ Datagram c :: map Datagram cs ++ RecvError e :: rest ->
  is_type (received a) RDT_ACK || is_type (received a) RDT_CLOSE = true ->
  Forall (fun r => is_close r = false) noise ->
  is_type (received c) RDT_CLOSE = true ->
  Forall (fun d => d <> []) cs ->
  e <> EAGAIN ->
  exists s' w',
    send_close_connection os s w = Stop Exited s' w'
    /\ same_connection s s'
    /\ sends (trace w')
       = sends (trace w) ++ repeat (header_segment 0 0 RDT_CLOSE) (S n)
           ++ repeat (header_segment 0 0 RDT_ACK) (S (List.length cs))
    /\ closes (trace w') = closes (trace w).
Proof.
  intros Hq Ha Hnoise Hc Hcs He.
  destruct (close_handshake_done os Hok n a s w _ Hq Ha)
    as (s1 & w1 & tos1 & errs1 & k1 & E1 & C1 & A1 & R1).
  destruct (await_close_done noise c s1 w1 _ Hnoise Hc R1) as (w2 & E2 & A2 & R2).
  destruct (time_wait_error os Hok cs s1 w2 e rest Hcs R2 He) as (w3 & errs & E3 & A3).
  exists s1, w3. split; [|split; [|split]].
  - unfold send_close_connection. unfold bind at 1. rewrite E1.
    unfold bind at 1. rewrite E2. exact E3.
  - exact C1.
  - destruct A1 as (_ & S1 & _). destruct A2 as (_ & S2 & _).
    destruct A3 as (_ & S3 & _).
    rewrite S3, S2, S1, app_nil_r, <- app_assoc. reflexivity.
  - destruct A1 as (_ & _ & _ & _ & _ & _ & X1).
    destruct A2 as (_ & _ & _ & _ & _ & _ & X2).
    destruct A3 as (_ & _ & _ & _ & _ & _ & X3).
    rewrite X3, X2, X1. reflexivity.
Qed.

(** *** connect_to_remote: a failure of [recv] *)

Lemma connect_to_remote_start hostname port_num s w :
  state s = INIT ->
  exists w1,
    recv_q w1 = recv_q w
    /\ sends (trace w1) = sends (trace w)
    /\ connect_to_remote os hostname port_num s w
       = (recv_seg <- reliable_send os (header_segment 0 0 RDT_SYN) ;;
          (if negb (is_type recv_seg RDT_SYNACK)
           then perror "Message was not a SYNACK" else ret tt) ;;
          timeout_send os (header_segment 0 0 RDT_ACK) ;;
          modify (set_state ESTABLISHED) ;;
          cerr "INFO: Connection ESTABLISHED")%rdt s w1.
Proof.
  intros Hs.
  destruct (connect_call os s w) as (w0 & A0 & E0).
  exists (timeout_w (to_uint32 (rto s)) w0). split; [|split].
  - destruct A0 as (R & _). cbn [recv_q timeout_w]. rewrite R. reflexivity.
  - destruct A0 as (_ & S & _). rewrite sends_timeout_w, S. apply app_nil_r.
  - unfold connect_to_remote. unfold bind at 1. unfold this. rewrite Hs.
    cbn [status_eqb negb]. rewrite E0.
    unfold bind at 1. unfold this. unfold bind at 1.
    rewrite set_timeout_length_ok by apply Hok. reflexivity.
Qed.

Lemma connect_to_remote_no_reply hostname port_num n e s w rest :
  state s = INIT ->
  recv_q w = repeat Timeout n ++ RecvError e :: rest -> e <> EAGAIN ->
  exists w',
    connect_to_remote os hostname port_num s w = Stop Exited s w'
    /\ recv_q w' = rest
    /\ sends (trace w') = sends (trace w) ++ repeat (header_segment 0 0 RDT_SYN) (S n).
Proof.
  intros Hs Hq He.
  destruct (connect_to_remote_start hostname port_num s w Hs) as (w1 & R1 & S1 & E1).
  rewrite <- R1 in Hq.
  destruct (reliable_send_error os Hok n (header_segment 0 0 RDT_SYN) s w1 e rest Hq He)
    as (w2 & E2 & A2 & R2).
  exists w2. split; [|split].
  - rewrite E1. unfold bind at 1. rewrite E2. reflexivity.
  - exact R2.
  - destruct A2 as (_ & S2 & _). rewrite S2, S1. reflexivity.
Qed.

Lemma connect_to_remote_lost hostname port_num n d ds e s w rest :
  state s = INIT ->
  recv_q w = repeat Timeout n ++ Datagram d :: map Datagram ds ++ RecvError e :: rest ->
  e <> EAGAIN ->
  exists s' w',
    connect_to_remote os hostname port_num s w = Stop Exited s' w'
    /\ state s' = INIT
    /\ recv_q w' = rest
    /\ sends (trace w')
       = sends (trace w) ++ repeat (header_segment 0 0 RDT_SYN) (S n)
           ++ repeat (header_segment 0 0 RDT_ACK) (S (List.length ds)).
Proof.
  intros Hs Hq He.
  destruct (connect_to_remote_start hostname port_num s w Hs) as (w1 & R1 & S1 & E1).
  rewrite <- R1 in Hq.
  destruct (reliable_send_reply os Hok n (header_segment 0 0 RDT_SYN) s w1 d _ Hq)
    as (w2 & E2 & A2 & R2).
  destruct (perror_unless (is_type (received d) RDT_SYNACK) "Message was not a SYNACK"
              (update_rtt (set_current_rtt (sample_after os w1 n) s)) w2)
    as (w3 & E3 & A3).
  assert (R3 : recv_q w3 = map Datagram ds ++ RecvError e :: rest).
  { destruct A3 as (R & _). cbn in R. rewrite <- R. exact R2. }
  destruct (timeout_send_error os Hok ds (header_segment 0 0 RDT_ACK)
              (update_rtt (set_current_rtt (sample_after os w1 n) s)) w3 e rest R3 He)
    as (w4 & E4 & A4 & R4).
  exists (update_rtt (set_current_rtt (sample_after os w1 n) s)), w4.
  split; [|split; [|split]].
  - rewrite E1. unfold bind at 1. rewrite E2. unfold bind at 1. rewrite E3.
    unfold bind at 1. rewrite E4. reflexivity.
  - exact Hs.
  - exact R4.
  - destruct A2 as (_ & S2 & _). destruct A3 as (_ & S3 & _).
    destruct A4 as (_ & S4 & _).
    rewrite S4, S3, S2, S1, app_nil_r, <- app_assoc. reflexivity.
Qed.

End Scripts.

(** ** The second loop of send_close_connection, on any script *)

Lemma await_close_loop_outcome (fuel : nat) :
  forall s w,
  (List.length (recv_q w) < fuel)%nat ->
  match await_close_loop fuel s w with
  | Ret _ s' w' =>
      s' = s /\ trace w' = trace w
      /\ exists noise c,
           recv_q w = noise ++ Datagram c :: recv_q w'
           /\ Forall (fun r => is_close r = false) noise
           /\ is_type (received c) RDT_CLOSE = true
  | Stop why s' w' =>
      why = Pending /\ s' = s /\ trace w' = trace w /\ recv_q w' = []
      /\ Forall (fun r => is_close r = false) (recv_q w)
  end.
Proof.
  induction fuel as [|fuel IH]; intros s w Hlen; [lia|].
  destruct (recv_q w) as [|r q] eqn:Hq.
  - cbn [await_close_loop]. unfold bind, sys_recv. rewrite Hq.
    repeat split; [exact Hq | constructor].
  - rewrite (await_close_loop_step fuel s w r q Hq).
    destruct (is_close r) eqn:Hr.
    + split; [reflexivity|]. split; [reflexivity|].
      destruct r as [e|c]; [discriminate Hr|].
      exists [], c. cbn [app recv_q received_w]. repeat split.
      * constructor.
      * exact Hr.
    + specialize (IH s (received_w r q w)).
      cbn [recv_q received_w List.length] in IH, Hlen.
      assert (Hl : (List.length q < fuel)%nat) by lia.
      specialize (IH Hl).
      destruct (await_close_loop fuel s (received_w r q w)) as [[] s' w'|why s' w'].
      * destruct IH as (I1 & I2 & noise & c & I3 & I4 & I5).
        split; [exact I1|]. split; [exact I2|].
        exists (r :: noise), c. rewrite I3. repeat split.
        -- constructor; assumption.
        -- exact I5.
      * destruct IH as (I1 & I2 & I3 & I4 & I5).
        repeat split; try assumption. constructor; assumption.
Qed.

(** ** A failure of setsockopt *)

Lemma reliable_send_setsockopt_fails (os : Oracle) seg s w :
  setsockopt_errno os (n_sockopt w) <> 0 ->
  exists w',
    reliable_send os seg s w = Stop Exited s w'
    /\ recv_q w' = recv_q w
    /\ trace w'
       = trace w ++ [EvLogTimeout (to_uint32 (rto s)); EvPerror "setsockopt"].
Proof.
  intros H. unfold reliable_send. unfold bind at 1. unfold this.
  unfold bind at 1. rewrite set_timeout_length_fail by exact H.
  eexists. split; [reflexivity|]. cbn [recv_q trace emit_w sockopt_w].
  rewrite <- app_assoc. split; reflexivity.
Qed.

(** ** The estimator when the round trips are short *)

Lemma next_estimated_rtt_short (est c : Z) :
  0 <= est -> 0 <= c < 8 ->
  next_estimated_rtt est c = 7 * est / 8.
Proof.
  intros He Hc. rewrite next_estimated_rtt_eq.
  assert (H1 : 0 <= Z.quot (7 * est) 8)
    by (rewrite Z.quot_div_nonneg by lia; apply Z.div_pos; lia).
  rewrite (Z.quot_div_nonneg (8 * Z.quot (7 * est) 8 + c) 8) by lia.
  rewrite (Z.quot_div_nonneg (7 * est) 8) in * by lia.
  Z.div_mod_to_equations. lia.
Qed.

Lemma next_dev_rtt_nonneg (dev c est' : Z) :
  0 <= dev ->
  next_dev_rtt dev c est' = 3 * dev / 4 + Z.abs (c - est') / 4.
Proof.
  intros Hd. rewrite next_dev_rtt_eq.
  assert (H1 : 0 <= Z.quot (3 * dev) 4)
    by (rewrite Z.quot_div_nonneg by lia; apply Z.div_pos; lia).
  rewrite (Z.quot_div_nonneg (4 * Z.quot (3 * dev) 4 + Z.abs (c - est')) 4) by lia.
  rewrite (Z.quot_div_nonneg (3 * dev) 4) in * by lia.
  Z.div_mod_to_equations. lia.
Qed.

Lemma after_samples_snoc cs c s :
  after_samples (cs ++ [c]) s = update_rtt (set_current_rtt c (after_samples cs s)).
Proof. unfold after_samples. rewrite fold_left_app. reflexivity. Qed.

Lemma after_samples_app cs1 cs2 s :
  after_samples (cs1 ++ cs2) s = after_samples cs2 (after_samples cs1 s).
Proof. unfold after_samples. apply fold_left_app. Qed.

(** While the estimate is positive it decreases; the deviation stays
    below the largest of its first value, the first estimate and 3. *)
Lemma after_samples_estimate cs :
  forall s,
  Forall (fun c => 0 <= c < 4) cs -> 0 <= estimated_rtt s -> 0 <= dev_rtt s ->
  0 <= estimated_rtt (after_samples cs s)
    <= Z.max 0 (estimated_rtt s - Z.of_nat (List.length cs))
  /\ 0 <= dev_rtt (after_samples cs s)
       <= Z.max (dev_rtt s) (Z.max (estimated_rtt s) 3).
Proof.
  induction cs as [|c cs IH] using rev_ind; intros s Hcs He Hd.
  - cbn. lia.
  - apply Forall_app in Hcs. destruct Hcs as (Hcs & Hc).
    inversion Hc as [|c' l' Hc0 _]; subst.
    destruct (IH s Hcs He Hd) as (I1 & I2).
    rewrite after_samples_snoc, length_app. cbn [List.length].
    set (s1 := after_samples cs s) in *.
    unfold update_rtt. cbn [estimated_rtt dev_rtt current_rtt set_rtt set_current_rtt].
    rewrite next_estimated_rtt_short by lia.
    rewrite next_dev_rtt_nonneg by lia.
    split; Z.div_mod_to_equations; lia.
Qed.

(** Once the estimate is 0 it stays 0, and the deviation decreases. *)
Lemma after_samples_deviation cs :
  forall s,
  Forall (fun c => 0 <= c < 4) cs -> estimated_rtt s = 0 -> 0 <= dev_rtt s ->
  estimated_rtt (after_samples cs s) = 0
  /\ 0 <= dev_rtt (after_samples cs s)
       <= Z.max 0 (dev_rtt s - Z.of_nat (List.length cs)).
Proof.
  induction cs as [|c cs IH] using rev_ind; intros s Hcs He Hd.
  - cbn. lia.
  - apply Forall_app in Hcs. destruct Hcs as (Hcs & Hc).
    inversion Hc as [|c' l' Hc0 _]; subst.
    destruct (IH s Hcs He Hd) as (I1 & I2).
    rewrite after_samples_snoc, length_app. cbn [List.length].
    set (s1 := after_samples cs s) in *.
    unfold update_rtt. cbn [estimated_rtt dev_rtt current_rtt set_rtt set_current_rtt].
    rewrite next_estimated_rtt_short by lia. rewrite I1.
    change (7 * 0 / 8) with 0.
    rewrite next_dev_rtt_nonneg by lia.
    split; [reflexivity|]. Z.div_mod_to_equations. lia.
Qed.

(** ** The handshake and the teardown of the passive side, as equations *)

Lemma accept_connection_done (os : Oracle) (port_num : Z)
    (syn : list byte) (rs : list (nat * list byte)) (n : nat) (d : list byte)
    (s : ReliableSocket) (w : World) (rest : list recv_result) :
  setsockopt_ok os ->
  misc_errno os (S (n_misc w)) = 0 ->
  state s = INIT ->
  is_type (received syn) RDT_SYN = true ->
  Forall (fun r => accepts (received (snd r)) = false) rs ->
  accepts (received d) = true ->
  recv_q w = Datagram syn :: exchanges rs ++ repeat Timeout n ++ Datagram d :: rest ->
  exists s' w',
    accept_connection os port_num s w = Ret tt s' w'
    /\ state s' = ESTABLISHED
    /\ sequence_number s' = sequence_number s
    /\ recv_q w' = rest
    /\ sends (trace w')
       = sends (trace w)
           ++ repeat (header_segment 0 0 RDT_SYNACK) (transmissions rs + S n)
    /\ calls (trace w') = calls (trace w) ++ [EvBind (to_uint16 port_num); EvConnect].
Proof.
  intros Hok Hc Hs Hsyn Hall Hacc Hq.
  destruct (accept_connection_start os port_num s w syn _ Hs Hc Hq)
    as (w1 & E1 & R1 & S1 & C1).
  rewrite Hsyn in E1.
  destruct (accept_loop_done os Hok rs n d s w1 rest Hall Hacc R1)
    as (s2 & w2 & E2 & (_ & Q2 & _ & _) & R2 & S2 & C2).
  exists (set_state ESTABLISHED s2), (emit_w (EvCerr "Connection ESTABLISHED") w2).
  split; [|split; [|split; [|split; [|split]]]].
  - rewrite E1. unfold bind at 1. rewrite E2. reflexivity.
  - reflexivity.
  - exact Q2.
  - exact R2.
  - cbn [trace emit_w]. rewrite sends_app, S2, S1. apply app_nil_r.
  - cbn [trace emit_w]. rewrite calls_app, C2, C1. apply app_nil_r.
Qed.

Lemma close_connection_FIN_done (os : Oracle) (rs : list (nat * list byte))
    (n : nat) (d : list byte) (s : ReliableSocket) (w : World)
    (rest : list recv_result) :
  setsockopt_ok os ->
  state s = FIN ->
  Forall (fun r => is_type (received (snd r)) RDT_ACK = false) rs ->
  is_type (received d) RDT_ACK = true ->
  recv_q w = exchanges rs ++ repeat Timeout n ++ Datagram d :: rest ->
  exists s' w',
    close_connection os s w = Ret tt s' w'
    /\ state s' = CLOSED
    /\ recv_q w' = rest
    /\ sends (trace w')
       = sends (trace w)
           ++ repeat (header_segment 0 0 RDT_CLOSE) (transmissions rs + S n)
    /\ calls (trace w') = calls (trace w) ++ [EvClose].
Proof.
  intros Hok Hs Hall Hack Hq.
  destruct (receive_close_connection_done os Hok rs n d s w rest Hall Hack Hq)
    as (s1 & w1 & E1 & C1 & R1 & S1).
  pose proof (obeys_receive_close_connection os s w) as H.
  rewrite E1 in H.
  destruct (obeys_trace_quiet _ _ _ _ _ H) as (segs & _ & H2 & _).
  cbn [final_world] in H2.
  destruct (close_connection_tail os s1 w1) as (w2 & E2 & R2 & _).
  destruct (close_connection_tail_calls os s1 w1) as (w3 & E3 & S3 & C3).
  rewrite E2 in E3. injection E3 as <-.
  exists (set_state CLOSED s1), w2. split; [|split; [|split; [|split]]].
  - rewrite close_connection_eq, Hs. cbn [status_eqb negb]. rewrite E1. exact E2.
  - reflexivity.
  - rewrite R2. exact R1.
  - rewrite S3. exact S1.
  - rewrite C3, H2. reflexivity.
Qed.

(** ** What one side sends is what the other side decodes *)

Lemma received_data_segment (n : Z) (data : list byte) :
  Z.of_nat (List.length data) <= MAX_DATA_SIZE ->
  received (data_segment n data) = data_segment n data.
Proof.
  intros H. unfold received. apply firstn_all2.
  pose proof (data_segment_length n data) as L. unfold MAX_DATA_SIZE in H.
  apply Nat2Z.inj_le. rewrite Z2Nat.id by (unfold MAX_SEG_SIZE; lia). lia.
Qed.

Lemma ack_of_data_segment (n : Z) (data : list byte) :
  ack_of (data_segment n data) = header_segment n n RDT_ACK.
Proof. reflexivity. Qed.

Lemma acks_own_number (n : Z) :
  0 <= n < 2 ^ 32 -> acks n (received (header_segment n n RDT_ACK)) = true.
Proof.
  intros H. change (received (header_segment n n RDT_ACK))
    with (header_segment n n RDT_ACK).
  unfold acks. apply andb_true_intro. split; [reflexivity|].
  apply Z.eqb_eq. unfold header_segment.
  rewrite <- (app_nil_r (RDTHeader.encode _)), hdr_ack_number_encode.
  cbn [RDTHeader.ack_number]. unfold to_uint32. symmetry. apply Z.mod_small. exact H.
Qed.

(** ** The passive open *)

(** X7.  [accept_connection] in state [INIT]: after [bind] (whose failure
    is only reported) the first segment received, a SYN, is answered by a
    SYNACK with sequence and ack number 0, by way of [reliable_send]; the
    SYNACK is sent again after every receive timeout and after every reply
    that is neither an ACK nor a DATA segment; the first ACK or DATA
    segment ends the handshake with the state [ESTABLISHED].  That segment
    is consumed: a DATA segment that ends the handshake is neither
    acknowledged nor delivered. *)
Theorem accept_connection_handshake (os : Oracle) (port_num : Z)
    (syn : list byte) (rs : list (nat * list byte)) (n : nat) (d : list byte)
    (s : ReliableSocket) (w : World) (rest : list recv_result) :
  setsockopt_ok os ->
  misc_errno os (S (n_misc w)) = 0 ->
  state s = INIT ->
  is_type (received syn) RDT_SYN = true ->
  Forall (fun r => accepts (received (snd r)) = false) rs ->
  accepts (received d) = true ->
  recv_q w = Datagram syn :: exchanges rs ++ repeat Timeout n ++ Datagram d :: rest ->
  exists s' w',
    accept_connection os port_num s w = Ret tt s' w'
    /\ state s' = ESTABLISHED
    /\ sequence_number s' = sequence_number s
    /\ recv_q w' = rest
    /\ sends (trace w')
       = sends (trace w)
           ++ repeat (header_segment 0 0 RDT_SYNACK) (transmissions rs + S n)
    /\ calls (trace w') = calls (trace w) ++ [EvBind (to_uint16 port_num); EvConnect].
Proof.
  exact (accept_connection_done os port_num syn rs n d s w rest).
Qed.

Lemma accept_connection_handshake_witness :
  setsockopt_ok calm
  /\ state fresh_socket = INIT
  /\ exists s' w',
       accept_connection calm 8080 fresh_socket
         (world_of [Datagram SYN_segment; Timeout; Datagram SYN_segment;
                    Datagram (data_segment 0 [x68])])
       = Ret tt s' w'
       /\ state s' = ESTABLISHED
       /\ recv_q w' = []
       /\ sends (trace w') = [SYNACK_segment; SYNACK_segment; SYNACK_segment]
       /\ calls (trace w') = [EvBind 8080; EvConnect].
Proof.
  split; [intros i; reflexivity|]. split; [reflexivity|].
  destruct (accept_connection_handshake calm 8080 SYN_segment
              [(1%nat, SYN_segment)] 0 (data_segment 0 [x68]) fresh_socket
              (world_of [Datagram SYN_segment; Timeout; Datagram SYN_segment;
                         Datagram (data_segment 0 [x68])]) [])
    as (s' & w' & E & T & _ & R & S & C).
  - intros i. reflexivity.
  - reflexivity.
  - reflexivity.
  - reflexivity.
  - constructor; [reflexivity | constructor].
  - reflexivity.
  - reflexivity.
  - exists s', w'. split; [exact E|]. split; [exact T|]. split; [exact R|].
    split; [exact S | exact C].
Defined.

(** X8.  [accept_connection] in state [INIT] ends the process, with the
    state still [INIT] and nothing sent, in three cases: the first
    [recvfrom] fails, with whatever [errno], a timeout included; [connect]
    fails; or the first segment is not a SYN, in which case the socket has
    already been connected to its sender. *)
Theorem accept_connection_exits (os : Oracle) (port_num : Z)
    (s : ReliableSocket) (w : World) :
  state s = INIT ->
  (forall e q,
     recv_q w = RecvError e :: q ->
     exists w',
       accept_connection os port_num s w = Stop Exited s w'
       /\ sends (trace w') = sends (trace w)
       /\ calls (trace w') = calls (trace w) ++ [EvBind (to_uint16 port_num)]
       /\ perrors (trace w')
          = perrors (trace w)
              ++ (if misc_errno os (n_misc w) =? 0 then [] else ["bind"%string])
              ++ ["accept recvfrom"%string])
  /\ (forall d q,
        recv_q w = Datagram d :: q ->
        misc_errno os (S (n_misc w)) <> 0 ->
        exists w',
          accept_connection os port_num s w = Stop Exited s w'
          /\ sends (trace w') = sends (trace w)
          /\ perrors (trace w')
             = perrors (trace w)
                 ++ (if misc_errno os (n_misc w) =? 0 then [] else ["bind"%string])
                 ++ ["accept connect"%string])
  /\ (forall d q,
        recv_q w = Datagram d :: q ->
        misc_errno os (S (n_misc w)) = 0 ->
        is_type (received d) RDT_SYN = false ->
        exists w',
          accept_connection os port_num s w = Stop Exited s w'
          /\ sends (trace w') = sends (trace w)
          /\ calls (trace w') = calls (trace w) ++ [EvBind (to_uint16 port_num); EvConnect]).
Proof.
  intros Hs. split; [|split].
  - intros e q Hq.
    destruct (accept_connection_recv_error os port_num s w e q Hs Hq)
      as (w' & E & _ & S & C & P).
    exists w'. repeat split; assumption.
  - intros d q Hq Hc.
    destruct (accept_connection_connect_error os port_num s w d q Hs Hq Hc)
      as (w' & E & _ & S & P).
    exists w'. repeat split; assumption.
  - intros d q Hq Hc Hty.
    destruct (accept_connection_start os port_num s w d q Hs Hc Hq)
      as (w1 & E & _ & S & C).
    rewrite Hty in E. eexists. split; [exact E|].
    cbn [trace emit_w]. rewrite !sends_app, !calls_app, S, C. cbn.
    rewrite !app_nil_r. split; reflexivity.
Qed.

Lemma accept_connection_exits_witness :
  state fresh_socket = INIT
  /\ (exists w',
        accept_connection calm 8080 fresh_socket (world_of [Timeout])
        = Stop Exited fresh_socket w'
        /\ sends (trace w') = []
        /\ perrors (trace w') = ["accept recvfrom"%string])
  /\ (exists w',
        accept_connection calm 8080 fresh_socket
          (world_of [Datagram (data_segment 0 [x68])])
        = Stop Exited fresh_socket w'
        /\ sends (trace w') = []
        /\ calls (trace w') = [EvBind 8080; EvConnect]).
Proof.
  split; [reflexivity|]. split.
  - destruct (accept_connection_exits calm 8080 fresh_socket (world_of [Timeout])
                eq_refl) as (H & _ & _).
    destruct (H EAGAIN [] eq_refl) as (w' & E & S & _ & P).
    exists w'. split; [exact E|]. split; [exact S | exact P].
  - destruct (accept_connection_exits calm 8080 fresh_socket
                (world_of [Datagram (data_segment 0 [x68])]) eq_refl)
      as (_ & _ & H).
    destruct (H (data_segment 0 [x68]) [] eq_refl eq_refl eq_refl)
      as (w' & E & S & C).
    exists w'. split; [exact E|]. split; [exact S | exact C].
Defined.

(** ** receive_data: segments other than the DATA it expects *)

(** X9.  [receive_data] in state [ESTABLISHED] skips ACK segments without
    answering them.  A CLOSE segment makes it send an ACK with sequence
    and ack number 0 by way of [timeout_send], that is, again for every
    segment that arrives before a receive timeout of
    [estimated_rtt + 4 * dev_rtt] passes; it then returns 0 with the state
    [FIN] and the sequence number unchanged. *)
Theorem receive_data_close_segment (os : Oracle) (strays : list (list byte))
    (c : list byte) (ds : list (list byte)) (s : ReliableSocket) (w : World)
    (rest : list recv_result) :
  setsockopt_ok os ->
  state s = ESTABLISHED ->
  Forall (fun d => is_type (received d) RDT_ACK = true) strays ->
  is_type (received c) RDT_CLOSE = true ->
  recv_q w = map Datagram strays ++ Datagram c :: map Datagram ds ++ Timeout :: rest ->
  exists w',
    receive_data os s w = Ret (0, []) (set_state FIN s) w'
    /\ recv_q w' = rest
    /\ sends (trace w')
       = sends (trace w) ++ repeat (header_segment 0 0 RDT_ACK) (S (List.length ds))
    /\ applied_timeouts (trace w')
       = applied_timeouts (trace w)
           ++ 0 :: repeat (to_uint32 (rto s)) (S (List.length ds)).
Proof.
  intros Hok Hs Hall Hc Hq.
  exact (receive_data_closed os Hok strays c ds s w rest Hs Hall Hc Hq).
Qed.

Lemma receive_data_close_segment_witness :
  setsockopt_ok calm
  /\ state open_socket = ESTABLISHED
  /\ exists w',
       receive_data calm open_socket
         (world_of [Datagram (ACK_segment 0); Datagram CLOSE_segment;
                    Datagram CLOSE_segment; Timeout])
       = Ret (0, []) (set_state FIN open_socket) w'
       /\ recv_q w' = []
       /\ sends (trace w') = [ACK_segment 0; ACK_segment 0]
       /\ applied_timeouts (trace w') = [0; 140; 140].
Proof.
  split; [intros i; reflexivity|]. split; [reflexivity|].
  destruct (receive_data_close_segment calm [ACK_segment 0] CLOSE_segment
              [CLOSE_segment] open_socket
              (world_of [Datagram (ACK_segment 0); Datagram CLOSE_segment;
                         Datagram CLOSE_segment; Timeout]) [])
    as (w' & E & R & S & T).
  - intros i. reflexivity.
  - reflexivity.
  - constructor; [reflexivity | constructor].
  - reflexivity.
  - reflexivity.
  - exists w'. split; [exact E|]. split; [exact R|]. split; [exact S | exact T].
Defined.

(** X10.  [receive_data] does not test for the type DATA.  A segment of
    any other type than ACK and CLOSE (a SYN, a SYNACK, a type the
    protocol does not define) that is at least a header long and whose
    sequence field equals the sequence number of the object is
    acknowledged and delivered as data: the bytes after its header are
    returned and the sequence number is incremented. *)
Theorem receive_data_ignores_type (os : Oracle) (d : list byte)
    (s : ReliableSocket) (w : World) (rest : list recv_result) :
  setsockopt_ok os ->
  state s = ESTABLISHED ->
  recv_q w = Datagram d :: rest ->
  is_type (received d) RDT_DATA = false ->
  is_type (received d) RDT_ACK = false ->
  is_type (received d) RDT_CLOSE = false ->
  seq_of (received d) = sequence_number s ->
  sizeof_RDTHeader <= Z.of_nat (List.length (received d)) ->
  exists w',
    receive_data os s w
    = Ret (Z.of_nat (List.length (received d)) - sizeof_RDTHeader,
           payload_of (received d)) (next_sequence s) w'
    /\ recv_q w' = rest
    /\ sends (trace w') = sends (trace w) ++ [ack_of (received d)].
Proof.
  intros Hok Hs Hq _ Hack Hclose Hseq Hlen.
  destruct (receive_data_first_segment os Hok d s w rest Hs Hq Hack Hclose Hseq)
    as (w' & E & R & S).
  exists w'. split; [|split; assumption].
  rewrite E.
  destruct (Z.ltb_spec (Z.of_nat (List.length (received d)) - sizeof_RDTHeader) 0);
    [lia | reflexivity].
Qed.

Lemma receive_data_ignores_type_witness :
  setsockopt_ok calm
  /\ state open_socket = ESTABLISHED
  /\ is_type (received SYN_segment) RDT_DATA = false
  /\ exists w',
       receive_data calm open_socket (world_of [Datagram SYN_segment])
       = Ret (0, []) (next_sequence open_socket) w'
       /\ sequence_number (next_sequence open_socket) = 1
       /\ sends (trace w') = [header_segment 0 0 RDT_ACK].
Proof.
  split; [intros i; reflexivity|]. split; [reflexivity|]. split; [reflexivity|].
  destruct (receive_data_ignores_type calm SYN_segment open_socket
              (world_of [Datagram SYN_segment]) [])
    as (w' & E & _ & S).
  - intros i. reflexivity.
  - reflexivity.
  - reflexivity.
  - reflexivity.
  - reflexivity.
  - reflexivity.
  - reflexivity.
  - vm_compute. discriminate.
  - exists w'. split; [exact E|]. split; [reflexivity | exact S].
Defined.

(** X11.  [receive_data] does not test the length of what it received.
    A datagram shorter than a header is read from the zeroed buffer; if it
    is neither an ACK nor a CLOSE and its sequence field equals the
    sequence number of the object, it is acknowledged, the sequence number
    is incremented, and [memcpy] is called with the negative count
    [recv_count - sizeof(RDTHeader)]. *)
Theorem receive_data_short_datagram (os : Oracle) (d : list byte)
    (s : ReliableSocket) (w : World) (rest : list recv_result) :
  setsockopt_ok os ->
  state s = ESTABLISHED ->
  recv_q w = Datagram d :: rest ->
  Z.of_nat (List.length (received d)) < sizeof_RDTHeader ->
  is_type (received d) RDT_ACK = false ->
  is_type (received d) RDT_CLOSE = false ->
  seq_of (received d) = sequence_number s ->
  exists w',
    receive_data os s w = Stop Fault (next_sequence s) w'
    /\ recv_q w' = rest
    /\ sends (trace w') = sends (trace w) ++ [ack_of (received d)].
Proof.
  intros Hok Hs Hq Hlen Hack Hclose Hseq.
  destruct (receive_data_first_segment os Hok d s w rest Hs Hq Hack Hclose Hseq)
    as (w' & E & R & S).
  exists w'. split; [|split; assumption].
  rewrite E.
  destruct (Z.ltb_spec (Z.of_nat (List.length (received d)) - sizeof_RDTHeader) 0);
    [reflexivity | lia].
Qed.

Lemma receive_data_short_datagram_witness :
  setsockopt_ok calm
  /\ state open_socket = ESTABLISHED
  /\ exists w',
       receive_data calm open_socket (world_of [Datagram []])
       = Stop Fault (next_sequence open_socket) w'
       /\ sends (trace w') = [header_segment 0 0 RDT_ACK].
Proof.
  split; [intros i; reflexivity|]. split; [reflexivity|].
  destruct (receive_data_short_datagram calm [] open_socket
              (world_of [Datagram []]) [])
    as (w' & E & _ & S).
  - intros i. reflexivity.
  - reflexivity.
  - reflexivity.
  - vm_compute. reflexivity.
  - reflexivity.
  - reflexivity.
  - reflexivity.
  - exists w'. split; [exact E | exact S].
Defined.

(** ** The teardown *)

(** X12.  [close_connection] in state [FIN], the side that received the
    CLOSE first: the CLOSE with sequence and ack number 0 is sent by way
    of [reliable_send], again after every receive timeout and after every
    reply that is not an ACK (a CLOSE of the peer is not accepted here);
    the first ACK ends the exchange, the state becomes [CLOSED] and the
    socket is closed at once, with no wait. *)
Theorem close_connection_after_FIN (os : Oracle) (rs : list (nat * list byte))
    (n : nat) (d : list byte) (s : ReliableSocket) (w : World)
    (rest : list recv_result) :
  setsockopt_ok os ->
  state s = FIN ->
  Forall (fun r => is_type (received (snd r)) RDT_ACK = false) rs ->
  is_type (received d) RDT_ACK = true ->
  recv_q w = exchanges rs ++ repeat Timeout n ++ Datagram d :: rest ->
  exists s' w',
    close_connection os s w = Ret tt s' w'
    /\ state s' = CLOSED
    /\ recv_q w' = rest
    /\ sends (trace w')
       = sends (trace w)
           ++ repeat (header_segment 0 0 RDT_CLOSE) (transmissions rs + S n)
    /\ calls (trace w') = calls (trace w) ++ [EvClose].
Proof.
  exact (close_connection_FIN_done os rs n d s w rest).
Qed.

Lemma close_connection_after_FIN_witness :
  setsockopt_ok calm
  /\ state (set_state FIN open_socket) = FIN
  /\ exists s' w',
       close_connection calm (set_state FIN open_socket)
         (world_of [Datagram CLOSE_segment; Timeout; Datagram (ACK_segment 0)])
       = Ret tt s' w'
       /\ state s' = CLOSED
       /\ sends (trace w') = [CLOSE_segment; CLOSE_segment; CLOSE_segment]
       /\ calls (trace w') = [EvClose].
Proof.
  split; [intros i; reflexivity|]. split; [reflexivity|].
  destruct (close_connection_after_FIN calm [(0%nat, CLOSE_segment)] 1
              (ACK_segment 0) (set_state FIN open_socket)
              (world_of [Datagram CLOSE_segment; Timeout; Datagram (ACK_segment 0)])
              [])
    as (s' & w' & E & T & _ & S & C).
  - intros i. reflexivity.
  - reflexivity.
  - constructor; [reflexivity | constructor].
  - reflexivity.
  - reflexivity.
  - exists s', w'. split; [exact E|]. split; [exact T|]. split; [exact S | exact C].
Defined.

(** X13.  The second loop of [send_close_connection], which waits for
    the CLOSE of the peer, on any script.  It sends nothing and reports
    nothing; every failure of [recv], of whatever [errno], is followed by
    another [recv], the test for an error other than a timeout being
    unreachable; so the loop never ends the process.  It ends only on a
    CLOSE segment, every result before which was a failure or a segment of
    another type. *)
Theorem await_close_never_exits (s : ReliableSocket) (w : World) :
  match with_fuel await_close_loop s w with
  | Ret _ s' w' =>
      s' = s /\ trace w' = trace w
      /\ exists noise c,
           recv_q w = noise ++ Datagram c :: recv_q w'
           /\ Forall (fun r => is_close r = false) noise
           /\ is_type (received c) RDT_CLOSE = true
  | Stop why s' w' =>
      why = Pending /\ s' = s /\ trace w' = trace w /\ recv_q w' = []
      /\ Forall (fun r => is_close r = false) (recv_q w)
  end.
Proof.
  unfold with_fuel. apply await_close_loop_outcome. apply Nat.lt_succ_diag_r.
Qed.

(** X14.  A failure of [recv] other than a timeout during the wait of
    [TIME_WAIT] ends the process: [close_connection] then neither sets the
    state to [CLOSED] nor closes the socket. *)
Theorem close_connection_wait_fails (os : Oracle) (n : nat) (a : list byte)
    (noise : list recv_result) (c : list byte) (cs : list (list byte)) (e : Z)
    (s : ReliableSocket) (w : World) (rest : list recv_result) :
  setsockopt_ok os ->
  state s <> FIN ->
  recv_q w = repeat Timeout n ++ Datagram a :: noise
               ++ Datagram c :: map Datagram cs ++ RecvError e :: rest ->
  is_type (received a) RDT_ACK || is_type (received a) RDT_CLOSE = true ->
  Forall (fun r => is_close r = false) noise ->
  is_type (received c) RDT_CLOSE = true ->
  Forall (fun d => d <> []) cs ->
  e <> EAGAIN ->
  exists s' w',
    close_connection os s w = Stop Exited s' w'
    /\ state s' = state s
    /\ sends (trace w')
       = sends (trace w) ++ repeat (header_segment 0 0 RDT_CLOSE) (S n)
           ++ repeat (header_segment 0 0 RDT_ACK) (S (List.length cs))
    /\ closes (trace w') = closes (trace w).
Proof.
  intros Hok Hs Hq Ha Hnoise Hc Hcs He.
  destruct (send_close_connection_error os Hok n a noise c cs e s w rest
              Hq Ha Hnoise Hc Hcs He)
    as (s1 & w1 & E1 & (_ & _ & _ & T1) & S1 & X1).
  exists s1, w1. split; [|split; [|split]]; try assumption.
  rewrite close_connection_eq, (status_eqb_neq _ _ Hs). cbn [negb].
  rewrite E1. reflexivity.
Qed.

Lemma close_connection_wait_fails_witness :
  setsockopt_ok calm
  /\ state open_socket <> FIN
  /\ exists s' w',
       close_connection calm open_socket
         (world_of [Datagram (ACK_segment 0); Datagram CLOSE_segment; RecvError 111])
       = Stop Exited s' w'
       /\ state s' = ESTABLISHED
       /\ sends (trace w') = [CLOSE_segment; ACK_segment 0]
       /\ closes (trace w') = 0%nat.
Proof.
  split; [intros i; reflexivity|]. split; [discriminate|].
  destruct (close_connection_wait_fails calm 0 (ACK_segment 0) [] CLOSE_segment []
              111 open_socket
              (world_of [Datagram (ACK_segment 0); Datagram CLOSE_segment;
                         RecvError 111]) [])
    as (s' & w' & E & T & S & X).
  - intros i. reflexivity.
  - discriminate.
  - reflexivity.
  - reflexivity.
  - constructor.
  - reflexivity.
  - constructor.
  - discriminate.
  - exists s', w'. split; [exact E|]. split; [exact T|]. split; [exact S | exact X].
Defined.

(** X15.  The wait of [TIME_WAIT] tests [recv(...) > 0], so a datagram
    of no bytes is taken for a failure of [recv], and [errno], which
    [recv] did not set, decides: if it still holds [EAGAIN] from an earlier
    timeout (and the [send] just before succeeded), the wait ends as if
    the time had passed; otherwise the process exits with
    "send_close_connection recv". *)
Theorem time_wait_empty_datagram (os : Oracle) (s : ReliableSocket) (w : World)
    (rest : list recv_result) :
  setsockopt_ok os ->
  recv_q w = Datagram [] :: rest ->
  exists w',
    with_fuel (time_wait_loop os) s w
    = (if errno_after (send_errno os (n_send w)) w =? EAGAIN
       then Ret tt s w'
       else Stop Exited s (emit_w (EvPerror "send_close_connection recv") w'))
    /\ recv_q w' = rest
    /\ sends (trace w') = sends (trace w) ++ [header_segment 0 0 RDT_ACK]
    /\ applied_timeouts (trace w') = applied_timeouts (trace w) ++ [TIME_WAIT].
Proof.
  intros Hok Hq.
  destruct (time_wait_loop_empty os Hok (List.length (recv_q w)) s w rest Hq)
    as (w' & E & R & S & T & _).
  exists w'. split; [exact E|]. split; [|split; assumption].
  rewrite Hq in R. cbn in R. congruence.
Qed.

Lemma time_wait_empty_datagram_witness :
  setsockopt_ok calm
  /\ (exists w',
        with_fuel (time_wait_loop calm) open_socket (world_of [Datagram []])
        = Stop Exited open_socket w'
        /\ sends (trace w') = [header_segment 0 0 RDT_ACK])
  /\ (exists w',
        with_fuel (time_wait_loop calm) open_socket
          (mkWorld [Datagram []] EAGAIN 0 0 0 0 [])
        = Ret tt open_socket w'
        /\ recv_q w' = []).
Proof.
  split; [intros i; reflexivity|]. split.
  - destruct (time_wait_empty_datagram calm open_socket (world_of [Datagram []]) [])
      as (w' & E & R & S & T).
    + intros i. reflexivity.
    + reflexivity.
    + eexists. split; [exact E|].
      cbn [trace emit_w]. rewrite sends_app, S. reflexivity.
  - destruct (time_wait_empty_datagram calm open_socket
                (mkWorld [Datagram []] EAGAIN 0 0 0 0 []) [])
      as (w' & E & R & S & T).
    + intros i. reflexivity.
    + reflexivity.
    + exists w'. split; [exact E | exact R].
Defined.

(** ** The receive timeout on a fast link *)

(** X16.  Both updates truncate.  A sample below 8 ms adds nothing to
    the estimate, which becomes [7 * estimated_rtt / 8] rounded down; and
    once the estimate is 0, a sample below 4 ms adds nothing to the
    deviation, which becomes [3 * dev_rtt / 4] rounded down.  So when every
    exchange of [reliable_send] measures a round trip below 4 ms, not
    necessarily the same one, [estimated_rtt] and [dev_rtt] fall to 0 and
    stay there, and the receive timeout that [set_estimated_rtt] applies is
    then 0, the value with which [receive_data] asks for no timeout: this
    is the case after [2 * estimated_rtt + dev_rtt + 3] exchanges at the
    latest. *)
Theorem short_round_trips_collapse_timeout (os : Oracle) (cs : list Z) (c : Z)
    (s : ReliableSocket) (w : World) :
  setsockopt_ok os ->
  Forall (fun x => 0 <= x < 4) cs -> 0 <= c < 4 ->
  0 <= estimated_rtt s -> 0 <= dev_rtt s ->
  2 * estimated_rtt s + dev_rtt s + 3 <= Z.of_nat (List.length cs) ->
  (forall s0 x,
     0 <= estimated_rtt s0 -> 0 <= x < 8 ->
     estimated_rtt (update_rtt (set_current_rtt x s0)) = 7 * estimated_rtt s0 / 8)
  /\ (forall s0 x,
        estimated_rtt s0 = 0 -> 0 <= dev_rtt s0 -> 0 <= x < 4 ->
        dev_rtt (update_rtt (set_current_rtt x s0)) = 3 * dev_rtt s0 / 4)
  /\ exists s' w',
       set_estimated_rtt os (set_current_rtt c (after_samples cs s)) w = Ret tt s' w'
       /\ estimated_rtt s' = 0 /\ dev_rtt s' = 0
       /\ applied_timeouts (trace w') = applied_timeouts (trace w) ++ [0].
Proof.
  intros Hok Hcs Hc He Hd Hk. split; [|split].
  { intros s0 x H0 Hx. unfold update_rtt.
    cbn [estimated_rtt dev_rtt current_rtt set_rtt set_current_rtt].
    apply next_estimated_rtt_short; assumption. }
  { intros s0 x H0 H1 Hx. unfold update_rtt.
    cbn [estimated_rtt dev_rtt current_rtt set_rtt set_current_rtt].
    rewrite next_estimated_rtt_short by lia. rewrite H0.
    change (7 * 0 / 8) with 0.
    rewrite next_dev_rtt_nonneg by lia.
    Z.div_mod_to_equations. lia. }
  set (e0 := Z.to_nat (estimated_rtt s)).
  assert (Hall : Forall (fun x => 0 <= x < 4) (cs ++ [c])).
  { apply Forall_app. split; [exact Hcs | constructor; [exact Hc | constructor]]. }
  assert (Hsplit : cs ++ [c] = firstn e0 cs ++ (skipn e0 cs ++ [c])).
  { rewrite app_assoc, firstn_skipn. reflexivity. }
  rewrite Hsplit in Hall. apply Forall_app in Hall. destruct Hall as (Hl & Hr).
  assert (Hlen1 : List.length (firstn e0 cs) = e0) by (rewrite length_firstn; lia).
  assert (Hlen2 : (List.length (skipn e0 cs ++ [c]) = S (List.length cs - e0))%nat).
  { rewrite length_app, length_skipn. cbn [List.length]. lia. }
  destruct (after_samples_estimate (firstn e0 cs) s Hl He Hd) as (A1 & A2).
  rewrite Hlen1 in A1.
  set (s1 := after_samples (firstn e0 cs) s) in *.
  assert (A0 : estimated_rtt s1 = 0) by lia.
  destruct (after_samples_deviation (skipn e0 cs ++ [c]) s1 Hr A0 (proj1 A2))
    as (B1 & B2).
  rewrite Hlen2 in B2.
  rewrite set_estimated_rtt_eq by exact Hok.
  rewrite <- after_samples_snoc, Hsplit, after_samples_app. fold s1.
  set (s2 := after_samples (skipn e0 cs ++ [c]) s1) in *.
  assert (B0 : dev_rtt s2 = 0) by lia.
  exists s2. eexists. split; [reflexivity|]. split; [exact B1|]. split; [exact B0|].
  cbn [trace timeout_w]. rewrite applied_timeouts_app.
  unfold rto. rewrite B1, B0. reflexivity.
Qed.

Lemma short_round_trips_collapse_timeout_witness :
  let cs := flat_map (fun _ => [0; 3; 1; 2]) (seq 0 54) in
  setsockopt_ok calm
  /\ Forall (fun x => 0 <= x < 4) cs
  /\ 2 * estimated_rtt fresh_socket + dev_rtt fresh_socket + 3
     <= Z.of_nat (List.length cs)
  /\ estimated_rtt (update_rtt (set_current_rtt 7 fresh_socket)) = 87
  /\ exists s' w',
       set_estimated_rtt calm (set_current_rtt 3 (after_samples cs fresh_socket))
         (world_of [])
       = Ret tt s' w'
       /\ estimated_rtt s' = 0 /\ dev_rtt s' = 0
       /\ applied_timeouts (trace w') = [0].
Proof.
  intros cs.
  assert (Hcs : Forall (fun x => 0 <= x < 4) cs).
  { apply Forall_forall. intros x Hx. apply in_flat_map in Hx.
    destruct Hx as (i & _ & [<-|[<-|[<-|[<-|[]]]]]); lia. }
  assert (Hlen : 2 * estimated_rtt fresh_socket + dev_rtt fresh_socket + 3
                 <= Z.of_nat (List.length cs)) by (vm_compute; discriminate).
  split; [intros i; reflexivity|]. split; [exact Hcs|]. split; [exact Hlen|].
  destruct (short_round_trips_collapse_timeout calm cs 3 fresh_socket (world_of []))
    as (F & _ & s' & w' & E & H1 & H2 & T).
  - intros i. reflexivity.
  - exact Hcs.
  - lia.
  - vm_compute. discriminate.
  - vm_compute. discriminate.
  - exact Hlen.
  - split.
    + rewrite F; [reflexivity | vm_compute; discriminate | lia].
    + exists s', w'. split; [exact E|]. split; [exact H1|]. split; [exact H2 | exact T].
Defined.

(** ** Failures of the operating system *)

(** X17.  A failure of [setsockopt] ends the process in
    [set_timeout_length], before the operation has sent anything.
    [receive_data] sets its timeout before it looks at the state, so it
    ends the process in every state; [send_data] and [connect_to_remote]
    do so in the state they accept, [connect_to_remote] after the call of
    [connect]; [close_connection] does so without closing the socket. *)
Theorem setsockopt_failure_exits (os : Oracle) (s : ReliableSocket) (w : World) :
  setsockopt_errno os (n_sockopt w) <> 0 ->
  (exists w',
     receive_data os s w = Stop Exited s w'
     /\ sends (trace w') = sends (trace w) /\ recv_q w' = recv_q w)
  /\ (forall data,
        state s = ESTABLISHED ->
        Z.of_nat (List.length data) <= MAX_DATA_SIZE ->
        exists w',
          send_data os data s w = Stop Exited s w'
          /\ sends (trace w') = sends (trace w) /\ recv_q w' = recv_q w)
  /\ (forall hostname port_num,
        state s = INIT ->
        exists w',
          connect_to_remote os hostname port_num s w = Stop Exited s w'
          /\ sends (trace w') = sends (trace w)
          /\ calls (trace w') = calls (trace w) ++ [EvConnect])
  /\ (exists w',
        close_connection os s w = Stop Exited s w'
        /\ sends (trace w') = sends (trace w)
        /\ calls (trace w') = calls (trace w)).
Proof.
  intros H. split; [|split; [|split]].
  - unfold receive_data. unfold bind at 1.
    rewrite set_timeout_length_fail by exact H.
    eexists. split; [reflexivity|]. cbn [recv_q trace emit_w sockopt_w].
    rewrite !sends_app. cbn. rewrite !app_nil_r. split; reflexivity.
  - intros data Hs Hlen.
    destruct (reliable_send_setsockopt_fails os
                (data_segment (sequence_number s) data) s w H) as (w' & E & R & T).
    exists w'. split; [|split].
    + rewrite send_data_start by assumption.
      unfold bind at 1. unfold with_fuel. cbn [send_data_loop].
      unfold bind at 1. rewrite E. reflexivity.
    + rewrite T, sends_app. apply app_nil_r.
    + exact R.
  - intros hostname port_num Hs.
    unfold connect_to_remote. unfold bind at 1. unfold this. rewrite Hs.
    cbn [status_eqb negb]. unfold bind at 1. unfold sys_misc at 1. cbv zeta.
    destruct (misc_errno os (n_misc w) =? 0); cbn [Z.eqb negb];
      unfold bind at 1; unfold perror, emit, ret;
      unfold bind at 1; unfold this; unfold bind at 1;
      rewrite set_timeout_length_fail by exact H;
      (eexists; split; [reflexivity|]);
      cbn [recv_q trace emit_w sockopt_w misc_w];
      rewrite !sends_app, !calls_app; cbn; rewrite !app_nil_r;
      split; reflexivity.
  - rewrite close_connection_eq.
    destruct (negb (status_eqb (state s) FIN)).
    + destruct (reliable_send_setsockopt_fails os
                  (header_segment 0 0 RDT_CLOSE) s w H) as (w' & E & R & T).
      exists w'. split; [|split].
      * unfold send_close_connection. unfold bind at 1. unfold with_fuel.
        cbn [close_handshake_loop]. unfold bind at 1. rewrite E. reflexivity.
      * rewrite T, sends_app. apply app_nil_r.
      * rewrite T, calls_app. apply app_nil_r.
    + unfold receive_close_connection. unfold bind at 1. unfold this.
      unfold bind at 1. rewrite set_timeout_length_fail by exact H.
      eexists. split; [reflexivity|]. cbn [recv_q trace emit_w sockopt_w].
      rewrite !sends_app, !calls_app. cbn. rewrite !app_nil_r. split; reflexivity.
Qed.

Lemma setsockopt_failure_exits_witness :
  setsockopt_errno sockopt_failing (n_sockopt (world_of [Datagram (data_segment 0 [x68])])) <> 0
  /\ state fresh_socket <> ESTABLISHED
  /\ exists w',
       receive_data sockopt_failing fresh_socket
         (world_of [Datagram (data_segment 0 [x68])])
       = Stop Exited fresh_socket w'
       /\ sends (trace w') = []
       /\ recv_q w' = [Datagram (data_segment 0 [x68])].
Proof.
  split; [discriminate|]. split; [discriminate|].
  destruct (setsockopt_failure_exits sockopt_failing fresh_socket
              (world_of [Datagram (data_segment 0 [x68])]))
    as ((w' & E & S & R) & _).
  - discriminate.
  - exists w'. split; [exact E|]. split; [exact S | exact R].
Defined.

(** X18.  [connect_to_remote] in state [INIT] when [recv] fails other
    than by a timeout: while it waits for the reply to its SYN, or while
    it waits after its ACK, the process ends; the state is still [INIT],
    also in the second case, where the reply to the SYN had come. *)
Theorem connect_to_remote_recv_fails (os : Oracle) (hostname : string)
    (port_num : Z) (n : nat) (e : Z) (s : ReliableSocket) (w : World)
    (rest : list recv_result) :
  setsockopt_ok os ->
  state s = INIT ->
  e <> EAGAIN ->
  (recv_q w = repeat Timeout n ++ RecvError e :: rest ->
   exists w',
     connect_to_remote os hostname port_num s w = Stop Exited s w'
     /\ recv_q w' = rest
     /\ sends (trace w')
        = sends (trace w) ++ repeat (header_segment 0 0 RDT_SYN) (S n))
  /\ (forall d ds,
        recv_q w = repeat Timeout n ++ Datagram d :: map Datagram ds
                     ++ RecvError e :: rest ->
        exists s' w',
          connect_to_remote os hostname port_num s w = Stop Exited s' w'
          /\ state s' = INIT
          /\ recv_q w' = rest
          /\ sends (trace w')
             = sends (trace w) ++ repeat (header_segment 0 0 RDT_SYN) (S n)
                 ++ repeat (header_segment 0 0 RDT_ACK) (S (List.length ds))).
Proof.
  intros Hok Hs He. split.
  - intros Hq. exact (connect_to_remote_no_reply os Hok hostname port_num n e s w rest Hs Hq He).
  - intros d ds Hq.
    exact (connect_to_remote_lost os Hok hostname port_num n d ds e s w rest Hs Hq He).
Qed.

Lemma connect_to_remote_recv_fails_witness :
  setsockopt_ok calm
  /\ state fresh_socket = INIT
  /\ 111 <> EAGAIN
  /\ exists s' w',
       connect_to_remote calm "peer" 8080 fresh_socket
         (world_of [Timeout; Datagram SYNACK_segment; RecvError 111])
       = Stop Exited s' w'
       /\ state s' = INIT
       /\ sends (trace w') = [SYN_segment; SYN_segment; ACK_segment 0].
Proof.
  split; [intros i; reflexivity|]. split; [reflexivity|]. split; [discriminate|].
  destruct (connect_to_remote_recv_fails calm "peer" 8080 1 111 fresh_socket
              (world_of [Timeout; Datagram SYNACK_segment; RecvError 111]) [])
    as (_ & H).
  - intros i. reflexivity.
  - reflexivity.
  - discriminate.
  - destruct (H SYNACK_segment [] eq_refl) as (s' & w' & E & T & _ & S).
    exists s', w'. split; [exact E|]. split; [exact T | exact S].
Defined.

(** ** The two sides together *)

(** X19.  One transfer.  The segment that [send_data] sends, handed to a
    [receive_data] whose sequence number is the sender's, is delivered:
    [receive_data] returns the sender's bytes and their number, for every
    payload of at most [MAX_DATA_SIZE] bytes.  The ACK that
    [receive_data] sends, handed to that [send_data], makes it return
    after its one transmission; and the two sequence numbers are then
    equal again. *)
Theorem data_transfer_end_to_end (os_a os_b : Oracle) (data : list byte)
    (a b : ReliableSocket) (wa wb : World) (rest_a rest_b : list recv_result) :
  setsockopt_ok os_a -> setsockopt_ok os_b ->
  state a = ESTABLISHED -> state b = ESTABLISHED ->
  0 <= sequence_number a < 2 ^ 32 ->
  sequence_number b = sequence_number a ->
  Z.of_nat (List.length data) <= MAX_DATA_SIZE ->
  recv_q wb = Datagram (data_segment (sequence_number a) data) :: rest_b ->
  recv_q wa
  = Datagram (header_segment (sequence_number a) (sequence_number a) RDT_ACK)
      :: rest_a ->
  exists b' wb' a' wa',
    receive_data os_b b wb = Ret (Z.of_nat (List.length data), data) b' wb'
    /\ sends (trace wb')
       = sends (trace wb)
           ++ [header_segment (sequence_number a) (sequence_number a) RDT_ACK]
    /\ recv_q wb' = rest_b
    /\ send_data os_a data a wa = Ret tt a' wa'
    /\ sends (trace wa')
       = sends (trace wa) ++ [data_segment (sequence_number a) data]
    /\ recv_q wa' = rest_a
    /\ sequence_number a' = to_uint32 (sequence_number a + 1)
    /\ sequence_number b' = sequence_number a'.
Proof.
  intros Hoka Hokb Hsa Hsb Hn Hseq Hlen Hqb Hqa.
  set (seg := data_segment (sequence_number a) data) in *.
  assert (Hrec : received seg = seg) by (apply received_data_segment; exact Hlen).
  destruct (data_segment_fields (sequence_number a) data) as (F1 & F2 & F3).
  fold seg in F1, F2, F3.
  assert (Hto : to_uint32 (sequence_number a) = sequence_number a)
    by (unfold to_uint32; apply Z.mod_small; exact Hn).
  destruct (receive_data_delivers os_b Hokb [] seg b wb rest_b Hsb (Forall_nil _))
    as (wb' & Eb & Ab & Rb).
  { rewrite Hrec. exact F1. }
  { rewrite Hrec, F2, Hto. symmetry. exact Hseq. }
  { rewrite Hrec. unfold seg. rewrite data_segment_length. lia. }
  { exact Hqb. }
  rewrite Hrec, F3 in Eb.
  destruct (send_data_acked os_a Hoka data a wa [] 0
              (header_segment (sequence_number a) (sequence_number a) RDT_ACK)
              rest_a Hsa Hlen (Forall_nil _) (acks_own_number _ Hn) Hqa)
    as (a' & wa' & Ea & Qa & Ta & Ra & Sa).
  exists (set_sequence_number (to_uint32 (sequence_number b + 1)) b), wb', a', wa'.
  split; [|split; [|split; [|split; [|split; [|split; [|split]]]]]].
  - rewrite Eb. unfold seg. rewrite data_segment_length.
    replace (sizeof_RDTHeader + Z.of_nat (List.length data) - sizeof_RDTHeader)
      with (Z.of_nat (List.length data)) by lia.
    reflexivity.
  - destruct Ab as (_ & S & _). rewrite S. cbn [app map]. rewrite Hrec. reflexivity.
  - exact Rb.
  - exact Ea.
  - exact Sa.
  - exact Ra.
  - exact Qa.
  - cbn [sequence_number set_sequence_number]. rewrite Qa, Hseq. reflexivity.
Qed.

Lemma data_transfer_end_to_end_witness :
  setsockopt_ok calm
  /\ state open_socket = ESTABLISHED
  /\ Z.of_nat (List.length [x68; x69]) <= MAX_DATA_SIZE
  /\ exists b' wb' a' wa',
       receive_data calm open_socket (world_of [Datagram (data_segment 0 [x68; x69])])
       = Ret (2, [x68; x69]) b' wb'
       /\ sends (trace wb') = [ACK_segment 0]
       /\ send_data calm [x68; x69] open_socket (world_of [Datagram (ACK_segment 0)])
          = Ret tt a' wa'
       /\ sends (trace wa') = [data_segment 0 [x68; x69]]
       /\ sequence_number a' = 1
       /\ sequence_number b' = 1.
Proof.
  split; [intros i; reflexivity|]. split; [reflexivity|].
  split; [vm_compute; discriminate|].
  destruct (data_transfer_end_to_end calm calm [x68; x69] open_socket open_socket
              (world_of [Datagram (ACK_segment 0)])
              (world_of [Datagram (data_segment 0 [x68; x69])]) [] [])
    as (b' & wb' & a' & wa' & Eb & Sb & _ & Ea & Sa & _ & Qa & Qb).
  - intros i. reflexivity.
  - intros i. reflexivity.
  - reflexivity.
  - reflexivity.
  - vm_compute. split; [discriminate | reflexivity].
  - reflexivity.
  - vm_compute. discriminate.
  - reflexivity.
  - reflexivity.
  - exists b', wb', a', wa'. split; [exact Eb|]. split; [exact Sb|].
    split; [exact Ea|]. split; [exact Sa|]. split; [exact Qa|].
    rewrite Qb. exact Qa.
Defined.

(** X20.  One session.  A client that calls [connect_to_remote],
    [send_data] and [close_connection], and a server that calls
    [accept_connection], [receive_data] twice and [close_connection],
    both starting in state [INIT] with the same sequence number: when
    each side receives the segments that the other side sends (and a
    timeout where it waits for one), both sequences of calls return, the
    server's first [receive_data] returns the client's bytes, its second
    returns 0 on the CLOSE, and both connections end in state [CLOSED]. *)
Theorem session_end_to_end (os_c os_s : Oracle) (hostname : string)
    (port_num : Z) (data : list byte) (c s : ReliableSocket) (wc ws : World) :
  setsockopt_ok os_c -> setsockopt_ok os_s ->
  misc_errno os_s (S (n_misc ws)) = 0 ->
  state c = INIT -> state s = INIT ->
  0 <= sequence_number c < 2 ^ 32 ->
  sequence_number s = sequence_number c ->
  Z.of_nat (List.length data) <= MAX_DATA_SIZE ->
  recv_q wc
  = [ Datagram (header_segment 0 0 RDT_SYNACK); Timeout;
      Datagram (header_segment (sequence_number c) (sequence_number c) RDT_ACK);
      Datagram (header_segment 0 0 RDT_ACK);
      Datagram (header_segment 0 0 RDT_CLOSE); Timeout ] ->
  recv_q ws
  = [ Datagram (header_segment 0 0 RDT_SYN);
      Datagram (header_segment 0 0 RDT_ACK);
      Datagram (data_segment (sequence_number c) data);
      Datagram (header_segment 0 0 RDT_CLOSE); Timeout;
      Datagram (header_segment 0 0 RDT_ACK) ] ->
  exists c' wc' s' ws',
    (connect_to_remote os_c hostname port_num ;;
     send_data os_c data ;;
     close_connection os_c)%rdt c wc
    = Ret tt c' wc'
    /\ (accept_connection os_s port_num ;;
        first <- receive_data os_s ;;
        second <- receive_data os_s ;;
        close_connection os_s ;;
        ret (first, second))%rdt s ws
       = Ret ((Z.of_nat (List.length data), data), (0, [])) s' ws'
    /\ state c' = CLOSED /\ state s' = CLOSED
    /\ sends (trace wc') = sends (trace wc) ++ datagrams (recv_q ws)
    /\ sends (trace ws') = sends (trace ws) ++ datagrams (recv_q wc)
    /\ recv_q wc' = [] /\ recv_q ws' = [].
Proof.
  intros Hokc Hoks Hmisc Hc Hs Hn Hseq Hlen Hqc Hqs.
  set (n := sequence_number c) in *.
  set (seg := data_segment n data) in *.
  (* the client *)
  destruct (connect_to_remote_established os_c Hokc hostname port_num 0
              (header_segment 0 0 RDT_SYNACK) [] c wc
              [ Datagram (header_segment n n RDT_ACK);
                Datagram (header_segment 0 0 RDT_ACK);
                Datagram (header_segment 0 0 RDT_CLOSE); Timeout ] Hc Hqc)
    as (c1 & wc1 & tos1 & k1 & Ec1 & Tc1 & Qc1 & Rc1 & Ac1).
  fold n in Qc1.
  assert (Hn1 : 0 <= sequence_number c1 < 2 ^ 32) by (rewrite Qc1; exact Hn).
  rewrite <- Qc1 in Rc1.
  destruct (send_data_acked os_c Hokc data c1 wc1 [] 0
              (header_segment (sequence_number c1) (sequence_number c1) RDT_ACK)
              [ Datagram (header_segment 0 0 RDT_ACK);
                Datagram (header_segment 0 0 RDT_CLOSE); Timeout ] Tc1 Hlen (Forall_nil _) (acks_own_number _ Hn1) Rc1)
    as (c2 & wc2 & Ec2 & Qc2 & Tc2 & Rc2 & Sc2).
  assert (Hc2 : state c2 <> FIN) by (rewrite Tc2; discriminate).
  destruct (close_connection_closes os_c Hokc 0 (header_segment 0 0 RDT_ACK) []
              (header_segment 0 0 RDT_CLOSE) [] c2 wc2 [] Hc2 Rc2
              eq_refl (Forall_nil _) eq_refl (Forall_nil _))
    as (c3 & wc3 & pre & Ec3 & Tc3 & Rc3 & Sc3 & _).
  (* the server *)
  destruct (accept_connection_done os_s port_num (header_segment 0 0 RDT_SYN) [] 0
              (header_segment 0 0 RDT_ACK) s ws
              [ Datagram seg; Datagram (header_segment 0 0 RDT_CLOSE); Timeout;
                Datagram (header_segment 0 0 RDT_ACK) ] Hoks Hmisc Hs eq_refl
              (Forall_nil _) eq_refl Hqs)
    as (s1 & ws1 & Es1 & Ts1 & Qs1 & Rs1 & Ss1 & _).
  assert (Hrec : received seg = seg) by (apply received_data_segment; exact Hlen).
  destruct (data_segment_fields n data) as (F1 & F2 & F3).
  fold seg in F1, F2, F3.
  assert (Hto : to_uint32 n = n)
    by (unfold to_uint32; apply Z.mod_small; exact Hn).
  destruct (receive_data_delivers os_s Hoks [] seg s1 ws1
              [ Datagram (header_segment 0 0 RDT_CLOSE); Timeout;
                Datagram (header_segment 0 0 RDT_ACK) ] Ts1 (Forall_nil _))
    as (ws2 & Es2 & As2 & Rs2).
  { rewrite Hrec. exact F1. }
  { rewrite Hrec, F2, Hto, Qs1. symmetry. exact Hseq. }
  { rewrite Hrec. unfold seg. rewrite data_segment_length. lia. }
  { exact Rs1. }
  rewrite Hrec, F3 in Es2.
  set (s2 := set_sequence_number (to_uint32 (sequence_number s1 + 1)) s1) in *.
  destruct (receive_data_closed os_s Hoks [] (header_segment 0 0 RDT_CLOSE) []
              s2 ws2 [ Datagram (header_segment 0 0 RDT_ACK) ] Ts1 (Forall_nil _)
              eq_refl Rs2)
    as (ws3 & Es3 & Rs3 & Ss3 & _).
  destruct (close_connection_FIN_done os_s [] 0 (header_segment 0 0 RDT_ACK)
              (set_state FIN s2) ws3 [] Hoks eq_refl (Forall_nil _) eq_refl Rs3)
    as (s4 & ws4 & Es4 & Ts4 & Rs4 & Ss4 & _).
  exists c3, wc3, s4, ws4.
  split; [|split; [|split; [|split; [|split; [|split; [|split]]]]]].
  - unfold bind at 1. rewrite Ec1.
    unfold bind at 1. rewrite Ec2. exact Ec3.
  - unfold bind at 1. rewrite Es1.
    unfold bind at 1. rewrite Es2.
    unfold bind at 1. rewrite Es3.
    unfold bind at 1. rewrite Es4.
    unfold seg. rewrite data_segment_length.
    replace (sizeof_RDTHeader + Z.of_nat (List.length data) - sizeof_RDTHeader)
      with (Z.of_nat (List.length data)) by lia.
    reflexivity.
  - exact Tc3.
  - exact Ts4.
  - destruct Ac1 as (_ & Sc1 & _).
    rewrite Sc3, Sc2, Sc1, Hqs, Qc1. unfold datagrams.
    cbn [flat_map app repeat List.length transmissions fold_right Nat.add].
    rewrite <- !app_assoc. reflexivity.
  - destruct As2 as (_ & Sa2 & _).
    rewrite Ss4, Ss3, Sa2, Ss1, Hqc. cbn [map app]. rewrite Hrec. unfold datagrams.
    cbn [flat_map app repeat List.length transmissions fold_right Nat.add].
    rewrite <- !app_assoc. reflexivity.
  - exact Rc3.
  - exact Rs4.
Qed.

Lemma session_end_to_end_witness :
  setsockopt_ok calm
  /\ state fresh_socket = INIT
  /\ exists c' wc' s' ws',
       (connect_to_remote calm "peer" 8080 ;;
        send_data calm [x68; x69] ;;
        close_connection calm)%rdt fresh_socket
         (world_of [ Datagram SYNACK_segment; Timeout; Datagram (ACK_segment 0);
                     Datagram (ACK_segment 0); Datagram CLOSE_segment; Timeout ])
       = Ret tt c' wc'
       /\ (accept_connection calm 8080 ;;
           first <- receive_data calm ;;
           second <- receive_data calm ;;
           close_connection calm ;;
           ret (first, second))%rdt fresh_socket
            (world_of [ Datagram SYN_segment; Datagram (ACK_segment 0);
                        Datagram (data_segment 0 [x68; x69]);
                        Datagram CLOSE_segment; Timeout; Datagram (ACK_segment 0) ])
          = Ret ((2, [x68; x69]), (0, [])) s' ws'
       /\ state c' = CLOSED /\ state s' = CLOSED
       /\ sends (trace wc')
          = [ SYN_segment; ACK_segment 0; data_segment 0 [x68; x69];
              CLOSE_segment; ACK_segment 0 ]
       /\ sends (trace ws')
          = [ SYNACK_segment; ACK_segment 0; ACK_segment 0; CLOSE_segment ].
Proof.
  split; [intros i; reflexivity|]. split; [reflexivity|].
  destruct (session_end_to_end calm calm "peer" 8080 [x68; x69]
              fresh_socket fresh_socket
              (world_of [ Datagram SYNACK_segment; Timeout; Datagram (ACK_segment 0);
                          Datagram (ACK_segment 0); Datagram CLOSE_segment; Timeout ])
              (world_of [ Datagram SYN_segment; Datagram (ACK_segment 0);
                          Datagram (data_segment 0 [x68; x69]);
                          Datagram CLOSE_segment; Timeout; Datagram (ACK_segment 0) ]))
    as (c' & wc' & s' & ws' & Ec & Es & Tc & Ts & Sc & Ss & _).
  - intros i. reflexivity.
  - intros i. reflexivity.
  - reflexivity.
  - reflexivity.
  - reflexivity.
  - vm_compute. split; [discriminate | reflexivity].
  - reflexivity.
  - vm_compute. discriminate.
  - reflexivity.
  - reflexivity.
  - exists c', wc', s', ws'. split; [exact Ec|]. split; [exact Es|].
    split; [exact Tc|]. split; [exact Ts|]. split; [exact Sc | exact Ss].
Defined.

Lemma to_uint32_succ_neq (n : Z) : 0 <= n < 2 ^ 32 -> n <> to_uint32 (n + 1).
Proof.
  unfold to_uint32. change (2 ^ 32) with 4294967296. intros H.
  Z.div_mod_to_equations. lia.
Qed.

(** X21.  A lost ACK.  The sender's first transmission is delivered but
    its ACK is lost, so [send_data] times out and sends the segment again.
    The receiver, already one sequence number further, acknowledges the
    repetition with the old number and does not deliver it; that ACK ends
    the [send_data], and the next segment is delivered by the same
    [receive_data] call that discarded the repetition.  Two [send_data]
    calls thus make two [receive_data] calls return the two payloads, once
    each and in order, and the sequence numbers agree at the end. *)
Theorem lost_ack_is_repaired (os_a os_b : Oracle) (data1 data2 : list byte)
    (a b : ReliableSocket) (wa wb : World) :
  setsockopt_ok os_a -> setsockopt_ok os_b ->
  state a = ESTABLISHED -> state b = ESTABLISHED ->
  0 <= sequence_number a < 2 ^ 32 ->
  sequence_number b = sequence_number a ->
  Z.of_nat (List.length data1) <= MAX_DATA_SIZE ->
  Z.of_nat (List.length data2) <= MAX_DATA_SIZE ->
  recv_q wa
  = [ Timeout;
      Datagram (header_segment (sequence_number a) (sequence_number a) RDT_ACK);
      Datagram (header_segment (to_uint32 (sequence_number a + 1))
                               (to_uint32 (sequence_number a + 1)) RDT_ACK) ] ->
  recv_q wb
  = [ Datagram (data_segment (sequence_number a) data1);
      Datagram (data_segment (sequence_number a) data1);
      Datagram (data_segment (to_uint32 (sequence_number a + 1)) data2) ] ->
  exists a' wa' b' wb',
    (send_data os_a data1 ;; send_data os_a data2)%rdt a wa = Ret tt a' wa'
    /\ (first <- receive_data os_b ;;
        second <- receive_data os_b ;;
        ret (first, second))%rdt b wb
       = Ret ((Z.of_nat (List.length data1), data1),
              (Z.of_nat (List.length data2), data2)) b' wb'
    /\ sends (trace wa')
       = sends (trace wa)
           ++ [ data_segment (sequence_number a) data1;
                data_segment (sequence_number a) data1;
                data_segment (to_uint32 (sequence_number a + 1)) data2 ]
    /\ sends (trace wb')
       = sends (trace wb)
           ++ [ header_segment (sequence_number a) (sequence_number a) RDT_ACK;
                header_segment (sequence_number a) (sequence_number a) RDT_ACK;
                header_segment (to_uint32 (sequence_number a + 1))
                               (to_uint32 (sequence_number a + 1)) RDT_ACK ]
    /\ sequence_number a' = to_uint32 (to_uint32 (sequence_number a + 1) + 1)
    /\ sequence_number b' = sequence_number a'.
Proof.
  intros Hoka Hokb Hsa Hsb Hn Hseq Hl1 Hl2 Hqa Hqb.
  set (n := sequence_number a) in *.
  set (n1 := to_uint32 (n + 1)) in *.
  assert (Hn1 : 0 <= n1 < 2 ^ 32) by apply to_uint32_range.
  assert (Hto : to_uint32 n = n) by (apply to_uint32_small; exact Hn).
  assert (Hto1 : to_uint32 n1 = n1) by (apply to_uint32_small; exact Hn1).
  set (seg1 := data_segment n data1) in *.
  set (seg2 := data_segment n1 data2) in *.
  assert (Hr1 : received seg1 = seg1) by (apply received_data_segment; exact Hl1).
  assert (Hr2 : received seg2 = seg2) by (apply received_data_segment; exact Hl2).
  destruct (data_segment_fields n data1) as (F1 & F2 & F3).
  destruct (data_segment_fields n1 data2) as (G1 & G2 & G3).
  fold seg1 in F1, F2, F3. fold seg2 in G1, G2, G3.
  (* the sender *)
  destruct (send_data_acked os_a Hoka data1 a wa [] 1 (header_segment n n RDT_ACK)
              [ Datagram (header_segment n1 n1 RDT_ACK) ]
              Hsa Hl1 (Forall_nil _) (acks_own_number _ Hn) Hqa)
    as (a1 & wa1 & Ea1 & Qa1 & Ta1 & Ra1 & Sa1).
  fold n in Qa1, Sa1. fold n1 in Qa1. fold seg1 in Sa1.
  assert (Hack1 : acks (sequence_number a1) (received (header_segment n1 n1 RDT_ACK)) = true)
    by (rewrite Qa1; apply acks_own_number; exact Hn1).
  destruct (send_data_acked os_a Hoka data2 a1 wa1 [] 0 (header_segment n1 n1 RDT_ACK)
              [] Ta1 Hl2 (Forall_nil _) Hack1 Ra1)
    as (a2 & wa2 & Ea2 & Qa2 & Ta2 & Ra2 & Sa2).
  rewrite Qa1 in Qa2, Sa2. fold seg2 in Sa2.
  (* the receiver *)
  destruct (receive_data_delivers os_b Hokb [] seg1 b wb
              [ Datagram seg1; Datagram seg2 ] Hsb (Forall_nil _))
    as (wb1 & Eb1 & Ab1 & Rb1).
  { rewrite Hr1. exact F1. }
  { rewrite Hr1, F2, Hto. symmetry. exact Hseq. }
  { rewrite Hr1. unfold seg1. rewrite data_segment_length. lia. }
  { exact Hqb. }
  rewrite Hr1, F3 in Eb1.
  set (b1 := set_sequence_number (to_uint32 (sequence_number b + 1)) b) in *.
  assert (Qb1 : sequence_number b1 = n1) by (unfold b1, n1; cbn; rewrite Hseq; reflexivity).
  destruct (receive_data_delivers os_b Hokb [seg1] seg2 b1 wb1 [] Hsb)
    as (wb2 & Eb2 & Ab2 & Rb2).
  { constructor; [|constructor]. rewrite Hr1. split; [exact F1|].
    rewrite F2, Hto, Qb1. apply to_uint32_succ_neq. exact Hn. }
  { rewrite Hr2. exact G1. }
  { rewrite Hr2, G2, Hto1. symmetry. exact Qb1. }
  { rewrite Hr2. unfold seg2. rewrite data_segment_length. lia. }
  { exact Rb1. }
  rewrite Hr2, G3 in Eb2.
  exists a2, wa2, (set_sequence_number (to_uint32 (sequence_number b1 + 1)) b1), wb2.
  split; [|split; [|split; [|split; [|split]]]].
  - unfold bind at 1. rewrite Ea1. exact Ea2.
  - unfold bind at 1. rewrite Eb1. unfold bind at 1. rewrite Eb2.
    unfold seg1, seg2. rewrite !data_segment_length.
    replace (sizeof_RDTHeader + Z.of_nat (List.length data1) - sizeof_RDTHeader)
      with (Z.of_nat (List.length data1)) by lia.
    replace (sizeof_RDTHeader + Z.of_nat (List.length data2) - sizeof_RDTHeader)
      with (Z.of_nat (List.length data2)) by lia.
    reflexivity.
  - rewrite Sa2, Sa1.
    cbn [repeat transmissions fold_right Nat.add app].
    rewrite <- app_assoc. reflexivity.
  - destruct Ab1 as (_ & S1 & _). destruct Ab2 as (_ & S2 & _).
    rewrite S2, S1. cbn [map app]. rewrite Hr1, Hr2.
    rewrite <- app_assoc. reflexivity.
  - exact Qa2.
  - cbn [sequence_number set_sequence_number]. rewrite Qb1, Qa2. reflexivity.
Qed.

Lemma lost_ack_is_repaired_witness :
  setsockopt_ok calm
  /\ state open_socket = ESTABLISHED
  /\ exists a' wa' b' wb',
       (send_data calm [x68] ;; send_data calm [x69])%rdt open_socket
         (world_of [ Timeout; Datagram (ACK_segment 0);
                     Datagram (header_segment 1 1 RDT_ACK) ])
       = Ret tt a' wa'
       /\ (first <- receive_data calm ;;
           second <- receive_data calm ;;
           ret (first, second))%rdt open_socket
            (world_of [ Datagram (data_segment 0 [x68]);
                        Datagram (data_segment 0 [x68]);
                        Datagram (data_segment 1 [x69]) ])
          = Ret ((1, [x68]), (1, [x69])) b' wb'
       /\ sends (trace wb')
          = [ ACK_segment 0; ACK_segment 0; header_segment 1 1 RDT_ACK ]
       /\ sequence_number a' = 2
       /\ sequence_number b' = 2.
Proof.
  split; [intros i; reflexivity|]. split; [reflexivity|].
  destruct (lost_ack_is_repaired calm calm [x68] [x69] open_socket open_socket
              (world_of [ Timeout; Datagram (ACK_segment 0);
                          Datagram (header_segment 1 1 RDT_ACK) ])
              (world_of [ Datagram (data_segment 0 [x68]);
                          Datagram (data_segment 0 [x68]);
                          Datagram (data_segment 1 [x69]) ]))
    as (a' & wa' & b' & wb' & Ea & Eb & _ & Sb & Qa & Qb).
  - intros i. reflexivity.
  - intros i. reflexivity.
  - reflexivity.
  - reflexivity.
  - vm_compute. split; [discriminate | reflexivity].
  - reflexivity.
  - vm_compute. discriminate.
  - vm_compute. discriminate.
  - reflexivity.
  - reflexivity.
  - exists a', wa', b', wb'. split; [exact Ea|]. split; [exact Eb|].
    split; [exact Sb|]. split; [exact Qa|]. rewrite Qb. exact Qa.
Defined.

(** ** The doubled timeout as a [uint32_t] *)





(** ** The wait of [TIME_WAIT] that ends with a timeout *)

(** X23.  In the teardown that this side starts, once the CLOSE of the
    peer has been received the socket sends the final ACK and sets the
    receive timeout to [TIME_WAIT], 4000 ms.  Every datagram of at least
    one byte that arrives during the wait, a CLOSE in particular, makes it
    send the ACK again and set the same timeout again.  When a wait ends
    with the timeout and nothing received, [close_connection] sets the
    state to [CLOSED] and closes the socket; as long as such datagrams keep
    arriving it does neither.  A CLOSE segment is never a datagram of no
    bytes. *)
Theorem time_wait_until_silence (os : Oracle) (n : nat) (a : list byte)
    (noise : list recv_result) (c : list byte) (cs : list (list byte))
    (s : ReliableSocket) (w : World) (rest : list recv_result) :
  setsockopt_ok os ->
  state s <> FIN ->
  is_type (received a) RDT_ACK || is_type (received a) RDT_CLOSE = true ->
  Forall (fun r => is_close r = false) noise ->
  is_type (received c) RDT_CLOSE = true ->
  Forall (fun d => d <> []) cs ->
  recv_q w = repeat Timeout n ++ Datagram a :: noise
               ++ Datagram c :: map Datagram cs ++ Timeout :: rest ->
  TIME_WAIT = 4000
  /\ (exists s' w' pre,
        close_connection os s w = Ret tt s' w'
        /\ state s' = CLOSED
        /\ recv_q w' = rest
        /\ sends (trace w')
           = sends (trace w) ++ repeat CLOSE_segment (S n)
               ++ repeat (ACK_segment 0) (S (List.length cs))
        /\ applied_timeouts (trace w')
           = applied_timeouts (trace w) ++ pre
               ++ repeat 4000 (S (List.length cs))
        /\ closes (trace w') = S (closes (trace w)))
  /\ (forall w2,
        recv_q w2 = repeat Timeout n ++ Datagram a :: noise
                      ++ Datagram c :: map Datagram cs ->
        exists s' w' pre,
          close_connection os s w2 = Stop Pending s' w'
          /\ state s' = state s
          /\ sends (trace w')
             = sends (trace w2) ++ repeat CLOSE_segment (S n)
                 ++ repeat (ACK_segment 0) (S (List.length cs))
          /\ applied_timeouts (trace w')
             = applied_timeouts (trace w2) ++ pre
                 ++ repeat 4000 (S (List.length cs))
          /\ closes (trace w') = closes (trace w2))
  /\ (forall d, is_type (received d) RDT_CLOSE = true -> d <> [])
  /\ CLOSE_segment = [x00; x00; x00; x00; x00; x00; x00; x00; x04; x00; x00; x00]
  /\ ACK_segment 0 = [x00; x00; x00; x00; x00; x00; x00; x00; x02; x00; x00; x00].
Proof.
  intros Hok Hs Ha Hnoise Hc Hcs Hq.
  split; [reflexivity|]. split; [|split; [|split; [|split; reflexivity]]].
  - apply (close_connection_closes os Hok n a noise c cs s w rest); assumption.
  - intros w2 Hq2.
    apply (close_connection_waits os Hok n a noise c cs s w2); assumption.
  - apply close_segment_nonempty.
Qed.

Lemma time_wait_until_silence_witness :
  setsockopt_ok calm
  /\ state open_socket <> FIN
  /\ recv_q (world_of teardown) = teardown_answered ++ Timeout :: []
  /\ exists s' w',
       close_connection calm open_socket (world_of teardown) = Ret tt s' w'
       /\ state s' = CLOSED
       /\ sends (trace w')
          = [[x00; x00; x00; x00; x00; x00; x00; x00; x04; x00; x00; x00];
             [x00; x00; x00; x00; x00; x00; x00; x00; x02; x00; x00; x00];
             [x00; x00; x00; x00; x00; x00; x00; x00; x02; x00; x00; x00]]
       /\ closes (trace w') = 1%nat.
Proof.
  split; [intros i; reflexivity|]. split; [discriminate|]. split; [reflexivity|].
  destruct (time_wait_until_silence calm 0 (ACK_segment 0) [Timeout]
              CLOSE_segment [CLOSE_segment] open_socket (world_of teardown) [])
    as (_ & (s' & w' & pre & E & T & _ & S & _ & X) & _).
  - intros i. reflexivity.
  - discriminate.
  - reflexivity.
  - constructor; [reflexivity | constructor].
  - reflexivity.
  - constructor; [discriminate | constructor].
  - reflexivity.
  - exists s', w'. split; [exact E|]. split; [exact T|]. split; [exact S | exact X].
Defined.
